(** * chat_exporter: the message-to-markup pipeline

    A shallow embedding of [chat_exporter/construct/message.py]: the
    per-message builder [MessageConstruct] and the transcript assembler
    [gather_messages], followed by the properties established about them.

    Conventions of the embedding.
    - Message objects live in a store ([heap]) and are named by their
      location, because the builder overwrites fields of the objects it is
      handed and the same object is reachable through the input list, the
      [message_dict] and the previous-message pointer.
    - Every call to a collaborator (guild and channel fetches, the template
      engine [fill_out]) is recorded in the [calls] trace of the store.
    - A Python exception is a [Raise] result; the store survives it.
    - What the sources import but do not define (templates, asset renderers,
      the remote lookups, the time-zone database) is gathered in [Env]. *)

From stdpp Require Import base numbers list strings gmap pretty.
From Stdlib Require Import ZArith Lia Ascii String.

Local Open Scope string_scope.
Local Open Scope Z_scope.

(** ** Exceptions and results *)

Inductive Exn : Type :=
| IndexError
| AttributeError
| TypeError
| ValueError
| UnknownTimeZoneError
| NotFound                      (* ipy.errors.NotFound, an HTTPException *)
| HTTPException (status : Z)    (* every other ipy.errors.HTTPException *)
| OtherError (name : string).   (* an exception outside that hierarchy *)

Definition isinstance_HTTPException (e : Exn) : bool :=
  match e with
  | NotFound | HTTPException _ => true
  | _ => false
  end.

Definition isinstance_NotFound (e : Exn) : bool :=
  match e with
  | NotFound => true
  | _ => false
  end.

Inductive Result (A : Type) : Type :=
| Ok (a : A)
| Raise (e : Exn).
Arguments Ok {A} a.
Arguments Raise {A} e.

(** ** Strings: the few [str] methods the builder uses *)

Definition dquote : string := String (ascii_of_nat 34) "".
Definition newline : string := String (ascii_of_nat 10) "".

(** [sub in s] *)
Fixpoint contains (sub s : string) : bool :=
  String.prefix sub s ||
  match s with
  | EmptyString => false
  | String _ s' => contains sub s'
  end.

(** [s.replace(old, new)] for a non-empty [old]: [skip] counts the characters
    of a match still to be dropped. *)
Fixpoint replace_go (old new : string) (skip : nat) (s : string) : string :=
  match s with
  | EmptyString => EmptyString
  | String c s' =>
      match skip with
      | S k => replace_go old new k s'
      | O =>
          if String.prefix old s
          then new +:+ replace_go old new (String.length old - 1)%nat s'
          else String c (replace_go old new O s')
      end
  end.

Definition replace (old new s : string) : string := replace_go old new O s.

Definition isspace (a : ascii) : bool :=
  let n := nat_of_ascii a in
  ((9 <=? n) && (n <=? 13) || (28 <=? n) && (n <=? 32))%nat.

(** [s.split()]: the maximal runs of non-blank characters. *)
Fixpoint split_go (cur : option string) (s : string) : list string :=
  match s with
  | EmptyString => option_list (String.rev <$> cur)
  | String a s' =>
      if isspace a
      then option_list (String.rev <$> cur) ++ split_go None s'
      else split_go (Some (String a (default EmptyString cur))) s'
  end.

Definition split (s : string) : list string := split_go None s.

(** ** Dates and times

    A [datetime] is its wall-clock reading in microseconds together with the
    UTC offset of its [tzinfo], when it has one. *)

Record datetime : Type := mk_datetime {
  wall : Z;
  tzinfo : option Z
}.

Definition timedelta_minutes (n : Z) : Z := n * 60 * 1000000.

Definition datetime_add (t : datetime) (delta : Z) : datetime :=
  {| wall := wall t + delta; tzinfo := tzinfo t |}.

(** [a > b]: naive with naive, aware with aware; mixing them is a TypeError. *)
Definition datetime_gt (a b : datetime) : Result bool :=
  match tzinfo a, tzinfo b with
  | None, None => Ok (wall b <? wall a)
  | Some oa, Some ob => Ok (wall b - ob <? wall a - oa)
  | _, _ => Raise TypeError
  end.

(** [timezone("UTC").localize(time)]: pytz refuses an aware datetime. *)
Definition localize_UTC (time : datetime) : Result datetime :=
  match tzinfo time with
  | None => Ok {| wall := wall time; tzinfo := Some 0 |}
  | Some _ => Raise ValueError
  end.

(** [time.astimezone(tz)], where [tz] gives the zone's offset at a UTC
    instant; a naive [time] is read in the system's local zone. *)
Definition astimezone (system_utcoffset : Z) (tz : Z → Z) (time : datetime) : datetime :=
  let instant := wall time - default system_utcoffset (tzinfo time) in
  {| wall := instant + tz instant; tzinfo := Some (tz instant) |}.

(** ** The platform's records *)

Inductive MessageType : Type :=
| DEFAULT
| RECIPIENT_ADD
| RECIPIENT_REMOVE
| CHANNEL_PINNED_MESSAGE
| THREAD_CREATED
| OTHER_MESSAGE_TYPE (value : Z).   (* REPLY, APPLICATION_COMMAND, ... *)

Global Instance MessageType_eq_dec : EqDecision MessageType.
Proof. solve_decision. Defined.

Inductive RoleIcon : Type :=
| IconAsset (url : string)
| IconPartialEmoji (emoji_id : Z).

Module Role.
Record t : Type := mk {
  id : Z;
  position : Z;
  color : Z;                 (* role.color.value *)
  icon : option RoleIcon
}.
End Role.

Module User.
(** [ipy.User] and [ipy.Member] alike. *)
Record t : Type := mk {
  id : Z;
  username : string;
  display_name : string;
  tag : string;
  bot : bool;
  verified_bot : bool;        (* VERIFIED_BOT in public_flags *)
  avatar_url : string;        (* display_avatar.url *)
  created_at : datetime;
  is_Member : bool;           (* isinstance(author, ipy.Member) *)
  joined_at : option datetime;
  roles : list Role.t
}.
End User.

Record MessageReference : Type := mk_reference {
  message_id : Z;
  channel_id : Z
}.

Record MessageInteraction : Type := mk_interaction {
  interaction_user : User.t;
  interaction_name : string;
  interaction_id : Z
}.

(** The values the two dynamically typed fields [message_reference] and
    [interaction] take: [None], the library's object, or the markup the
    builder stores in its place. *)
Inductive PyValue : Type :=
| PyNone
| PyStr (s : string)
| PyReference (r : MessageReference)
| PyInteraction (i : MessageInteraction).

(** [bool(v)] *)
Definition truthy (v : PyValue) : bool :=
  match v with
  | PyNone => false
  | PyStr s => negb (String.eqb s "")
  | PyReference _ | PyInteraction _ => true
  end.

(** [v != ""] *)
Definition ne_empty_str (v : PyValue) : bool :=
  match v with
  | PyStr s => negb (String.eqb s "")
  | _ => true
  end.

(** [a or b] *)
Definition py_or (a b : PyValue) : PyValue := if truthy a then a else b.

Record Channel : Type := mk_channel {
  Channel_id : Z;
  Channel_type_str : string     (* str(channel.type) *)
}.

(** The channel types of the library that are threads, with the numbers the
    platform gives them. [ChannelType] is an integer enumeration of the
    interactions library, which is not part of the sources. *)
Inductive ThreadType : Type :=
| GUILD_NEWS_THREAD
| GUILD_PUBLIC_THREAD
| GUILD_PRIVATE_THREAD.

Definition ThreadType_value (t : ThreadType) : Z :=
  match t with
  | GUILD_NEWS_THREAD => 10
  | GUILD_PUBLIC_THREAD => 11
  | GUILD_PRIVATE_THREAD => 12
  end.

Definition ThreadType_name (t : ThreadType) : string :=
  match t with
  | GUILD_NEWS_THREAD => "GUILD_NEWS_THREAD"
  | GUILD_PUBLIC_THREAD => "GUILD_PUBLIC_THREAD"
  | GUILD_PRIVATE_THREAD => "GUILD_PRIVATE_THREAD"
  end.

(** [str(channel.type)] for a thread. A member of an integer enumeration
    prints as its qualified name up to Python 3.10 and as its number from
    Python 3.11 on. *)
Definition ChannelType_str (as_number : bool) (t : ThreadType) : string :=
  if as_number then pretty (ThreadType_value t)
  else "ChannelType." +:+ ThreadType_name t.

(** Embeds, attachments, components and reactions are opaque to the builder:
    it only hands them to their renderers. *)
Record Asset : Type := mk_asset { asset_payload : string }.

(** [bool(v)] and [v[0]] for a list attribute, which is [None] where the
    library left it unset. *)
Definition truthy_list {A} (v : option (list A)) : bool :=
  match v with
  | Some (_ :: _) => true
  | _ => false
  end.

Definition loc : Type := nat.

Module Message.
Record t : Type := mk {
  id : Z;
  author : User.t;
  content : string;
  created_at : datetime;
  edited_timestamp : option datetime;
  type : MessageType;
  message_reference : PyValue;
  interaction : PyValue;
  embeds : option (list Asset);
  attachments : option (list Asset);
  components : option (list Asset);
  reactions : option (list Asset);
  webhook_id : option Z;
  _mention_ids : list Z;
  channel : Channel
}.

Definition set_content (v : string) (m : t) : t :=
  mk (id m) (author m) v (created_at m) (edited_timestamp m) (type m)
     (message_reference m) (interaction m) (embeds m) (attachments m)
     (components m) (reactions m) (webhook_id m) (_mention_ids m) (channel m).

Definition set_message_reference (v : PyValue) (m : t) : t :=
  mk (id m) (author m) (content m) (created_at m) (edited_timestamp m) (type m)
     v (interaction m) (embeds m) (attachments m)
     (components m) (reactions m) (webhook_id m) (_mention_ids m) (channel m).

Definition set_interaction (v : PyValue) (m : t) : t :=
  mk (id m) (author m) (content m) (created_at m) (edited_timestamp m) (type m)
     (message_reference m) v (embeds m) (attachments m)
     (components m) (reactions m) (webhook_id m) (_mention_ids m) (channel m).
End Message.

(** ** Templates and the template engine's interface *)

Module html_generator.
Inductive Template : Type :=
| message_body
| message_pin
| message_thread
| message_content
| message_reference
| message_interaction
| start_message
| end_message
| message_thread_remove
| message_thread_add.

Inductive ParseMode : Type :=
| PARSE_MODE_NONE
| PARSE_MODE_MARKDOWN
| PARSE_MODE_REFERENCE.

Global Instance Template_eq_dec : EqDecision Template.
Proof. solve_decision. Defined.
End html_generator.
Import html_generator (Template, ParseMode, PARSE_MODE_NONE,
  PARSE_MODE_MARKDOWN, PARSE_MODE_REFERENCE).

(** One substitution of a [fill_out] call; the mode is [None] where the call
    leaves it to the engine's default. *)
Definition Substitution : Type := string * PyValue * option ParseMode.

Definition sub (key value : string) (mode : ParseMode) : Substitution :=
  (key, PyStr value, Some mode).
Definition sub_default (key value : string) : Substitution :=
  (key, PyStr value, None).

(** ** The collaborators *)

Record Env : Type := mk_env {
  (* the guild *)
  guild_id : Z;
  guild_fetch_member : Z → Result (option User.t);
  guild_fetch_channel : Z → Result Channel;
  (* channel.fetch_message(message_id): the object fetched, by location *)
  channel_fetch_message : Channel → Z → Result loc;
  (* chat_exporter.ext.html_generator *)
  html_fill_out : Template → list Substitution → string;
  message_reference_unknown : string;
  bot_tag : string;
  bot_tag_verified : string;
  (* chat_exporter.ext.discord_utils.DiscordUtils *)
  reference_attachment_icon : string;
  interaction_command_icon : string;
  pinned_message_icon : string;
  thread_channel_icon : string;
  thread_remove_recipient : string;
  thread_add_recipient : string;
  (* chat_exporter.construct.assets: a renderer returns markup or raises *)
  Embed_flow : Asset → Result string;
  Attachment_flow : Asset → Result string;
  Component_flow : Asset → Result string;
  Reaction_flow : Asset → Result string;
  (* html.escape, pytz.timezone, datetime.strftime, the system's zone *)
  html_escape : string → string;
  timezone : string → option (Z → Z);
  strftime : string → datetime → string;
  system_utcoffset : Z
}.

(** ** The store and the monad of the builder *)

Inductive Call : Type :=
| CallFetchMember (user_id : Z)
| CallFetchChannel (channel_id : Z)
| CallFetchMessage (channel_id message_id : Z)
| CallFillOut (template : Template).

Record State : Type := mk_state {
  heap : loc → Message.t;
  calls : list Call
}.

Definition M (A : Type) : Type := State → Result A * State.

Definition ret {A} (a : A) : M A := λ s, (Ok a, s).
Definition raise {A} (e : Exn) : M A := λ s, (Raise e, s).
Definition bind {A B} (c : M A) (k : A → M B) : M B :=
  λ s, match c s with
       | (Ok a, s') => k a s'
       | (Raise e, s') => (Raise e, s')
       end.
(** [try: c except ipy.errors.HTTPException as e: h e] *)
Definition try_except_HTTPException {A} (c : M A) (h : Exn → M A) : M A :=
  λ s, match c s with
       | (Ok a, s') => (Ok a, s')
       | (Raise e, s') =>
           if isinstance_HTTPException e then h e s' else (Raise e, s')
       end.
Definition lift {A} (r : Result A) : M A := λ s, (r, s).

Notation "'do' x <- c ; k" := (bind c (λ x, k))
  (at level 10, x name, c at level 100, k at level 200, only parsing).

Definition record (c : Call) : M unit :=
  λ s, (Ok tt, {| heap := heap s; calls := calls s ++ [c] |}).

Definition load (l : loc) : M Message.t := λ s, (Ok (heap s l), s).

Definition store (l : loc) (f : Message.t → Message.t) : M unit :=
  λ s, (Ok tt, {| heap := λ l', if decide (l' = l) then f (heap s l) else heap s l';
                  calls := calls s |}).

(** ** The builder's own state: the attributes of a [MessageConstruct] *)

(** A value of the [meta_data] dict: the seven-item list
    [[tag, created_at, bot badge, avatar, message count, joined_at,
    display name]]; item 4 is the message count. *)
Record Aggregate : Type := mk_aggregate {
  user_name_discriminator : string;
  user_created_at : datetime;
  user_bot : string;
  user_avatar : string;
  message_count : Z;
  user_joined_at : option datetime;
  user_display_name : string
}.

Definition increment (a : Aggregate) : Aggregate :=
  mk_aggregate (user_name_discriminator a) (user_created_at a) (user_bot a)
    (user_avatar a) (message_count a + 1) (user_joined_at a) (user_display_name a).

Record MessageConstruct : Type := mk_construct {
  message_html : string;
  embeds : string;
  reactions : string;
  components : string;
  attachments : string;
  time_format : string;
  message : loc;
  previous_message : option loc;
  pytz_timezone : string;
  military_time : bool;
  message_dict : gmap Z loc;
  message_created_at : string;
  message_edited_at : string;
  meta_data : gmap Z Aggregate;
  audit : bool
}.

Definition set_message_html (v : string) (c : MessageConstruct) : MessageConstruct :=
  mk_construct v (embeds c) (reactions c) (components c) (attachments c)
    (time_format c) (message c) (previous_message c) (pytz_timezone c)
    (military_time c) (message_dict c) (message_created_at c)
    (message_edited_at c) (meta_data c) (audit c).

Definition set_assets (e r k a : string) (c : MessageConstruct) : MessageConstruct :=
  mk_construct (message_html c) e r k a
    (time_format c) (message c) (previous_message c) (pytz_timezone c)
    (military_time c) (message_dict c) (message_created_at c)
    (message_edited_at c) (meta_data c) (audit c).

Definition set_times (created edited : string) (c : MessageConstruct) : MessageConstruct :=
  mk_construct (message_html c) (embeds c) (reactions c) (components c)
    (attachments c) (time_format c) (message c) (previous_message c)
    (pytz_timezone c) (military_time c) (message_dict c) created edited
    (meta_data c) (audit c).

Definition set_meta_data (v : gmap Z Aggregate) (c : MessageConstruct) : MessageConstruct :=
  mk_construct (message_html c) (embeds c) (reactions c) (components c)
    (attachments c) (time_format c) (message c) (previous_message c)
    (pytz_timezone c) (military_time c) (message_dict c) (message_created_at c)
    (message_edited_at c) v (audit c).

Definition set_audit (v : bool) (c : MessageConstruct) : MessageConstruct :=
  mk_construct (message_html c) (embeds c) (reactions c) (components c)
    (attachments c) (time_format c) (message c) (previous_message c)
    (pytz_timezone c) (military_time c) (message_dict c) (message_created_at c)
    (message_edited_at c) (meta_data c) v.

(** ** Roles and colours *)

(** Modelled from the spec: the order of roles ([Role.__lt__] belongs to the
    interactions library, not to the sources): by rank, and by id among
    roles of equal rank. *)
Definition Role_lt (a b : Role.t) : bool :=
  (Role.position a <? Role.position b) ||
  ((Role.position a =? Role.position b) && (Role.id a <? Role.id b)).

(** [sorted(...)]: a stable sort that only asks [<]. *)
Fixpoint insort (r : Role.t) (l : list Role.t) : list Role.t :=
  match l with
  | [] => [r]
  | x :: l' => if Role_lt x r then x :: insort r l' else r :: x :: l'
  end.

Definition sorted (l : list Role.t) : list Role.t := foldr insort [] l.

Definition hex_digit (d : Z) : ascii :=
  ascii_of_nat (Z.to_nat (if d <? 10 then 48 + d else 87 + d)).

(** [f"{b:02x}"] for a byte. *)
Definition hex2 (b : Z) : string :=
  String (hex_digit (b / 16)) (String (hex_digit (b mod 16)) EmptyString).

(** [str(color)]: the library prints a colour as [#rrggbb]. *)
Definition Color_str (value : Z) : string :=
  "#" +:+ hex2 (Z.land (Z.shiftr value 16) 255)
      +:+ hex2 (Z.land (Z.shiftr value 8) 255)
      +:+ hex2 (Z.land value 255).

Definition has_colour (r : Role.t) : bool := negb (Role.color r =? 0).

Definition has_icon (r : Role.t) : bool := bool_decide (is_Some (Role.icon r)).

(** ** [chat_exporter/construct/message.py] *)

Section message_py.
Context (E : Env).

(** *** Calls to the collaborators *)

Definition fill_out (template : Template) (subs : list Substitution) : M string :=
  do _ <- record (CallFillOut template);
  ret (html_fill_out E template subs).

Definition fetch_member (user_id : Z) : M (option User.t) :=
  do _ <- record (CallFetchMember user_id);
  lift (guild_fetch_member E user_id).

Definition fetch_channel (cid : Z) : M Channel :=
  do _ <- record (CallFetchChannel cid);
  lift (guild_fetch_channel E cid).

Definition fetch_message (ch : Channel) (mid : Z) : M loc :=
  do _ <- record (CallFetchMessage (Channel_id ch) mid);
  lift (channel_fetch_message E ch mid).

Definition lookup_timezone (name : string) : M (Z → Z) :=
  match timezone E name with
  | Some tz => ret tz
  | None => raise UnknownTimeZoneError
  end.

(** Attribute access on the two dynamically typed fields. *)
Definition getattr_reference (v : PyValue) : M MessageReference :=
  match v with
  | PyReference r => ret r
  | _ => raise AttributeError
  end.

Definition getattr_interaction (v : PyValue) : M MessageInteraction :=
  match v with
  | PyInteraction i => ret i
  | _ => raise AttributeError
  end.

(** [message.message_reference = v], an ordinary assignment, for the two
    kinds of value the sources assign this way: [None] and a string. The
    attribute is an attrs field with a converter; the comment at the head of
    [build_reference] names it, and the other writes to the field go around
    it with [object.__setattr__]. The converter lets [None] through and
    raises [AttributeError] on a string. *)
Definition assign_message_reference (l : loc) (v : option string) : M unit :=
  match v with
  | None => store l (Message.set_message_reference PyNone)
  | Some _ => raise AttributeError
  end.

(** [for x in v]: [None] is not iterable. *)
Definition iterate {A} (v : option (list A)) : M (list A) :=
  match v with
  | Some l => ret l
  | None => raise TypeError
  end.

(** *** Module-level helpers *)

Definition _gather_user_bot (author : User.t) : string :=
  if User.bot author then
    if User.verified_bot author then bot_tag_verified E else bot_tag E
  else "".

Definition _set_edit_at (message_edited_at : string) : string :=
  "<span class=" +:+ dquote +:+ "chatlog__reference-edited-timestamp" +:+ dquote
  +:+ " data-timestamp=" +:+ dquote +:+ message_edited_at +:+ dquote
  +:+ ">(edited)</span>".

(** *** class MessageConstruct *)

Definition to_local_time_str (self : MessageConstruct) (time : datetime) : M string :=
  do m <- load (message self);
  do time <- (if bool_decide (tzinfo (Message.created_at m) = None)
           then lift (localize_UTC time)
           else ret time);
  do tz <- lookup_timezone (pytz_timezone self);
  let local_time := astimezone (system_utcoffset E) tz time in
  if military_time self
  then ret (strftime E (time_format self) local_time)
  else ret (strftime E (time_format self) local_time).

Definition set_time (self : MessageConstruct) (message' : option loc)
  : M (string * string) :=
  do m <- load (default (message self) message');
  do created_at_str <- to_local_time_str self (Message.created_at m);
  do edited_at_str <- match Message.edited_timestamp m with
                   | Some t => to_local_time_str self t
                   | None => ret ""
                   end;
  ret (created_at_str, edited_at_str).

(** [__init__] *)
Definition MessageConstruct_init (message : loc) (previous_message : option loc)
    (pytz_timezone : string) (military_time : bool)
    (meta_data : gmap Z Aggregate) (message_dict : gmap Z loc)
  : M MessageConstruct :=
  let self :=
    {| message_html := ""; embeds := ""; reactions := ""; components := "";
       attachments := "";
       time_format := if military_time then "%A, %e %B %Y %H:%M"
                      else "%A, %e %B %Y %I:%M %p";
       message := message; previous_message := previous_message;
       pytz_timezone := pytz_timezone; military_time := military_time;
       message_dict := message_dict;
       message_created_at := ""; message_edited_at := "";
       meta_data := meta_data; audit := false |} in
  do times <- set_time self None;
  ret (set_times times.1 times.2 self).

Definition _gather_member (author : option User.t) : M (option User.t) :=
  match author with
  | Some a => fetch_member (User.id a)
  | None => raise AttributeError
  end.

(** [_gather_user_colour], from the line [color = None] on. *)
Definition user_colour_of (member : option User.t) : string :=
  let color :=
    match member with
    | Some member =>
        let roles := sorted (filter (λ r, Role.id r ≠ guild_id E) (User.roles member)) in
        match List.find has_colour (reverse roles) with
        | Some role => Role.color role
        | None => 0
        end
    | None => 0
    end in
  let user_colour :=
    if bool_decide (is_Some member) && negb (String.eqb (Color_str color) "#000000")
    then Color_str color
    else "#FFFFFF" in
  "color: " +:+ user_colour +:+ ";".

Definition _gather_user_colour (author : option User.t) : M string :=
  do member <- _gather_member author;
  ret (user_colour_of member).

Definition _gather_user_icon (author : option User.t) : M string :=
  do member <- _gather_member author;
  match member with
  | None => ret ""
  | Some member =>
      let roles := sorted (filter (λ r, Role.id r ≠ guild_id E) (User.roles member)) in
      match List.find has_icon (reverse roles) ≫= Role.icon with
      | Some display_icon =>
          let display_icon_url :=
            match display_icon with
            | IconAsset url => url
            | IconPartialEmoji i =>
                "https://cdn.discordapp.com/emojis/" +:+ pretty i +:+ ".png"
            end in
          ret ("<img class='chatlog__role-icon' src='" +:+ display_icon_url
               +:+ "' alt='Role Icon'>")
      | None => ret ""
      end
  end.

(** The list stored for an author seen for the first time. *)
Definition first_aggregate (author : User.t) : Aggregate :=
  let user_name_discriminator := User.tag author in
  let user_created_at := User.created_at author in
  let user_bot := _gather_user_bot author in
  let user_avatar := User.avatar_url author in
  let user_joined_at :=
    if User.is_Member author then User.joined_at author else None in
  let user_display_name :=
    if negb (String.eqb (User.display_name author) (User.username author))
    then "<div class=" +:+ dquote +:+ "meta__display-name" +:+ dquote +:+ ">"
         +:+ User.display_name author +:+ "</div>"
    else "" in
  mk_aggregate user_name_discriminator user_created_at user_bot user_avatar 1
    user_joined_at user_display_name.

Definition build_meta_data (self : MessageConstruct) : M MessageConstruct :=
  do m <- load (message self);
  let user_id := User.id (Message.author m) in
  match meta_data self !! user_id with
  | Some a =>
      ret (set_meta_data (<[user_id := increment a]> (meta_data self)) self)
  | None =>
      ret (set_meta_data
             (<[user_id := first_aggregate (Message.author m)]> (meta_data self))
             self)
  end.

Definition build_content (self : MessageConstruct) : M MessageConstruct :=
  do m <- load (message self);
  if String.eqb (Message.content m) "" then
    do _ <- store (message self) (Message.set_content "");
    ret self
  else
    let self :=
      if negb (String.eqb (message_edited_at self) "")
      then set_times (message_created_at self) (_set_edit_at (message_edited_at self)) self
      else self in
    do _ <- store (message self) (Message.set_content (html_escape E (Message.content m)));
    do m <- load (message self);
    do content <- fill_out html_generator.message_content
      [ sub "MESSAGE_CONTENT" (Message.content m) PARSE_MODE_MARKDOWN;
        sub "EDIT" (message_edited_at self) PARSE_MODE_NONE ];
    do _ <- store (message self) (Message.set_content content);
    ret self.

(** [build_reference], from the line [is_bot = ...] on: the banner for the
    referenced message [message'], found in [message_dict] or fetched. *)
Definition render_reference (self : MessageConstruct) (message' : loc) : M unit :=
  do r <- load message';
  let is_bot := _gather_user_bot (Message.author r) in
  do user_colour <- _gather_user_colour (Some (Message.author r));
  do _ <- (if String.eqb (Message.content r) ""
              && negb (truthy (Message.interaction r))
           then store message' (Message.set_content "Click to see attachment")
           else if String.eqb (Message.content r) ""
                   && truthy (Message.interaction r)
           then store message' (Message.set_content "Click to see command")
           else ret tt);
  do r <- load message';
  let icon :=
    if negb (truthy (Message.interaction r))
       && (truthy_list (Message.embeds r) || truthy_list (Message.attachments r))
    then reference_attachment_icon E
    else if truthy (Message.interaction r) then interaction_command_icon E
    else "" in
  do times <- set_time self (Some message');
  let message_edited_at :=
    if negb (String.eqb times.2 "") then _set_edit_at times.2 else times.2 in
  let avatar_url := User.avatar_url (Message.author r) in
  do m <- load (message self);
  do ref <- getattr_reference (Message.message_reference m);
  do new_reference <- fill_out html_generator.message_reference
    [ sub "AVATAR_URL" avatar_url PARSE_MODE_NONE;
      sub "BOT_TAG" is_bot PARSE_MODE_NONE;
      sub "NAME_TAG" (User.tag (Message.author r)) PARSE_MODE_NONE;
      sub_default "NAME" (html_escape E (User.display_name (Message.author r)));
      sub "USER_COLOUR" user_colour PARSE_MODE_NONE;
      sub "CONTENT" (replace "<br>" "" (replace newline "" (Message.content r)))
        PARSE_MODE_REFERENCE;
      sub "EDIT" message_edited_at PARSE_MODE_NONE;
      sub "ICON" icon PARSE_MODE_NONE;
      sub "USER_ID" (pretty (User.id (Message.author r))) PARSE_MODE_NONE;
      sub "MESSAGE_ID" (pretty (message_id ref)) PARSE_MODE_NONE ];
  store (message self) (Message.set_message_reference (PyStr new_reference)).

(** The [except ipy.errors.HTTPException as e] clause of [build_reference]. *)
Definition reference_not_fetched (self : MessageConstruct) (e : Exn) : M (option loc) :=
  do _ <- store (message self) (Message.set_message_reference (PyStr ""));
  do _ <- (if isinstance_NotFound e
           then assign_message_reference (message self)
                  (Some (message_reference_unknown E))
           else ret tt);
  ret None.

Definition build_reference (self : MessageConstruct) : M unit :=
  do m <- load (message self);
  if negb (truthy (Message.message_reference m)) then
    store (message self) (Message.set_message_reference (PyStr ""))
  else
    do ref <- getattr_reference (Message.message_reference m);
    do found <-
      match message_dict self !! message_id ref with
      | Some message' => ret (Some message')
      | None =>
          try_except_HTTPException
            (do message' <- fetch_message (Message.channel m) (message_id ref);
             ret (Some message'))
            (reference_not_fetched self)
      end;
    match found with
    | None => ret tt
    | Some message' => render_reference self message'
    end.

Definition build_interaction (self : MessageConstruct) : M unit :=
  do m <- load (message self);
  if negb (truthy (Message.interaction m)) then
    store (message self) (Message.set_interaction (PyStr ""))
  else
    do i <- getattr_interaction (Message.interaction m);
    let user := interaction_user i in
    let is_bot := _gather_user_bot user in
    do user_colour <- _gather_user_colour (Some user);
    let avatar_url := User.avatar_url user in
    do new_interaction <- fill_out html_generator.message_interaction
      [ sub "AVATAR_URL" avatar_url PARSE_MODE_NONE;
        sub "BOT_TAG" is_bot PARSE_MODE_NONE;
        sub "NAME_TAG" (User.tag user) PARSE_MODE_NONE;
        sub_default "NAME" (html_escape E (User.display_name user));
        sub "USER_COLOUR" user_colour PARSE_MODE_NONE;
        sub "FILLER" "used " PARSE_MODE_NONE;
        sub "COMMAND" ("/" +:+ interaction_name i) PARSE_MODE_NONE;
        sub "USER_ID" (pretty (User.id user)) PARSE_MODE_NONE;
        sub "INTERACTION_ID" (pretty (interaction_id i)) PARSE_MODE_NONE ];
    store (message self) (Message.set_interaction (PyStr new_interaction)).

(** [for a in l: acc += await flow(a)] *)
Fixpoint flow_all (flow : Asset → Result string) (acc : string) (l : list Asset)
  : M string :=
  match l with
  | [] => ret acc
  | a :: l' =>
      do fragment <- lift (flow a);
      flow_all flow (acc +:+ fragment) l'
  end.

Definition build_assets (self : MessageConstruct) : M MessageConstruct :=
  do m <- load (message self);
  do l <- iterate (Message.embeds m);
  do embeds <- flow_all (Embed_flow E) (embeds self) l;
  do l <- iterate (Message.attachments m);
  do attachments <- flow_all (Attachment_flow E) (attachments self) l;
  do l <- iterate (Message.components m);
  do components <- flow_all (Component_flow E) (components self) l;
  do l <- iterate (Message.reactions m);
  do reactions <- flow_all (Reaction_flow E) (reactions self) l;
  let reactions :=
    if negb (String.eqb reactions "")
    then "<div class=" +:+ dquote +:+ "chatlog__reactions" +:+ dquote +:+ ">"
         +:+ reactions +:+ "</div>"
    else reactions in
  ret (set_assets embeds reactions components attachments self).

Definition _generate_message_divider_check (self : MessageConstruct) : M bool :=
  do m <- load (message self);
  match previous_message self with
  | None => ret true
  | Some previous =>
      do p <- load previous;
      if ne_empty_str (Message.message_reference m) then ret true
      else if bool_decide (Message.type p ≠ DEFAULT) then ret true
      else if ne_empty_str (Message.interaction m) then ret true
      else if bool_decide (User.id (Message.author p) ≠ User.id (Message.author m))
      then ret true
      else if bool_decide (Message.webhook_id m ≠ None) then ret true
      else lift (datetime_gt (Message.created_at m)
                   (datetime_add (Message.created_at p) (timedelta_minutes 4)))
  end.

(** [generate_message_divider], from the line [followup_symbol = ""] on: the
    header of a new block. *)
Definition divider_header (self : MessageConstruct) : M (MessageConstruct * bool) :=
  do m <- load (message self);
  let author := Message.author m in
  let is_bot := _gather_user_bot author in
  let avatar_url := User.avatar_url author in
  let followup_symbol :=
    if ne_empty_str (Message.message_reference m) || truthy (Message.interaction m)
    then "<div class='chatlog__followup-symbol'></div>"
    else "" in
  do time <- (if bool_decide (tzinfo (Message.created_at m) = None)
              then lift (localize_UTC (Message.created_at m))
              else ret (Message.created_at m));
  do tz <- lookup_timezone (pytz_timezone self);
  let default_timestamp :=
    strftime E "%d-%m-%Y %H:%M" (astimezone (system_utcoffset E) tz time) in
  let reference := py_or (Message.message_reference m) (Message.interaction m) in
  do user_colour <- _gather_user_colour (Some author);
  do user_icon <- _gather_user_icon (Some author);
  do opening <- fill_out html_generator.start_message
    [ sub "REFERENCE_SYMBOL" followup_symbol PARSE_MODE_NONE;
      ("REFERENCE", reference, Some PARSE_MODE_NONE);
      sub "AVATAR_URL" avatar_url PARSE_MODE_NONE;
      sub "NAME_TAG" (User.tag author) PARSE_MODE_NONE;
      sub_default "USER_ID" (pretty (User.id author));
      sub_default "USER_COLOUR" user_colour;
      sub "USER_ICON" user_icon PARSE_MODE_NONE;
      sub_default "NAME" (html_escape E (User.display_name author));
      sub "BOT_TAG" is_bot PARSE_MODE_NONE;
      sub_default "TIMESTAMP" (message_created_at self);
      sub "DEFAULT_TIMESTAMP" default_timestamp PARSE_MODE_NONE;
      sub_default "MESSAGE_ID" (pretty (Message.id m));
      sub "MESSAGE_CONTENT" (Message.content m) PARSE_MODE_NONE;
      sub "EMBEDS" (embeds self) PARSE_MODE_NONE;
      sub "ATTACHMENTS" (attachments self) PARSE_MODE_NONE;
      sub "COMPONENTS" (components self) PARSE_MODE_NONE;
      sub "EMOJI" (reactions self) PARSE_MODE_NONE ];
  ret (set_message_html (message_html self +:+ opening) self, true).

(** The result is [true] for the code's [return True] and [false] for its two
    ways of returning [None]. *)
Definition generate_message_divider (self : MessageConstruct) (channel_audit : bool)
  : M (MessageConstruct * bool) :=
  do check <- (if channel_audit then ret true
               else _generate_message_divider_check self);
  if check then
    do self <- match previous_message self with
               | Some _ =>
                   do closing <- fill_out html_generator.end_message [];
                   ret (set_message_html (message_html self +:+ closing) self)
               | None => ret self
               end;
    if channel_audit then ret (set_audit true self, false)
    else divider_header self
  else ret (self, false).

Definition build_message_template (self : MessageConstruct) : M MessageConstruct :=
  do started <- generate_message_divider self false;
  let self := started.1 in
  if started.2 then ret self
  else
    do m <- load (message self);
    do time <- match last (split (message_created_at self)) with
               | Some w => ret w
               | None => raise IndexError
               end;
    do body <- fill_out html_generator.message_body
      [ sub_default "MESSAGE_ID" (pretty (Message.id m));
        sub "MESSAGE_CONTENT" (Message.content m) PARSE_MODE_NONE;
        sub "EMBEDS" (embeds self) PARSE_MODE_NONE;
        sub "ATTACHMENTS" (attachments self) PARSE_MODE_NONE;
        sub "COMPONENTS" (components self) PARSE_MODE_NONE;
        sub "EMOJI" (reactions self) PARSE_MODE_NONE;
        sub "TIMESTAMP" (message_created_at self) PARSE_MODE_NONE;
        sub "TIME" time PARSE_MODE_NONE ];
    ret (set_message_html (message_html self +:+ body) self).

Definition build_pin_template (self : MessageConstruct) : M MessageConstruct :=
  do m <- load (message self);
  let author := Message.author m in
  do user_colour <- _gather_user_colour (Some author);
  do ref <- getattr_reference (Message.message_reference m);
  do pin <- fill_out html_generator.message_pin
    [ sub "PIN_URL" (pinned_message_icon E) PARSE_MODE_NONE;
      sub_default "USER_COLOUR" user_colour;
      sub_default "NAME" (html_escape E (User.display_name author));
      sub "NAME_TAG" (User.tag author) PARSE_MODE_NONE;
      sub "MESSAGE_ID" (pretty (Message.id m)) PARSE_MODE_NONE;
      sub "REF_MESSAGE_ID" (pretty (message_id ref)) PARSE_MODE_NONE ];
  ret (set_message_html (message_html self +:+ pin) self).

Definition build_thread_template (self : MessageConstruct) : M MessageConstruct :=
  do m <- load (message self);
  let author := Message.author m in
  do user_colour <- _gather_user_colour (Some author);
  do thread <- fill_out html_generator.message_thread
    [ sub "THREAD_URL" (thread_channel_icon E) PARSE_MODE_NONE;
      sub "THREAD_NAME" (Message.content m) PARSE_MODE_NONE;
      sub_default "USER_COLOUR" user_colour;
      sub_default "NAME" (html_escape E (User.display_name author));
      sub "NAME_TAG" (User.tag author) PARSE_MODE_NONE;
      sub "MESSAGE_ID" (pretty (Message.id m)) PARSE_MODE_NONE ];
  ret (set_message_html (message_html self +:+ thread) self).

(** [build_remove] and [build_add] differ in the template and the icon only. *)
Definition build_recipient (template : Template) (thread_url : string)
    (self : MessageConstruct) : M MessageConstruct :=
  do m <- load (message self);
  do target <- match Message._mention_ids m with
               | first :: _ => ret first
               | [] => raise IndexError
               end;
  do removed_member <- fetch_member target;
  let author := Message.author m in
  do user_colour <- _gather_user_colour (Some author);
  do recipient_colour <- _gather_user_colour removed_member;
  do recipient <- match removed_member with
                  | Some member => ret member
                  | None => raise AttributeError
                  end;
  do notice <- fill_out template
    [ sub "THREAD_URL" thread_url PARSE_MODE_NONE;
      sub_default "USER_COLOUR" user_colour;
      sub_default "NAME" (html_escape E (User.display_name author));
      sub "NAME_TAG" (User.tag author) PARSE_MODE_NONE;
      sub_default "RECIPIENT_USER_COLOUR" recipient_colour;
      sub_default "RECIPIENT_NAME" (html_escape E (User.display_name recipient));
      sub "RECIPIENT_NAME_TAG" (User.tag recipient) PARSE_MODE_NONE;
      sub "MESSAGE_ID" (pretty (Message.id m)) PARSE_MODE_NONE ];
  ret (set_message_html (message_html self +:+ notice) self).

Definition build_remove : MessageConstruct → M MessageConstruct :=
  build_recipient html_generator.message_thread_remove (thread_remove_recipient E).

Definition build_add : MessageConstruct → M MessageConstruct :=
  build_recipient html_generator.message_thread_add (thread_add_recipient E).

Definition build_message (self : MessageConstruct) : M MessageConstruct :=
  do self <- build_content self;
  do _ <- build_reference self;
  do _ <- build_interaction self;
  do self <- build_assets self;
  do self <- build_message_template self;
  build_meta_data self.

Definition build_pin (self : MessageConstruct) : M MessageConstruct :=
  do started <- generate_message_divider self true;
  build_pin_template started.1.

Definition build_thread (self : MessageConstruct) : M MessageConstruct :=
  do started <- generate_message_divider self true;
  build_thread_template started.1.

Definition build_thread_remove (self : MessageConstruct) : M MessageConstruct :=
  do started <- generate_message_divider self true;
  build_remove started.1.

Definition build_thread_add (self : MessageConstruct) : M MessageConstruct :=
  do started <- generate_message_divider self true;
  build_add started.1.

Definition construct_message (self : MessageConstruct)
  : M (string * gmap Z Aggregate) :=
  do m <- load (message self);
  do self <- match Message.type m with
             | CHANNEL_PINNED_MESSAGE => build_pin self
             | THREAD_CREATED => build_thread self
             | RECIPIENT_REMOVE => build_thread_remove self
             | RECIPIENT_ADD => build_thread_add self
             | _ => build_message self
             end;
  ret (message_html self, meta_data self).

(** *** gather_messages *)

Definition index_messages (messages : list loc) : M (gmap Z loc) :=
  λ s, (Ok (foldl (λ d message, <[Message.id (heap s message) := message]> d) ∅ messages), s).

(** The statements before the loop: the list the loop will run over. *)
Definition anchor_thread (messages : list loc) : M (list loc) :=
  match messages with
  | [] => raise IndexError
  | first :: _ =>
      do m <- load first;
      if contains "thread" (Channel_type_str (Message.channel m))
         && truthy (Message.message_reference m)
      then
        do ref <- getattr_reference (Message.message_reference m);
        do channel <- fetch_channel (channel_id ref);
        do message <- fetch_message channel (message_id ref);
        let messages := <[0%nat := message]> messages in
        do _ <- assign_message_reference message None;
        ret messages
      else ret messages
  end.

Fixpoint gather_loop (pytz_timezone : string) (military_time : bool)
    (message_dict : gmap Z loc) (messages : list loc)
    (previous_message : option loc) (message_html : string)
    (meta_data : gmap Z Aggregate) : M (string * gmap Z Aggregate) :=
  match messages with
  | [] => ret (message_html, meta_data)
  | message :: rest =>
      do self <- MessageConstruct_init message previous_message pytz_timezone
                   military_time meta_data message_dict;
      do built <- construct_message self;
      gather_loop pytz_timezone military_time message_dict rest (Some message)
        (message_html +:+ built.1) built.2
  end.

Definition gather_messages (messages : list loc) (pytz_timezone : string)
    (military_time : bool) : M (string * gmap Z Aggregate) :=
  do message_dict <- index_messages messages;
  do messages <- anchor_thread messages;
  do result <- gather_loop pytz_timezone military_time message_dict messages
                 None "" ∅;
  ret (result.1 +:+ "</div>", result.2).

End message_py.

(** ** [chat_exporter/chat_exporter.py]: the link helpers

    [quick_export], [export] and [raw_export] only hand their arguments to
    the [Transcript] class; [quick_link] and [link] build the address of the
    online viewer from the first attachment of a message. *)

Inductive BrandColors : Type := BLURPLE.

Record Embed : Type := mk_embed {
  embed_title : string;
  embed_description : string;
  embed_color : BrandColors
}.

Section chat_exporter_py.
(** [attachment.url], and [channel.send(embed=...)] with the message it
    posts. *)
Context (attachment_url : Asset → string) (channel_send : Embed → Result loc).

Definition link (message' : Message.t) : Result string :=
  match Message.attachments message' with
  | Some (first :: _) =>
      Ok ("https://mahto.id/chat-exporter?url=" +:+ attachment_url first)
  | Some [] => Raise IndexError
  | None => Raise TypeError
  end.

(** The result, and the embeds handed to [channel.send]. *)
Definition quick_link (message' : Message.t) : Result loc * list Embed :=
  match Message.attachments message' with
  | Some (first :: _) =>
      let embed :=
        {| embed_title := "Transcript Link";
           embed_description :=
             "[Click here to view the transcript](https://mahto.id/chat-exporter?url="
             +:+ attachment_url first +:+ ")";
           embed_color := BLURPLE |} in
      (channel_send embed, [embed])
  | Some [] => (Raise IndexError, [])
  | None => (Raise TypeError, [])
  end.

End chat_exporter_py.

(** ** Observations on a run *)

(** The sequence of constructions the loop of [gather_messages] performs:
    every message in turn, each with its predecessor as previous message and
    the [meta_data] left by its predecessor. Each step is listed with the
    markup it returned and the calls it made. *)
Inductive runs (E : Env) (pytz_timezone : string) (military_time : bool)
    (message_dict : gmap Z loc)
  : list loc → option loc → gmap Z Aggregate → State →
    list (string * list Call) → gmap Z Aggregate → State → Prop :=
| runs_nil previous meta s :
    runs E pytz_timezone military_time message_dict [] previous meta s [] meta s
| runs_cons message rest previous meta s self s1 html meta1 s2 d steps meta' s' :
    MessageConstruct_init E message previous pytz_timezone military_time meta
      message_dict s = (Ok self, s1) →
    construct_message E self s1 = (Ok (html, meta1), s2) →
    calls s2 = (calls s1 ++ d)%list →
    runs E pytz_timezone military_time message_dict rest (Some message) meta1 s2
      steps meta' s' →
    runs E pytz_timezone military_time message_dict (message :: rest) previous
      meta s ((html, d) :: steps) meta' s'.

Definition join (l : list string) : string := foldr String.app "" l.

(** The moment of a [datetime] on the UTC line, for aware ones; the wall
    clock itself for naive ones. *)
Definition instant (t : datetime) : Z := wall t - default 0 (tzinfo t).

(** Python orders two datetimes only when both or neither carry a zone. *)
Definition comparable (a b : datetime) : Prop :=
  tzinfo a = None ↔ tzinfo b = None.

(** The condition [_generate_message_divider_check] decides, read on the
    objects as they are when it runs. *)
Definition starts_block (m : Message.t) (previous : option Message.t) : Prop :=
  match previous with
  | None => True
  | Some p =>
      ne_empty_str (Message.message_reference m) = true
      ∨ Message.type p ≠ DEFAULT
      ∨ ne_empty_str (Message.interaction m) = true
      ∨ User.id (Message.author p) ≠ User.id (Message.author m)
      ∨ Message.webhook_id m ≠ None
      ∨ (comparable (Message.created_at m) (Message.created_at p)
         ∧ instant (Message.created_at m)
           > instant (Message.created_at p) + timedelta_minutes 4)
  end.

(** The same condition read on the message as the caller supplied it: it
    carries a reply-reference, it carries an interaction. *)
Definition starts_block_as_supplied (m : Message.t) (previous : option Message.t) : Prop :=
  match previous with
  | None => True
  | Some p =>
      (∃ r, Message.message_reference m = PyReference r)
      ∨ (∃ i, Message.interaction m = PyInteraction i)
      ∨ Message.type p ≠ DEFAULT
      ∨ User.id (Message.author p) ≠ User.id (Message.author m)
      ∨ Message.webhook_id m ≠ None
      ∨ instant (Message.created_at m)
        > instant (Message.created_at p) + timedelta_minutes 4
  end.

(** The message kinds that [construct_message] treats as channel audit
    events; every other kind goes through [build_message]. *)
Definition is_audit (t : MessageType) : bool :=
  match t with
  | CHANNEL_PINNED_MESSAGE | THREAD_CREATED | RECIPIENT_REMOVE | RECIPIENT_ADD => true
  | _ => false
  end.

Definition is_closing (c : Call) : bool :=
  match c with
  | CallFillOut html_generator.end_message => true
  | _ => false
  end.

Definition is_message_fetch (c : Call) : bool :=
  match c with
  | CallFetchMessage _ _ => true
  | _ => false
  end.

Definition is_reply_banner (c : Call) : bool :=
  match c with
  | CallFillOut html_generator.message_reference => true
  | _ => false
  end.

(** What no construction touches: every field of a message but [content],
    [message_reference] and [interaction]. *)
Definition same_identity (m m' : Message.t) : Prop :=
  Message.id m' = Message.id m
  ∧ Message.author m' = Message.author m
  ∧ Message.created_at m' = Message.created_at m
  ∧ Message.edited_timestamp m' = Message.edited_timestamp m
  ∧ Message.type m' = Message.type m
  ∧ Message.embeds m' = Message.embeds m
  ∧ Message.attachments m' = Message.attachments m
  ∧ Message.components m' = Message.components m
  ∧ Message.reactions m' = Message.reactions m
  ∧ Message.webhook_id m' = Message.webhook_id m
  ∧ Message._mention_ids m' = Message._mention_ids m
  ∧ Message.channel m' = Message.channel m.

(** The number of entries of [messages] that [author_id] wrote and that the
    builder renders through [build_message]. *)
Definition authored (h : loc → Message.t) (author_id : Z) (messages : list loc) : nat :=
  List.length (filter (λ l, is_audit (Message.type (h l)) = false
                       ∧ User.id (Message.author (h l)) = author_id) messages).

(** The number of entries that [author_id] wrote, whatever their kind. *)
Definition authored_any (h : loc → Message.t) (author_id : Z) (messages : list loc) : nat :=
  List.length (filter (λ l, User.id (Message.author (h l)) = author_id) messages).

(** The list the loop runs over: the input, its head replaced by the parent
    message when the head is a reply in a thread channel. *)
Definition anchored (E : Env) (h : loc → Message.t) (messages : list loc) : list loc :=
  match messages with
  | [] => []
  | first :: rest =>
      if contains "thread" (Channel_type_str (Message.channel (h first)))
         && truthy (Message.message_reference (h first))
      then
        match Message.message_reference (h first) with
        | PyReference ref =>
            match guild_fetch_channel E (channel_id ref) with
            | Ok channel =>
                match channel_fetch_message E channel (message_id ref) with
                | Ok parent => parent :: rest
                | Raise _ => messages
                end
            | Raise _ => messages
            end
        | _ => messages
        end
      else messages
  end.

(** ** A small world to run the builder in *)

Module Demo.

Definition template_name (t : Template) : string :=
  match t with
  | html_generator.message_body => "body"
  | html_generator.message_pin => "pin"
  | html_generator.message_thread => "thread"
  | html_generator.message_content => "content"
  | html_generator.message_reference => "reference"
  | html_generator.message_interaction => "interaction"
  | html_generator.start_message => "start"
  | html_generator.end_message => "end"
  | html_generator.message_thread_remove => "remove"
  | html_generator.message_thread_add => "add"
  end.

Definition show (v : PyValue) : string :=
  match v with
  | PyStr s => s
  | _ => "?"
  end.

(** A template engine that lists the values it is given. *)
Definition fill (t : Template) (subs : list Substitution) : string :=
  "[" +:+ template_name t
      +:+ foldr (λ x acc, "|" +:+ show x.1.2 +:+ acc) "" subs +:+ "]".

Definition utc (seconds : Z) : datetime :=
  mk_datetime (seconds * 1000000) (Some 0).

Definition naive (seconds : Z) : datetime :=
  mk_datetime (seconds * 1000000) None.

Definition member (i : Z) (name : string) (roles : list Role.t) : User.t :=
  User.mk i name name name false false "" (utc 0) true None roles.

Definition user (i : Z) (name : string) : User.t :=
  User.mk i name name name false false "" (utc 0) false None [].

Definition text_channel : Channel := mk_channel 10 "GUILD_TEXT".
Definition thread_channel : Channel :=
  mk_channel 11 (ChannelType_str false GUILD_PUBLIC_THREAD).

Definition world (members : Z → Result (option User.t))
    (messages : Channel → Z → Result loc) : Env :=
  {| guild_id := 1;
     guild_fetch_member := members;
     guild_fetch_channel := λ c, Ok (mk_channel c "GUILD_TEXT");
     channel_fetch_message := messages;
     html_fill_out := fill;
     message_reference_unknown := "[deleted]";
     bot_tag := "BOT";
     bot_tag_verified := "VERIFIED BOT";
     reference_attachment_icon := "attachment-icon";
     interaction_command_icon := "command-icon";
     pinned_message_icon := "pin-icon";
     thread_channel_icon := "thread-icon";
     thread_remove_recipient := "remove-icon";
     thread_add_recipient := "add-icon";
     Embed_flow := λ a, Ok (asset_payload a);
     Attachment_flow := λ a, Ok (asset_payload a);
     Component_flow := λ a, Ok (asset_payload a);
     Reaction_flow := λ a, Ok (asset_payload a);
     html_escape := λ s, s;
     timezone := λ n, if String.eqb n "UTC" then Some (λ _, 0) else None;
     strftime := λ _ t, "at " +:+ pretty (wall t / 1000000);
     system_utcoffset := 3600 * 1000000 |}.

(** Nobody is a member any more and no message can be fetched. *)
Definition quiet : Env := world (λ _, Ok None) (λ _ _, Raise NotFound).

Definition plain (i : Z) (who : User.t) (text : string) (seconds : Z) : Message.t :=
  Message.mk i who text (utc seconds) None DEFAULT PyNone PyNone
    (Some []) (Some []) (Some []) (Some []) None [] text_channel.

Definition reply (i : Z) (who : User.t) (text : string) (seconds to : Z) : Message.t :=
  Message.mk i who text (utc seconds) None DEFAULT
    (PyReference (mk_reference to 10)) PyNone (Some []) (Some []) (Some []) (Some []) None [] text_channel.

Definition notice (kind : MessageType) (i : Z) (who : User.t) (seconds : Z)
    (mentions : list Z) : Message.t :=
  Message.mk i who "" (utc seconds) None kind
    (PyReference (mk_reference 1 10)) PyNone (Some []) (Some []) (Some []) (Some []) None mentions text_channel.

Definition alice : User.t := user 100 "A".
Definition bob : User.t := user 200 "B".

Definition fresh (message : loc) (previous : option loc) : MessageConstruct :=
  {| message_html := ""; embeds := ""; reactions := ""; components := "";
     attachments := ""; time_format := "%A, %e %B %Y %H:%M";
     message := message; previous_message := previous;
     pytz_timezone := "UTC"; military_time := true; message_dict := ∅;
     message_created_at := "at 0"; message_edited_at := "";
     meta_data := ∅; audit := false |}.

(** The example of the specification: A at 0:00, A at 0:30, B at 1:00. *)
Definition chat (l : loc) : Message.t :=
  match l with
  | 0%nat => plain 1 alice "hi" 0
  | 1%nat => plain 2 alice "there" 30
  | _ => plain 3 bob "hey" 60
  end.

(** A message by A, then A's reply to a message that is not in the list. *)
Definition chat_reply (l : loc) : Message.t :=
  match l with
  | 0%nat => plain 1 alice "hi" 0
  | _ => reply 2 alice "there" 30 99
  end.

(** A message created at a naive 0:00:00 and edited at an aware 0:01:00. *)
Definition chat_edited (l : loc) : Message.t :=
  Message.mk 1 alice "hi" (naive 0) (Some (utc 60)) DEFAULT PyNone PyNone
    (Some []) (Some []) (Some []) (Some []) None [] text_channel.

(** A pin notice by A. *)
Definition chat_pin (l : loc) : Message.t :=
  notice CHANNEL_PINNED_MESSAGE 1 alice 0 [].

(** A member-removed notice by A about user 200. *)
Definition chat_remove (l : loc) : Message.t :=
  notice RECIPIENT_REMOVE 1 alice 0 [200].

(** A thread whose first message replies to its parent, held at location 2. *)
Definition chat_thread (l : loc) : Message.t :=
  match l with
  | 0%nat => Message.mk 5 alice "first" (utc 100) None DEFAULT
               (PyReference (mk_reference 4 10)) PyNone (Some []) (Some []) (Some []) (Some []) None []
               thread_channel
  | 1%nat => Message.mk 6 bob "second" (utc 130) None DEFAULT PyNone PyNone
               (Some []) (Some []) (Some []) (Some []) None [] thread_channel
  | _ => reply 4 bob "parent" 50 3
  end.

Definition threads : Env := world (λ _, Ok None) (λ _ _, Ok 2%nat).

(** The HTTP layer answers every message fetch with a server error. *)
Definition failing : Env := world (λ _, Ok None) (λ _ _, Raise (HTTPException 500)).

(** The connection drops during every message fetch. *)
Definition offline : Env :=
  world (λ _, Ok None) (λ _ _, Raise (OtherError "TimeoutError")).

Definition colours : list Role.t :=
  [ Role.mk 1 0 255 None;            (* the guild's default role *)
    Role.mk 7 2 16711680 None;
    Role.mk 8 2 65280 (Some (IconAsset "icon-8"));
    Role.mk 9 3 0 None ].

Definition coloured : Env :=
  world (λ i, Ok (Some (member i "A" colours))) (λ _ _, Raise NotFound).

(** A message whose components the library left unset. *)
Definition chat_bare (l : loc) : Message.t :=
  Message.mk 1 alice "hi" (utc 0) None DEFAULT PyNone PyNone
    (Some []) (Some []) None (Some []) None [] text_channel.

(** A pin notice by A that names no pinned message. *)
Definition chat_pin_bare (l : loc) : Message.t :=
  Message.set_message_reference PyNone (notice CHANNEL_PINNED_MESSAGE 1 alice 0 []).



(** A message by A and B's reply to it; both are in the list. *)
Definition chat_answer (l : loc) : Message.t :=
  match l with
  | 0%nat => plain 1 alice "" 0
  | _ => reply 2 bob "there" 30 1
  end.

(** Every message fetch answers with the object at location 0. *)
Definition found : Env := world (λ _, Ok None) (λ _ _, Ok 0%nat).

(** A message that a run of the builder has already rendered. *)
Definition chat_rendered (l : loc) : Message.t :=
  Message.set_message_reference (PyStr "[reference]") (plain 1 alice "hi" 0).

(** A thread-created notice by A. *)
Definition chat_thread_created (l : loc) : Message.t :=
  notice THREAD_CREATED 1 alice 0 [].

End Demo.

(** ** The vocabulary of the properties *)

(** A computation keeps a relation when the store it leaves is related to
    the store it started from, whether it returns or raises. *)
Definition keeps (R : State → State → Prop) {A} (c : M A) : Prop :=
  ∀ s, R s (c s).2.

(** Pure reads: the store is the one the computation started from. *)
Definition untouched (s s' : State) : Prop := s' = s.

(** The objects are the ones the computation started from. *)
Definition same_heap (s s' : State) : Prop := ∀ l, heap s' l = heap s l.

(** No object changed but in its rendered fields. *)
Definition frame (s s' : State) : Prop := ∀ l, same_identity (heap s l) (heap s' l).

(** The trace grew by calls that all satisfy [P]. *)
Definition appends (P : Call → bool) (s s' : State) : Prop :=
  ∃ d, calls s' = (calls s ++ d)%list ∧ forallb P d = true.

(** No object changed its reply-reference. *)
Definition same_references (s s' : State) : Prop :=
  ∀ l, Message.message_reference (heap s' l) = Message.message_reference (heap s l).

Definition holds_string (v : PyValue) : Prop := ∃ text, v = PyStr text.

(** [returns Q c]: whenever [c] returns, its result satisfies [Q]. *)
Definition returns {A} (Q : A → Prop) (c : M A) : Prop :=
  ∀ s a s', c s = (Ok a, s') → Q a.

(** [ensures Q c]: whenever [c] returns, the store it leaves satisfies [Q]. *)
Definition ensures {A} (Q : State → Prop) (c : M A) : Prop :=
  ∀ s a s', c s = (Ok a, s') → Q s'.

(** The attributes of a builder that only [__init__] and [build_meta_data]
    set. *)
Definition same_request (self self' : MessageConstruct) : Prop :=
  message self' = message self
  ∧ previous_message self' = previous_message self
  ∧ message_dict self' = message_dict self
  ∧ meta_data self' = meta_data self.

(** What [build_meta_data] does to the dict. *)
Definition enrolled (E : Env) (author : User.t) (meta : gmap Z Aggregate)
  : gmap Z Aggregate :=
  match meta !! User.id author with
  | Some a => <[User.id author := increment a]> meta
  | None => <[User.id author := first_aggregate E author]> meta
  end.

(** How a count shows in the dict: no entry for zero, the count otherwise. *)
Definition shown (n : nat) : option Z :=
  match n with
  | O => None
  | S _ => Some (Z.of_nat n)
  end.

Definition tally (meta : gmap Z Aggregate) (author_id : Z) : option Z :=
  message_count <$> meta !! author_id.

Definition not_message_fetch (c : Call) : bool := negb (is_message_fetch c).

Definition not_closing (c : Call) : bool := negb (is_closing c).

(** The calls that close the previous block: one when there is a previous
    message, none otherwise. *)
Definition closing_calls (self : MessageConstruct) : list Call :=
  match previous_message self with
  | Some _ => [CallFillOut html_generator.end_message]
  | None => []
  end.

Definition any_call (c : Call) : bool := true.

(** The markup that closes the previous block: the closing fragment when
    there is a previous message, nothing otherwise. *)
Definition closing_markup (E : Env) (self : MessageConstruct) : string :=
  match previous_message self with
  | Some _ => html_fill_out E html_generator.end_message []
  | None => ""
  end.

(** What resolving a reply shows in the trace: the fetch of the referenced
    message, or its banner. *)
Definition resolves_reply (c : Call) : bool :=
  is_reply_banner c || is_message_fetch c.

(** [a] ranks at or below [b]: lower in the hierarchy, or of the same rank
    with an id that is not larger. *)
Definition below (a b : Role.t) : Prop :=
  Role.position a < Role.position b
  ∨ (Role.position a = Role.position b ∧ Role.id a ≤ Role.id b).

(** The roles that count for a member: all but the guild's default role. *)
Definition eligible (E : Env) (member : User.t) (r : Role.t) : Prop :=
  In r (User.roles member) ∧ Role.id r ≠ guild_id E.

(** [top] is the highest of the member's eligible roles that have a colour. *)
Definition top_coloured (E : Env) (member : User.t) (top : Role.t) : Prop :=
  eligible E member top
  ∧ Role.color top ≠ 0
  ∧ ∀ r, eligible E member r → Role.color r ≠ 0 → below r top.

(** Every element ranks at or below all the elements after it. *)
Fixpoint ascending (l : list Role.t) : Prop :=
  match l with
  | [] => True
  | x :: l' => (∀ y, In y l' → below x y) ∧ ascending l'
  end.

(** ** The vocabulary of the further properties *)

(** The address and the markup of a role icon, as [_gather_user_icon] writes
    them. *)
Definition role_icon_url (i : RoleIcon) : string :=
  match i with
  | IconAsset url => url
  | IconPartialEmoji i => "https://cdn.discordapp.com/emojis/" +:+ pretty i +:+ ".png"
  end.

Definition role_icon_tag (i : RoleIcon) : string :=
  "<img class='chatlog__role-icon' src='" +:+ role_icon_url i +:+ "' alt='Role Icon'>".

(** [top] is the highest of the member's eligible roles that carry an icon,
    and [i] is its icon. *)
Definition top_iconed (E : Env) (member : User.t) (top : Role.t) (i : RoleIcon) : Prop :=
  eligible E member top
  ∧ Role.icon top = Some i
  ∧ ∀ r, eligible E member r → Role.icon r ≠ None → below r top.


(** The edit timestamp cannot be converted the way the creation timestamp
    is: the message was created naive and edited aware. *)
Definition mixed_zones (m : Message.t) : Prop :=
  tzinfo (Message.created_at m) = None
  ∧ ∃ t, Message.edited_timestamp m = Some t ∧ tzinfo t ≠ None.

(** The container [build_assets] puts around the reactions. *)
Definition reactions_container (inner : string) : string :=
  "<div class=" +:+ dquote +:+ "chatlog__reactions" +:+ dquote +:+ ">"
  +:+ inner +:+ "</div>".

(** The fragments of a list attribute: what the renderer returns for each of
    its items, in order. There are none when the attribute is [None] or the
    renderer raises for an item. *)
Fixpoint fragments_of (flow : Asset → Result string) (l : list Asset)
  : option (list string) :=
  match l with
  | [] => Some []
  | a :: l' =>
      match flow a, fragments_of flow l' with
      | Ok t, Some ts => Some (t :: ts)
      | _, _ => None
      end
  end.

Definition fragments (flow : Asset → Result string) (v : option (list Asset))
  : option (list string) :=
  v ≫= fragments_of flow.

(** The content a message is left with once a reply to it has been
    rendered: a placeholder when it had none. *)
Definition placeholder (m : Message.t) : string :=
  if String.eqb (Message.content m) "" then
    if truthy (Message.interaction m) then "Click to see command"
    else "Click to see attachment"
  else Message.content m.

(** The message a reply-reference resolves to: the one [message_dict] holds
    at the referenced id, or else the one the channel returns. *)
Definition reference_target (E : Env) (self : MessageConstruct) (m : Message.t)
    (r : MessageReference) : option loc :=
  match message_dict self !! message_id r with
  | Some l => Some l
  | None =>
      match channel_fetch_message E (Message.channel m) (message_id r) with
      | Ok l => Some l
      | Raise _ => None
      end
  end.

(** A field holds markup that a construction left there. *)
Definition holds_markup (v : PyValue) : Prop := ∃ text, v = PyStr text ∧ text ≠ "".

Definition is_channel_fetch (c : Call) : bool :=
  match c with
  | CallFetchChannel _ => true
  | _ => false
  end.

Definition not_channel_fetch (c : Call) : bool := negb (is_channel_fetch c).

(** The test [gather_messages] makes on the first message: it lies in a
    thread and carries a reply-reference. *)
Definition thread_reply (m : Message.t) : bool :=
  contains "thread" (Channel_type_str (Message.channel m))
  && truthy (Message.message_reference m).

(** The reply-reference of [m], if it is one, names a message that [dict]
    holds. *)
Definition resolves_locally (dict : gmap Z loc) (m : Message.t) : Prop :=
  match Message.message_reference m with
  | PyReference r => is_Some (dict !! message_id r)
  | _ => True
  end.

(** No message lost this property. *)
Definition local_replies (dict : gmap Z loc) (s s' : State) : Prop :=
  ∀ l, resolves_locally dict (heap s l) → resolves_locally dict (heap s' l).

(** How many calls of a trace satisfy [P]. *)
Definition count_calls (P : Call → bool) (d : list Call) : nat :=
  List.length (List.filter P d).

Definition is_opening (c : Call) : bool :=
  match c with
  | CallFillOut html_generator.start_message => true
  | _ => false
  end.

Definition is_body (c : Call) : bool :=
  match c with
  | CallFillOut html_generator.message_body => true
  | _ => false
  end.

(** The two templates that carry the content of an ordinary message: the
    head of a block and the continuation of one. *)
Definition is_rendering (c : Call) : bool := is_opening c || is_body c.

(** A call that fills none of the three block templates. *)
Definition no_block_call (c : Call) : bool :=
  negb (is_opening c) && negb (is_body c) && negb (is_closing c).

(** The message at [l] is rendered through [build_message]. *)
Definition ordinary (h : loc → Message.t) (l : loc) : bool :=
  negb (is_audit (Message.type (h l))).

Definition ordinary_count (h : loc → Message.t) (messages : list loc) : nat :=
  List.length (List.filter (ordinary h) messages).

(** The calls that open a block for the author [author_id]. *)
Definition header_calls (author_id : Z) : list Call :=
  [ CallFetchMember author_id; CallFetchMember author_id;
    CallFillOut html_generator.start_message ].

(** An aggregate with its message count set to [n]. *)
Definition counted (n : Z) (a : Aggregate) : Aggregate :=
  mk_aggregate (user_name_discriminator a) (user_created_at a) (user_bot a)
    (user_avatar a) n (user_joined_at a) (user_display_name a).

(** The first entry of [messages] that [author_id] wrote and that is
    rendered as an ordinary message. *)
Definition first_ordinary (h : loc → Message.t) (author_id : Z) (messages : list loc)
  : option loc :=
  List.find (λ l, ordinary h l && (User.id (Message.author (h l)) =? author_id))
    messages.

(** What one construction does to the dict, and what a run of
    constructions does to it. *)
Definition enrol (E : Env) (h : loc → Message.t) (meta : gmap Z Aggregate) (l : loc)
  : gmap Z Aggregate :=
  if is_audit (Message.type (h l)) then meta
  else enrolled E (Message.author (h l)) meta.

Definition roster (E : Env) (h : loc → Message.t) (meta : gmap Z Aggregate)
    (messages : list loc) : gmap Z Aggregate :=
  foldl (enrol E h) meta messages.

(** The template of a notice that needs nothing but its author: a
    thread-created notice, or a pin notice that names the pinned message. *)
Definition author_notice (m : Message.t) : option Template :=
  match Message.type m, Message.message_reference m with
  | THREAD_CREATED, _ => Some html_generator.message_thread
  | CHANNEL_PINNED_MESSAGE, PyReference _ => Some html_generator.message_pin
  | _, _ => None
  end.

(** * Properties *)

(** ** Reasoning about the monad *)

Lemma bind_Ok {A B} (c : M A) (k : A → M B) s b s' :
  bind c k s = (Ok b, s') → ∃ a s1, c s = (Ok a, s1) ∧ k a s1 = (Ok b, s').
Proof.
  unfold bind. destruct (c s) as [[a|e] s1]; [eauto | discriminate].
Qed.

Lemma bind_Ok_eq {A B} (c : M A) (k : A → M B) s a s1 :
  c s = (Ok a, s1) → bind c k s = k a s1.
Proof. unfold bind. intros ->. reflexivity. Qed.

Section keeps.
Context (R : State → State → Prop) `{!PreOrder R}.

Lemma keeps_ret {A} (a : A) : keeps R (ret a).
Proof. intros s. reflexivity. Qed.

Lemma keeps_raise {A} e : keeps R (@raise A e).
Proof. intros s. reflexivity. Qed.

Lemma keeps_lift {A} (r : Result A) : keeps R (lift r).
Proof. intros s. reflexivity. Qed.

Lemma keeps_load l : keeps R (load l).
Proof. intros s. reflexivity. Qed.

Lemma keeps_bind {A B} (c : M A) (k : A → M B) :
  keeps R c → (∀ a, keeps R (k a)) → keeps R (bind c k).
Proof.
  intros Hc Hk s. unfold bind. specialize (Hc s).
  destruct (c s) as [[a|e] s1]; simpl in *; [| exact Hc].
  etransitivity; [exact Hc | apply Hk].
Qed.

Lemma keeps_try {A} (c : M A) (h : Exn → M A) :
  keeps R c → (∀ e, keeps R (h e)) → keeps R (try_except_HTTPException c h).
Proof.
  intros Hc Hh s. unfold try_except_HTTPException. specialize (Hc s).
  destruct (c s) as [[a|e] s1]; simpl in *; [exact Hc |].
  destruct (isinstance_HTTPException e); [| exact Hc].
  etransitivity; [exact Hc | apply Hh].
Qed.

End keeps.

Create HintDb keeps discriminated.

Ltac keeps_step :=
  lazymatch goal with
  | |- keeps _ (bind _ _) => refine (keeps_bind _ _ _ _ _); [| intros ?]
  | |- keeps _ (ret _) => refine (keeps_ret _ _)
  | |- keeps _ (raise _) => refine (keeps_raise _ _)
  | |- keeps _ (lift _) => refine (keeps_lift _ _)
  | |- keeps _ (load _) => refine (keeps_load _ _)
  | |- keeps _ (try_except_HTTPException _ _) =>
      refine (keeps_try _ _ _ _ _); [| intros ?]
  | |- keeps _ (match ?x with _ => _ end) => destruct x
  | |- keeps _ _ => solve [eauto with keeps]
  end.

Ltac keeps_auto := cbv beta iota zeta; repeat (keeps_step; cbv beta iota zeta).

(** *** The relations are preorders *)

Global Instance untouched_preorder : PreOrder untouched.
Proof.
  split; [intros s; reflexivity |].
  intros a b c Hab Hbc. unfold untouched in *. congruence.
Qed.

Global Instance same_heap_preorder : PreOrder same_heap.
Proof.
  split; [intros s l; reflexivity |].
  intros a b c Hab Hbc l. rewrite Hbc. apply Hab.
Qed.

Lemma same_identity_refl m : same_identity m m.
Proof. repeat split. Qed.

Lemma same_identity_trans a b c :
  same_identity a b → same_identity b c → same_identity a c.
Proof.
  unfold same_identity. intros Hab Hbc.
  repeat match goal with H : _ ∧ _ |- _ => destruct H end.
  repeat split; congruence.
Qed.

Global Instance frame_preorder : PreOrder frame.
Proof.
  split; [intros s l; apply same_identity_refl |].
  intros a b c Hab Hbc l. eapply same_identity_trans; [apply Hab | apply Hbc].
Qed.

Global Instance appends_preorder P : PreOrder (appends P).
Proof.
  split.
  - intros s. exists []. rewrite app_nil_r. auto.
  - intros a b c [d1 [H1 F1]] [d2 [H2 F2]]. exists (d1 ++ d2)%list.
    rewrite H2, H1, <- app_assoc, forallb_app, F1, F2. auto.
Qed.

Lemma same_heap_frame s s' : same_heap s s' → frame s s'.
Proof. intros H l. rewrite H. apply same_identity_refl. Qed.

(** *** The primitive effects *)

Lemma keeps_weaken (R R' : State → State → Prop) {A} (c : M A) :
  (∀ s s', R s s' → R' s s') → keeps R c → keeps R' c.
Proof. intros H Hc s. apply H, Hc. Qed.

Lemma keeps_record_same_heap c : keeps same_heap (record c).
Proof. intros s l. reflexivity. Qed.

Lemma keeps_record_appends P c : P c = true → keeps (appends P) (record c).
Proof. intros H s. exists [c]. simpl. rewrite H. auto. Qed.

Lemma keeps_store_appends P l f : keeps (appends P) (store l f).
Proof. intros s. exists []. simpl. rewrite app_nil_r. auto. Qed.

Lemma keeps_store_frame l f :
  (∀ m, same_identity m (f m)) → keeps frame (store l f).
Proof.
  intros H s l'. simpl. destruct (decide (l' = l)) as [->|]; [apply H |].
  apply same_identity_refl.
Qed.

Lemma set_content_identity v m : same_identity m (Message.set_content v m).
Proof. repeat split. Qed.

Lemma set_message_reference_identity v m :
  same_identity m (Message.set_message_reference v m).
Proof. repeat split. Qed.

Lemma set_interaction_identity v m : same_identity m (Message.set_interaction v m).
Proof. repeat split. Qed.

Global Hint Resolve keeps_record_same_heap keeps_record_appends keeps_store_appends
  keeps_store_frame set_content_identity set_message_reference_identity
  set_interaction_identity : keeps.

Lemma assign_message_reference_frame l v : keeps frame (assign_message_reference l v).
Proof. unfold assign_message_reference. keeps_auto. Qed.

Lemma assign_message_reference_appends P l v :
  keeps (appends P) (assign_message_reference l v).
Proof. unfold assign_message_reference. keeps_auto. Qed.

Global Hint Resolve assign_message_reference_frame assign_message_reference_appends
  : keeps.

(** *** Reads *)

Section reads.
Context (E : Env).

Lemma lookup_timezone_untouched n : keeps untouched (lookup_timezone E n).
Proof. unfold lookup_timezone. keeps_auto. Qed.

Lemma getattr_reference_untouched v : keeps untouched (getattr_reference v).
Proof. unfold getattr_reference. keeps_auto. Qed.

Lemma getattr_interaction_untouched v : keeps untouched (getattr_interaction v).
Proof. unfold getattr_interaction. keeps_auto. Qed.

Hint Resolve lookup_timezone_untouched getattr_reference_untouched
  getattr_interaction_untouched : keeps.

Lemma to_local_time_str_untouched self time :
  keeps untouched (to_local_time_str E self time).
Proof. unfold to_local_time_str. keeps_auto. Qed.

Hint Resolve to_local_time_str_untouched : keeps.

Lemma set_time_untouched self message' : keeps untouched (set_time E self message').
Proof. unfold set_time. keeps_auto. Qed.

Hint Resolve set_time_untouched : keeps.

Lemma MessageConstruct_init_untouched message previous tz mil meta dict :
  keeps untouched (MessageConstruct_init E message previous tz mil meta dict).
Proof. unfold MessageConstruct_init. keeps_auto. Qed.

Lemma _generate_message_divider_check_untouched self :
  keeps untouched (_generate_message_divider_check self).
Proof. unfold _generate_message_divider_check. keeps_auto. Qed.

Lemma build_meta_data_untouched self : keeps untouched (build_meta_data E self).
Proof. unfold build_meta_data. keeps_auto. Qed.

Lemma iterate_untouched {A} (v : option (list A)) : keeps untouched (iterate v).
Proof. unfold iterate. keeps_auto. Qed.

Lemma flow_all_untouched flow l : ∀ acc, keeps untouched (flow_all flow acc l).
Proof. induction l as [|a l IH]; intros acc; simpl; keeps_auto. Qed.

Hint Resolve iterate_untouched flow_all_untouched : keeps.

Lemma build_assets_untouched self : keeps untouched (build_assets E self).
Proof. unfold build_assets. keeps_auto. Qed.

Lemma index_messages_untouched messages : keeps untouched (index_messages messages).
Proof. intros s. reflexivity. Qed.

End reads.

Global Hint Resolve lookup_timezone_untouched getattr_reference_untouched
  getattr_interaction_untouched to_local_time_str_untouched set_time_untouched
  MessageConstruct_init_untouched _generate_message_divider_check_untouched
  build_meta_data_untouched build_assets_untouched index_messages_untouched : keeps.

(** Whatever only reads also keeps the coarser relations. *)
Lemma untouched_keeps R `{!PreOrder R} {A} (c : M A) : keeps untouched c → keeps R c.
Proof. intros H s. rewrite (H s). reflexivity. Qed.

Global Hint Extern 4 (keeps same_heap _) =>
  refine (untouched_keeps same_heap _ _) : keeps.
Global Hint Extern 4 (keeps frame _) =>
  refine (untouched_keeps frame _ _) : keeps.
Global Hint Extern 4 (keeps (appends _) _) =>
  refine (untouched_keeps (appends _) _ _) : keeps.

(** *** The calls a method may make *)

Section calls.
Context (E : Env) (P : Call → bool).
Hypothesis member_calls : ∀ u, P (CallFetchMember u) = true.

Lemma fill_out_appends t subs :
  P (CallFillOut t) = true → keeps (appends P) (fill_out E t subs).
Proof. intros H. unfold fill_out. keeps_auto. Qed.

Lemma fetch_member_appends u : keeps (appends P) (fetch_member E u).
Proof. unfold fetch_member. keeps_auto. Qed.

Hint Resolve fill_out_appends fetch_member_appends : keeps.

Lemma _gather_user_colour_appends a : keeps (appends P) (_gather_user_colour E a).
Proof. unfold _gather_user_colour, _gather_member. keeps_auto. Qed.

Lemma _gather_user_icon_appends a : keeps (appends P) (_gather_user_icon E a).
Proof. unfold _gather_user_icon, _gather_member. keeps_auto. Qed.

Hint Resolve _gather_user_colour_appends _gather_user_icon_appends : keeps.

Lemma build_content_appends self :
  P (CallFillOut html_generator.message_content) = true →
  keeps (appends P) (build_content E self).
Proof. intros H. unfold build_content. keeps_auto. Qed.

Lemma build_interaction_appends self :
  P (CallFillOut html_generator.message_interaction) = true →
  keeps (appends P) (build_interaction E self).
Proof. intros H. unfold build_interaction. keeps_auto. Qed.

Lemma generate_message_divider_appends self channel_audit :
  P (CallFillOut html_generator.end_message) = true →
  P (CallFillOut html_generator.start_message) = true →
  keeps (appends P) (generate_message_divider E self channel_audit).
Proof. intros H1 H2. unfold generate_message_divider, divider_header. keeps_auto. Qed.

Hint Resolve generate_message_divider_appends : keeps.

Lemma build_message_template_appends self :
  P (CallFillOut html_generator.end_message) = true →
  P (CallFillOut html_generator.start_message) = true →
  P (CallFillOut html_generator.message_body) = true →
  keeps (appends P) (build_message_template E self).
Proof. intros H1 H2 H3. unfold build_message_template. keeps_auto. Qed.

Lemma build_pin_template_appends self :
  P (CallFillOut html_generator.message_pin) = true →
  keeps (appends P) (build_pin_template E self).
Proof. intros H. unfold build_pin_template. keeps_auto. Qed.

Lemma build_thread_template_appends self :
  P (CallFillOut html_generator.message_thread) = true →
  keeps (appends P) (build_thread_template E self).
Proof. intros H. unfold build_thread_template. keeps_auto. Qed.

Lemma build_recipient_appends t url self :
  P (CallFillOut t) = true → keeps (appends P) (build_recipient E t url self).
Proof. intros H. unfold build_recipient. keeps_auto. Qed.

Lemma render_reference_appends self message' :
  P (CallFillOut html_generator.message_reference) = true →
  keeps (appends P) (render_reference E self message').
Proof. intros H. unfold render_reference. keeps_auto. Qed.

Lemma build_meta_data_appends self : keeps (appends P) (build_meta_data E self).
Proof. keeps_auto. Qed.

Lemma build_assets_appends self : keeps (appends P) (build_assets E self).
Proof. keeps_auto. Qed.

End calls.

(** *** What the methods leave of the objects *)

Section objects.
Context (E : Env).

Lemma fill_out_same_heap t subs : keeps same_heap (fill_out E t subs).
Proof. unfold fill_out. keeps_auto. Qed.

Lemma fetch_member_same_heap u : keeps same_heap (fetch_member E u).
Proof. unfold fetch_member. keeps_auto. Qed.

Lemma fetch_channel_same_heap c : keeps same_heap (fetch_channel E c).
Proof. unfold fetch_channel. keeps_auto. Qed.

Lemma fetch_message_same_heap c i : keeps same_heap (fetch_message E c i).
Proof. unfold fetch_message. keeps_auto. Qed.

Hint Resolve fill_out_same_heap fetch_member_same_heap fetch_channel_same_heap
  fetch_message_same_heap : keeps.

Lemma _gather_user_colour_same_heap a : keeps same_heap (_gather_user_colour E a).
Proof. unfold _gather_user_colour, _gather_member. keeps_auto. Qed.

Lemma _gather_user_icon_same_heap a : keeps same_heap (_gather_user_icon E a).
Proof. unfold _gather_user_icon, _gather_member. keeps_auto. Qed.

Hint Resolve _gather_user_colour_same_heap _gather_user_icon_same_heap : keeps.

Lemma generate_message_divider_same_heap self channel_audit :
  keeps same_heap (generate_message_divider E self channel_audit).
Proof. unfold generate_message_divider, divider_header. keeps_auto. Qed.

Hint Resolve generate_message_divider_same_heap : keeps.

Lemma build_message_template_same_heap self :
  keeps same_heap (build_message_template E self).
Proof. unfold build_message_template. keeps_auto. Qed.

Lemma build_pin_same_heap self : keeps same_heap (build_pin E self).
Proof. unfold build_pin, build_pin_template. keeps_auto. Qed.

Lemma build_thread_same_heap self : keeps same_heap (build_thread E self).
Proof. unfold build_thread, build_thread_template. keeps_auto. Qed.

Lemma build_recipient_same_heap t url self :
  keeps same_heap (build_recipient E t url self).
Proof. unfold build_recipient. keeps_auto. Qed.

Hint Resolve build_recipient_same_heap : keeps.

Lemma build_thread_remove_same_heap self : keeps same_heap (build_thread_remove E self).
Proof. unfold build_thread_remove, build_remove. keeps_auto. Qed.

Lemma build_thread_add_same_heap self : keeps same_heap (build_thread_add E self).
Proof. unfold build_thread_add, build_add. keeps_auto. Qed.

Hint Extern 5 (keeps frame _) =>
  refine (keeps_weaken same_heap frame _ same_heap_frame _) : keeps.

Hint Resolve build_message_template_same_heap build_pin_same_heap
  build_thread_same_heap build_thread_remove_same_heap build_thread_add_same_heap
  : keeps.

Lemma build_content_frame self : keeps frame (build_content E self).
Proof. unfold build_content. keeps_auto. Qed.

Lemma build_reference_frame self : keeps frame (build_reference E self).
Proof.
  unfold build_reference, reference_not_fetched, render_reference. keeps_auto.
Qed.

Lemma build_interaction_frame self : keeps frame (build_interaction E self).
Proof. unfold build_interaction. keeps_auto. Qed.

Hint Resolve build_content_frame build_reference_frame build_interaction_frame
  : keeps.

Lemma build_message_frame self : keeps frame (build_message E self).
Proof. unfold build_message. keeps_auto. Qed.

Hint Resolve build_message_frame : keeps.

Lemma construct_message_frame self : keeps frame (construct_message E self).
Proof. unfold construct_message. keeps_auto. Qed.

Lemma anchor_thread_frame messages : keeps frame (anchor_thread E messages).
Proof. unfold anchor_thread. keeps_auto. Qed.

Hint Resolve construct_message_frame anchor_thread_frame : keeps.

Lemma gather_loop_frame tz mil dict messages previous html meta :
  keeps frame (gather_loop E tz mil dict messages previous html meta).
Proof.
  revert previous html meta.
  induction messages as [|message rest IH]; intros previous html meta; simpl.
  - keeps_auto.
  - keeps_auto.
Qed.

Hint Resolve gather_loop_frame : keeps.

Lemma gather_messages_frame messages tz mil :
  keeps frame (gather_messages E messages tz mil).
Proof. unfold gather_messages. keeps_auto. Qed.

End objects.

(** ** The block-start predicate *)

Lemma datetime_gt_spec a b delta :
  match datetime_gt a (datetime_add b delta) with
  | Ok r => comparable a b ∧ (r = true ↔ instant a > instant b + delta)
  | Raise e => e = TypeError ∧ ¬ comparable a b
  end.
Proof.
  unfold datetime_gt, datetime_add, comparable, instant. simpl.
  destruct (tzinfo a) as [oa|], (tzinfo b) as [ob|]; simpl.
  - split; [split; intros; discriminate |]. rewrite Z.ltb_lt. lia.
  - split; [reflexivity |]. intros [_ H]. specialize (H eq_refl). discriminate.
  - split; [reflexivity |]. intros [H _]. specialize (H eq_refl). discriminate.
  - split; [split; reflexivity |]. rewrite Z.ltb_lt. lia.
Qed.

(** C1 (as amended). [_generate_message_divider_check] only reads, and it
    answers [True] exactly when there is no previous message, or the
    message's reply-reference field is not the empty string at that moment
    (reference resolution has already replaced it by markup, and by the empty
    string when there was nothing to show), or the previous message's type is
    not [DEFAULT], or the interaction field is not the empty string, or the
    two authors' ids differ, or the message has a webhook id, or the two
    creation times can be ordered and the message's is more than four minutes
    after the previous one's. It answers [False] exactly when none of these
    holds and the two creation times can be ordered. *)
Theorem message_divider_check_decides (self : MessageConstruct) (s : State) :
  let m := heap s (message self) in
  let previous := heap s <$> previous_message self in
  let r := _generate_message_divider_check self s in
  r.2 = s
  ∧ (r.1 = Ok true ↔ starts_block m previous)
  ∧ (r.1 = Ok false ↔
       ¬ starts_block m previous
       ∧ ∀ p, previous = Some p →
              comparable (Message.created_at m) (Message.created_at p)).
Proof.
  cbv zeta. split; [apply (_generate_message_divider_check_untouched self s) |].
  unfold _generate_message_divider_check, bind, load, ret, lift, starts_block.
  destruct (previous_message self) as [p|]; simpl.
  2: { split; [tauto |]. split; [discriminate | tauto]. }
  destruct (ne_empty_str (Message.message_reference (heap s (message self)))) eqn:Href.
  { simpl. split; [tauto |]. split; [discriminate | tauto]. }
  case_bool_decide as Htype.
  { simpl. split; [tauto |]. split; [discriminate | tauto]. }
  destruct (ne_empty_str (Message.interaction (heap s (message self)))) eqn:Hint.
  { simpl. split; [tauto |]. split; [discriminate | tauto]. }
  case_bool_decide as Hauthor.
  { simpl. split; [tauto |]. split; [discriminate | tauto]. }
  case_bool_decide as Hhook.
  { simpl. split; [tauto |]. split; [discriminate | tauto]. }
  simpl.
  pose proof (datetime_gt_spec (Message.created_at (heap s (message self)))
                (Message.created_at (heap s p)) (timedelta_minutes 4)) as Hgt.
  destruct (datetime_gt _ _) as [r|e].
  - destruct Hgt as [Hcmp Hr]. split.
    + split.
      * intros [= ->]. right; right; right; right; right. tauto.
      * intros [H|[H|[H|[H|[H|[_ H]]]]]]; try congruence; try tauto.
        apply Hr in H. congruence.
    + split.
      * intros [= ->]. split.
        -- intros [H|[H|[H|[H|[H|[_ H]]]]]]; try congruence; try tauto.
           apply Hr in H. discriminate.
        -- intros p' [= <-]. exact Hcmp.
      * intros [Hno _]. destruct r; [| reflexivity].
        exfalso. apply Hno. right; right; right; right; right. tauto.
  - destruct Hgt as [-> Hcmp]. split.
    + split; [discriminate |].
      intros [H|[H|[H|[H|[H|[H _]]]]]]; try congruence; tauto.
    + split; [discriminate |]. intros [_ H]. exfalso. apply Hcmp, H. reflexivity.
Qed.

(** C1 (as stated) fails. A is followed, thirty seconds later, by a reply of
    A's to a message outside the list, and the fetch of that message ends in
    an HTTP 500: the reply carries a reply-reference, yet it is rendered as a
    continuation of A's block. Its construction fills one [message_body] and
    no [start_message], and the whole transcript opens a single block and
    closes none before its end. *)
Lemma reply_after_failed_fetch_continues_block :
  starts_block_as_supplied (Demo.chat_reply 1%nat) (Some (Demo.chat_reply 0%nat))
  ∧ (∃ r, Message.message_reference (Demo.chat_reply 1%nat) = PyReference r)
  ∧ calls (construct_message Demo.failing (Demo.fresh 1%nat (Some 0%nat))
             (mk_state Demo.chat_reply [])).2
    = [ CallFillOut html_generator.message_content;
        CallFetchMessage 10 99;
        CallFillOut html_generator.message_body ]
  ∧ calls (gather_messages Demo.failing [0%nat; 1%nat] "UTC" true
             (mk_state Demo.chat_reply [])).2
    = [ CallFillOut html_generator.message_content;
        CallFetchMember 100;
        CallFetchMember 100;
        CallFillOut html_generator.start_message;
        CallFillOut html_generator.message_content;
        CallFetchMessage 10 99;
        CallFillOut html_generator.message_body ].
Proof.
  split; [left; eexists; reflexivity |].
  split; [eexists; reflexivity |].
  split; vm_compute; reflexivity.
Qed.

(** ** Reply references *)

Lemma keeps_at (R : State → State → Prop) `{!PreOrder R} {A} (c : M A) s s1 :
  R s s1 → keeps R c → R s (c s1).2.
Proof. intros H Hc. etransitivity; [exact H | apply Hc]. Qed.

(** C3. The code departs from the claim on the not-found path. When the
    message carries a reply-reference whose message id is not a key of
    [message_dict], [build_reference] fetches that id from the message's
    channel exactly once. If the fetch raises [NotFound], the handler clears
    the reference field through [object.__setattr__] and then assigns the
    deleted-message banner by an ordinary assignment, which the field's
    converter refuses: [build_reference] raises [AttributeError], the field
    holds the empty string and the banner is never stored. If the fetch
    raises another [HTTPException], the field becomes the empty string and
    the method returns; an exception that is not an [HTTPException] leaves
    [build_reference] as it came. *)
Theorem reference_fetch_outcomes (E : Env) (self : MessageConstruct) (s : State)
    (r : MessageReference) :
  Message.message_reference (heap s (message self)) = PyReference r →
  message_dict self !! message_id r = None →
  let m := heap s (message self) in
  let out := build_reference E self s in
  (∃ d, calls out.2
        = (calls s ++ CallFetchMessage (Channel_id (Message.channel m)) (message_id r)
             :: d)%list
        ∧ forallb not_message_fetch d = true)
  ∧ match channel_fetch_message E (Message.channel m) (message_id r) with
    | Ok _ => True
    | Raise e =>
        if isinstance_NotFound e then
          out.1 = Raise AttributeError
          ∧ Message.message_reference (heap out.2 (message self)) = PyStr ""
        else if isinstance_HTTPException e then
          out.1 = Ok tt
          ∧ Message.message_reference (heap out.2 (message self)) = PyStr ""
        else out.1 = Raise e
    end.
Proof.
  intros Href Hdict. cbv zeta.
  set (s1 := {| heap := heap s;
                calls := calls s ++ [CallFetchMessage
                  (Channel_id (Message.channel (heap s (message self))))
                  (message_id r)] |}).
  assert (build_reference E self s
          = match channel_fetch_message E (Message.channel (heap s (message self)))
                    (message_id r) with
            | Ok l => render_reference E self l s1
            | Raise e =>
                if isinstance_HTTPException e
                then (if isinstance_NotFound e then Raise AttributeError else Ok tt,
                      (store (message self)
                         (Message.set_message_reference (PyStr "")) s1).2)
                else (Raise e, s1)
            end) as ->.
  { unfold build_reference, bind, load. rewrite Href. simpl. rewrite Hdict.
    unfold try_except_HTTPException, fetch_message, bind, record, lift. simpl.
    fold s1. destruct (channel_fetch_message E _ _) as [l|e]; simpl.
    - destruct (render_reference E self l s1) as [[[]|e] s2]; reflexivity.
    - destruct (isinstance_HTTPException e); [| reflexivity].
      unfold reference_not_fetched, assign_message_reference, bind, store, ret, raise.
      destruct (isinstance_NotFound e); reflexivity. }
  destruct (channel_fetch_message E _ _) as [l|e]; simpl.
  - split; [| exact I].
    destruct (keeps_at (appends not_message_fetch) (render_reference E self l) s1 s1)
      as [d [Hd Hf]].
    + reflexivity.
    + apply render_reference_appends; [intros u |]; reflexivity.
    + exists d. rewrite Hd. unfold s1. simpl. rewrite <- app_assoc. auto.
  - destruct e; simpl;
      (split; [exists []; split; reflexivity |]);
      try reflexivity;
      (split; [reflexivity |]);
      (destruct (decide _); [reflexivity | congruence]).
Qed.

(** The theorem at work: the reply of the example, every fetch answered by
    [NotFound]. *)
Lemma reference_fetch_outcomes_deleted :
  let self := Demo.fresh 1%nat (Some 0%nat) in
  let s := mk_state Demo.chat_reply [] in
  let out := build_reference Demo.quiet self s in
  (∃ d, calls out.2 = (CallFetchMessage 10 99 :: d)%list
        ∧ forallb not_message_fetch d = true)
  ∧ out.1 = Raise AttributeError
  ∧ Message.message_reference (heap out.2 1%nat) = PyStr "".
Proof.
  exact (reference_fetch_outcomes Demo.quiet (Demo.fresh 1%nat (Some 0%nat))
           (mk_state Demo.chat_reply []) (mk_reference 99 10) eq_refl eq_refl).
Defined.

(** A transcript that holds a reply to a deleted message is not produced:
    the error leaves [gather_messages]. *)
Lemma reference_to_deleted_message_aborts :
  (gather_messages Demo.quiet [0%nat; 1%nat] "UTC" true
     (mk_state Demo.chat_reply [])).1 = Raise AttributeError.
Proof. vm_compute. reflexivity. Qed.

(** A fetch that ends in an exception outside the [HTTPException] hierarchy
    (here a timeout of the connection) is not caught either;
    [build_reference] raises it, and so does [gather_messages]. *)
Lemma reference_fetch_timeout_aborts :
  (build_reference Demo.offline (Demo.fresh 1%nat (Some 0%nat))
     (mk_state Demo.chat_reply [])).1 = Raise (OtherError "TimeoutError")
  ∧ (gather_messages Demo.offline [0%nat; 1%nat] "UTC" true
       (mk_state Demo.chat_reply [])).1 = Raise (OtherError "TimeoutError").
Proof. split; vm_compute; reflexivity. Qed.

Global Hint Extern 3 (_ = true) => reflexivity : keeps.

Global Hint Resolve fill_out_appends fetch_member_appends
  _gather_user_colour_appends _gather_user_icon_appends build_content_appends
  build_interaction_appends generate_message_divider_appends
  build_message_template_appends build_pin_template_appends
  build_thread_template_appends build_recipient_appends render_reference_appends
  build_meta_data_appends build_assets_appends : keeps.

Lemma fetch_message_appends (E : Env) (P : Call → bool) channel i :
  (∀ c m, P (CallFetchMessage c m) = true) →
  keeps (appends P) (fetch_message E channel i).
Proof. intros H. unfold fetch_message. keeps_auto. Qed.

Global Hint Resolve fetch_message_appends : keeps.

Lemma divider_header_appends (E : Env) (P : Call → bool) (self : MessageConstruct) :
  (∀ u, P (CallFetchMember u) = true) →
  P (CallFillOut html_generator.start_message) = true →
  keeps (appends P) (divider_header E self).
Proof. intros H1 H2. unfold divider_header. keeps_auto. Qed.

Global Hint Resolve divider_header_appends : keeps.

Lemma bind_ret_state {A B} (c : M A) (f : A → B) s :
  (bind c (λ a, ret (f a)) s).2 = (c s).2.
Proof. unfold bind, ret. destruct (c s) as [[a|e] s1]; reflexivity. Qed.

(** ** The divider *)

Lemma generate_message_divider_audit (E : Env) (self : MessageConstruct) (s : State) :
  ∃ self' s',
    generate_message_divider E self true s = (Ok (self', false), s')
    ∧ calls s' = (calls s ++ closing_calls self)%list
    ∧ heap s' = heap s
    ∧ message self' = message self
    ∧ previous_message self' = previous_message self
    ∧ meta_data self' = meta_data self.
Proof.
  unfold generate_message_divider, closing_calls, bind, ret, fill_out, record. simpl.
  destruct (previous_message self) eqn:Hp; simpl;
    eexists; eexists; repeat split; simpl; try rewrite app_nil_r; auto.
Qed.

(** ** What a fresh builder holds *)

Lemma MessageConstruct_init_fields (E : Env) l previous tz mil meta dict s self s1 :
  MessageConstruct_init E l previous tz mil meta dict s = (Ok self, s1) →
  s1 = s
  ∧ message self = l
  ∧ previous_message self = previous
  ∧ meta_data self = meta
  ∧ message_dict self = dict
  ∧ message_html self = "".
Proof.
  intros H.
  pose proof (MessageConstruct_init_untouched E l previous tz mil meta dict s) as Hs.
  rewrite H in Hs. split; [exact Hs |].
  revert H. unfold MessageConstruct_init, bind.
  destruct (set_time E _ None s) as [[times|e] s2]; [| discriminate].
  unfold ret. intros [= <- _]. repeat split.
Qed.

(** ** Member notices *)

Lemma build_recipient_needs_member (E : Env) t url self s target others :
  Message._mention_ids (heap s (message self)) = target :: others →
  (∀ member, guild_fetch_member E target ≠ Ok (Some member)) →
  ∃ e d s', build_recipient E t url self s = (Raise e, s')
            ∧ calls s' = (calls s ++ CallFetchMember target :: d)%list.
Proof.
  intros Hids Hgone. unfold build_recipient, bind at 1, load. rewrite Hids.
  unfold bind at 1, ret, bind at 1, fetch_member, bind at 1, record, lift.
  destruct (guild_fetch_member E target) as [[member|]|e] eqn:Hfetch.
  - exfalso. exact (Hgone member eq_refl).
  - unfold bind at 1.
    match goal with |- context [_gather_user_colour E (Some ?a) ?st] =>
      destruct (keeps_at (appends (λ _, true)) (_gather_user_colour E (Some a)) st st)
        as [d [Hd _]];
      [reflexivity | apply _gather_user_colour_appends; reflexivity |];
      destruct (_gather_user_colour E (Some a) st) as [[c|e] s2]
    end; simpl in *.
    + exists AttributeError, d, s2. split; [reflexivity |].
      rewrite Hd, <- app_assoc. reflexivity.
    + exists e, d, s2. split; [reflexivity |]. rewrite Hd, <- app_assoc. reflexivity.
  - eexists e, [], _. split; reflexivity.
Qed.

(** C7. A member-removed or member-added message names its target as the
    first id of its mention list, and the builder asks the guild for that
    member right after closing the previous block. When the guild does not
    hand back a member for that id (it raises, or it answers that there is
    none), the construction of the message raises, and so does the loop of
    [gather_messages] over any list that contains the message: nothing
    catches the error. *)
Theorem member_notice_needs_its_member (E : Env) (s : State) (notice : loc)
    (target : Z) (others : list Z) :
  Message.type (heap s notice) = RECIPIENT_REMOVE
  ∨ Message.type (heap s notice) = RECIPIENT_ADD →
  Message._mention_ids (heap s notice) = target :: others →
  (∀ member, guild_fetch_member E target ≠ Ok (Some member)) →
  (∀ self, message self = notice →
     ∃ e d, (construct_message E self s).1 = Raise e
            ∧ calls (construct_message E self s).2
              = (calls s ++ closing_calls self ++ CallFetchMember target :: d)%list)
  ∧ (∀ tz mil dict messages previous html meta,
       In notice messages →
       ∃ e, (gather_loop E tz mil dict messages previous html meta s).1 = Raise e).
Proof.
  intros Htype Hids Hgone.
  assert (∀ s' self, frame s s' → message self = notice →
            ∃ e d s2, construct_message E self s' = (Raise e, s2)
                      ∧ calls s2
                        = (calls s' ++ closing_calls self
                             ++ CallFetchMember target :: d)%list) as Hcore.
  { intros s' self Hframe <-.
    destruct (Hframe (message self)) as (_ & _ & _ & _ & Ht & _ & _ & _ & _ & _ & Hm & _).
    rewrite <- Ht in Htype. rewrite <- Hm in Hids.
    destruct (generate_message_divider_audit E self s')
      as (self' & s1 & Hdiv & Hc & Hh & Hmsg & _).
    destruct (build_recipient_needs_member E html_generator.message_thread_remove
                (thread_remove_recipient E) self' s1 target others)
      as (e1 & d1 & r1 & He1 & Hd1); [rewrite Hh, Hmsg; exact Hids | exact Hgone |].
    destruct (build_recipient_needs_member E html_generator.message_thread_add
                (thread_add_recipient E) self' s1 target others)
      as (e2 & d2 & r2 & He2 & Hd2); [rewrite Hh, Hmsg; exact Hids | exact Hgone |].
    unfold construct_message, bind at 1, load.
    destruct Htype as [-> | ->].
    - unfold build_thread_remove, bind at 1.
      rewrite (bind_Ok_eq _ _ _ _ _ Hdiv). simpl. unfold build_remove.
      rewrite He1. simpl.
      exists e1, d1, r1. split; [reflexivity |].
      rewrite Hd1, Hc, <- app_assoc. reflexivity.
    - unfold build_thread_add, bind at 1.
      rewrite (bind_Ok_eq _ _ _ _ _ Hdiv). simpl. unfold build_add.
      rewrite He2. simpl.
      exists e2, d2, r2. split; [reflexivity |].
      rewrite Hd2, Hc, <- app_assoc. reflexivity. }
  split.
  - intros self Hself.
    destruct (Hcore s self (reflexivity s) Hself) as (e & d & s2 & -> & Hd).
    exists e, d. split; [reflexivity | exact Hd].
  - intros tz mil dict messages.
    enough (∀ s', frame s s' → ∀ previous html meta, In notice messages →
              ∃ e, (gather_loop E tz mil dict messages previous html meta s').1
                   = Raise e) as Hloop.
    { intros previous html meta Hin. apply Hloop; [reflexivity | exact Hin]. }
    induction messages as [|l rest IH];
      intros s' Hframe previous html meta Hin; [destruct Hin |].
    simpl. unfold bind at 1.
    destruct (MessageConstruct_init E l previous tz mil meta dict s')
      as [[self|e] s1] eqn:Hi; [| eauto].
    apply MessageConstruct_init_fields in Hi as (-> & Hmsg & _).
    unfold bind at 1.
    pose proof (construct_message_frame E self s') as Hstep.
    destruct (construct_message E self s') as [[built|e] s2] eqn:Hc;
      simpl in Hstep; [| eauto].
    destruct Hin as [-> | Hin].
    + destruct (Hcore s' self Hframe Hmsg) as (e & d & s3 & He & _).
      rewrite Hc in He. discriminate.
    + apply IH; [etransitivity; eassumption | exact Hin].
Qed.

(** The theorem at work: A removes user 200, who has left the guild. *)
Lemma member_notice_needs_its_member_example :
  ∃ e, (gather_loop Demo.quiet "UTC" true ∅ [0%nat] None "" ∅
          (mk_state Demo.chat_remove [])).1 = Raise e.
Proof.
  refine (proj2 (member_notice_needs_its_member Demo.quiet
                   (mk_state Demo.chat_remove []) 0%nat 200 []
                   (or_introl eq_refl) eq_refl _)
            "UTC" true ∅ [0%nat] None "" ∅ (or_introl eq_refl)).
  intros member. discriminate.
Defined.

(** ** What a method returns *)

Lemma returns_ret {A} (Q : A → Prop) a : Q a → returns Q (ret a).
Proof. intros H s a' s' [= <- _]. exact H. Qed.

Lemma returns_raise {A} (Q : A → Prop) e : returns Q (raise e).
Proof. intros s a s' H. discriminate H. Qed.

Lemma returns_bind_with {A B} (P : A → Prop) (Q : B → Prop) (c : M A) (k : A → M B) :
  returns P c → (∀ a, P a → returns Q (k a)) → returns Q (bind c k).
Proof.
  intros Hc Hk s b s' H. apply bind_Ok in H as (a & s1 & H1 & H2).
  exact (Hk a (Hc _ _ _ H1) _ _ _ H2).
Qed.

Lemma returns_bind {A B} (Q : B → Prop) (c : M A) (k : A → M B) :
  (∀ a, returns Q (k a)) → returns Q (bind c k).
Proof.
  intros Hk. apply (returns_bind_with (λ _, True)); [intros s a s' _; exact I |].
  intros a _. apply Hk.
Qed.

Lemma ensures_bind {A B} (Q : State → Prop) (c : M A) (k : A → M B) :
  (∀ a, ensures Q (k a)) → ensures Q (bind c k).
Proof.
  intros Hk s b s' H. apply bind_Ok in H as (a & s1 & H1 & H2).
  exact (Hk a _ _ _ H2).
Qed.

Lemma ensures_store (Q : State → Prop) l f :
  (∀ s, Q (store l f s).2) → ensures Q (store l f).
Proof. intros H s a s' [= _ <-]. apply (H s). Qed.

Lemma same_request_trans a b c :
  same_request a b → same_request b c → same_request a c.
Proof.
  unfold same_request. intros (? & ? & ? & ?) (? & ? & ? & ?).
  repeat split; congruence.
Qed.

Ltac returns_step :=
  lazymatch goal with
  | |- returns _ (bind _ _) => refine (returns_bind _ _ _ _); intros ?
  | |- returns _ (ret _) => refine (returns_ret _ _ _)
  | |- returns _ (raise _) => refine (returns_raise _ _)
  | |- returns _ (match ?x with _ => _ end) => destruct x
  end.

Ltac returns_auto :=
  cbv zeta; repeat (returns_step; cbv zeta);
  try solve [repeat split; simpl; repeat case_match; reflexivity].

Section results.
Context (E : Env).

Lemma build_content_request self :
  returns (same_request self) (build_content E self).
Proof. unfold build_content. returns_auto. Qed.

Lemma build_assets_request self :
  returns (same_request self) (build_assets E self).
Proof. unfold build_assets. returns_auto. Qed.

Lemma divider_header_request self :
  returns (λ started, same_request self started.1) (divider_header E self).
Proof. unfold divider_header. returns_auto. Qed.

Lemma generate_message_divider_request self channel_audit :
  returns (λ started, same_request self started.1)
    (generate_message_divider E self channel_audit).
Proof.
  unfold generate_message_divider. refine (returns_bind _ _ _ _). intros [|].
  - apply (returns_bind_with (same_request self)).
    + returns_auto.
    + intros self' Hs. destruct channel_audit.
      * apply returns_ret. exact Hs.
      * intros s a s' H. eapply same_request_trans; [exact Hs |].
        exact (divider_header_request self' _ _ _ H).
  - returns_auto.
Qed.

Lemma build_message_template_request self :
  returns (same_request self) (build_message_template E self).
Proof.
  unfold build_message_template.
  apply (returns_bind_with (λ started, same_request self started.1)).
  - apply generate_message_divider_request.
  - intros [self' b] Hs. simpl in *. destruct b.
    + apply returns_ret. exact Hs.
    + returns_auto. destruct Hs as (? & ? & ? & ?). repeat split; assumption.
Qed.

Lemma build_pin_template_request self :
  returns (same_request self) (build_pin_template E self).
Proof. unfold build_pin_template. returns_auto. Qed.

Lemma build_thread_template_request self :
  returns (same_request self) (build_thread_template E self).
Proof. unfold build_thread_template. returns_auto. Qed.

Lemma build_recipient_request t url self :
  returns (same_request self) (build_recipient E t url self).
Proof. unfold build_recipient. returns_auto. Qed.

Lemma after_divider_request self (k : MessageConstruct → M MessageConstruct) :
  (∀ self', returns (same_request self') (k self')) →
  returns (same_request self)
    (bind (generate_message_divider E self true) (λ started, k started.1)).
Proof.
  intros Hk. apply (returns_bind_with (λ started, same_request self started.1)).
  - apply generate_message_divider_request.
  - intros started Hs s a s' H. eapply same_request_trans; [exact Hs |].
    exact (Hk _ _ _ _ H).
Qed.

Lemma build_meta_data_enrolls self s self' s' :
  build_meta_data E self s = (Ok self', s') →
  meta_data self' = enrolled E (Message.author (heap s (message self))) (meta_data self).
Proof.
  unfold build_meta_data, bind, load, enrolled.
  destruct (meta_data self !! _); intros [= <- _]; reflexivity.
Qed.

(** The dict a construction returns: unchanged for the channel audit events,
    the author enrolled for every other message. *)
Lemma construct_message_meta self s html meta s' :
  construct_message E self s = (Ok (html, meta), s') →
  meta = if is_audit (Message.type (heap s (message self)))
         then meta_data self
         else enrolled E (Message.author (heap s (message self))) (meta_data self).
Proof.
  unfold construct_message. intros H.
  apply bind_Ok in H as (m & s0 & [= <- <-] & H).
  apply bind_Ok in H as (self' & s1 & H & [= _ <- _]).
  assert (∀ k : MessageConstruct → M MessageConstruct,
            (∀ self', returns (same_request self') (k self')) →
            bind (generate_message_divider E self true) (λ started, k started.1) s
            = (Ok self', s1) → meta_data self' = meta_data self) as Haudit.
  { intros k Hk Hrun. apply (after_divider_request self k Hk) in Hrun.
    apply Hrun. }
  assert (build_message E self s = (Ok self', s1) →
          meta_data self'
          = enrolled E (Message.author (heap s (message self))) (meta_data self))
    as Hnormal.
  { clear H Haudit. unfold build_message. intros H.
    apply bind_Ok in H as (self1 & s2 & H1 & H).
    apply bind_Ok in H as ([] & s3 & H2 & H).
    apply bind_Ok in H as ([] & s4 & H3 & H).
    apply bind_Ok in H as (self2 & s5 & H4 & H).
    apply bind_Ok in H as (self3 & s6 & H5 & H6).
    apply build_meta_data_enrolls in H6 as ->.
    pose proof (build_content_request _ _ _ _ H1) as R1.
    pose proof (build_assets_request _ _ _ _ H4) as R2.
    pose proof (build_message_template_request _ _ _ _ H5) as R3.
    destruct (same_request_trans _ _ _ (same_request_trans _ _ _ R1 R2) R3)
      as (-> & _ & _ & ->).
    pose proof (build_content_frame E self s) as F1. rewrite H1 in F1.
    pose proof (build_reference_frame E self1 s2) as F2. rewrite H2 in F2.
    pose proof (build_interaction_frame E self1 s3) as F3. rewrite H3 in F3.
    pose proof (build_assets_untouched E self1 s4) as F4. rewrite H4 in F4.
    pose proof (build_message_template_same_heap E self2 s5) as F5. rewrite H5 in F5.
    simpl in *. unfold untouched in F4. subst s5. rewrite F5.
    destruct (F1 (message self)) as (_ & A1 & _).
    destruct (F2 (message self)) as (_ & A2 & _).
    destruct (F3 (message self)) as (_ & A3 & _).
    rewrite A3, A2, A1. reflexivity. }
  destruct (Message.type (heap s (message self))); simpl; auto.
  - apply (Haudit (build_add E)); [| exact H].
    intros. apply build_recipient_request.
  - apply (Haudit (build_remove E)); [| exact H].
    intros. apply build_recipient_request.
  - apply (Haudit (build_pin_template E)); [| exact H].
    intros. apply build_pin_template_request.
  - apply (Haudit (build_thread_template E)); [| exact H].
    intros. apply build_thread_template_request.
Qed.

End results.

(** ** Closing the previous block *)

Lemma keeps_bind_with (R : State → State → Prop) `{!PreOrder R} {A B}
    (P : A → Prop) (c : M A) (k : A → M B) :
  returns P c → keeps R c → (∀ a, P a → keeps R (k a)) → keeps R (bind c k).
Proof.
  intros Hr Hc Hk s. unfold bind. specialize (Hc s). specialize (Hr s).
  destruct (c s) as [[a|e] s1]; simpl in *; [| exact Hc].
  etransitivity; [exact Hc | apply Hk, (Hr a s1), eq_refl].
Qed.

Lemma build_reference_appends (E : Env) (P : Call → bool) self :
  (∀ u, P (CallFetchMember u) = true) →
  (∀ c m, P (CallFetchMessage c m) = true) →
  P (CallFillOut html_generator.message_reference) = true →
  keeps (appends P) (build_reference E self).
Proof.
  intros H1 H2 H3. unfold build_reference, reference_not_fetched. keeps_auto.
Qed.

Lemma generate_message_divider_first (E : Env) self channel_audit :
  previous_message self = None →
  keeps (appends not_closing) (generate_message_divider E self channel_audit).
Proof.
  intros Hp. unfold generate_message_divider. rewrite Hp. keeps_auto.
Qed.

(** The first message of a transcript closes no block. *)
Lemma construct_first_never_closes (E : Env) self :
  previous_message self = None →
  keeps (appends not_closing) (construct_message E self).
Proof.
  intros Hp. unfold construct_message.
  refine (keeps_bind _ _ _ _ _); [keeps_auto | intros m].
  refine (keeps_bind _ _ _ _ _); [| intros self'; keeps_auto].
  assert (∀ k : MessageConstruct → M MessageConstruct,
            (∀ self', keeps (appends not_closing) (k self')) →
            keeps (appends not_closing)
              (bind (generate_message_divider E self true) (λ started, k started.1)))
    as Haudit.
  { intros k Hk. refine (keeps_bind _ _ _ _ _); [| intros started; apply Hk].
    apply generate_message_divider_first, Hp. }
  assert (keeps (appends not_closing) (build_message E self)) as Hnormal.
  { unfold build_message.
    apply (keeps_bind_with _ (same_request self));
      [apply build_content_request | auto with keeps | intros self1 R1].
    refine (keeps_bind _ _ _ _ _);
      [apply build_reference_appends; intros; reflexivity | intros _].
    refine (keeps_bind _ _ _ _ _); [auto with keeps | intros _].
    apply (keeps_bind_with _ (same_request self1));
      [apply build_assets_request | auto with keeps | intros self2 R2].
    refine (keeps_bind _ _ _ _ _); [| intros self3; auto with keeps].
    unfold build_message_template.
    refine (keeps_bind _ _ _ _ _); [| intros started; keeps_auto].
    apply generate_message_divider_first.
    destruct R1 as (_ & R1 & _), R2 as (_ & R2 & _). congruence. }
  destruct (Message.type m); try exact Hnormal.
  - apply (Haudit (build_add E)). intros. unfold build_add. auto with keeps.
  - apply (Haudit (build_remove E)). intros. unfold build_remove. auto with keeps.
  - apply (Haudit (build_pin_template E)). intros. auto with keeps.
  - apply (Haudit (build_thread_template E)). intros. auto with keeps.
Qed.

(** The calls that close a block: [generate_message_divider] fills the
    closing template exactly once, and before any other call, when the
    message is at a block boundary and a previous message exists, and never
    otherwise. *)
Lemma divider_closing_calls (E : Env) (self : MessageConstruct)
    (s : State) :
  (∀ channel_audit,
     let boundary :=
       channel_audit
       || match (_generate_message_divider_check self s).1 with
          | Ok true => true
          | _ => false
          end in
     ∃ d, calls (generate_message_divider E self channel_audit s).2
          = (calls s ++ (if boundary then closing_calls self else []) ++ d)%list
          ∧ forallb not_closing d = true
          ∧ (channel_audit = true → d = []))
  ∧ (is_audit (Message.type (heap s (message self))) = true →
     ∃ d, calls (construct_message E self s).2
          = (calls s ++ closing_calls self ++ d)%list
          ∧ forallb not_closing d = true)
  ∧ (previous_message self = None →
     ∃ d, calls (construct_message E self s).2 = (calls s ++ d)%list
          ∧ forallb not_closing d = true).
Proof.
  split; [| split; [| intros Hp; exact (construct_first_never_closes E self Hp s)]].
  - intros [|]; cbv zeta; simpl.
    + destruct (generate_message_divider_audit E self s) as (self' & s' & H & Hc & _).
      rewrite H. simpl. exists []. rewrite Hc, app_nil_r. auto.
    + unfold generate_message_divider, bind at 1.
      pose proof (_generate_message_divider_check_untouched self s) as Hs.
      unfold untouched in Hs.
      destruct (_generate_message_divider_check self s) as [[[|]|e] s0];
        simpl in *; subst s0.
      * unfold closing_calls.
        destruct (previous_message self) as [p|];
          unfold bind, fill_out, record, ret; simpl;
          match goal with |- context [divider_header E ?b ?st] =>
            destruct (keeps_at (appends not_closing) (divider_header E b) st st)
              as [d [Hd Hf]];
            [reflexivity | apply divider_header_appends; auto with keeps |]
          end;
          exists d; rewrite Hd; simpl; rewrite <- ?app_assoc;
          repeat split; auto; try discriminate.
      * exists []. simpl. rewrite app_nil_r. repeat split; auto; try discriminate.
      * exists []. simpl. rewrite app_nil_r. repeat split; auto; try discriminate.
  - intros Haudit. unfold construct_message, bind at 1, load.
    rewrite bind_ret_state.
    destruct (generate_message_divider_audit E self s)
      as (self' & s' & H & Hc & _).
    assert (∀ k : MessageConstruct * bool → M MessageConstruct,
              keeps (appends not_closing) (k (self', false)) →
              ∃ d, calls (bind (generate_message_divider E self true) k s).2
                   = (calls s ++ closing_calls self ++ d)%list
                   ∧ forallb not_closing d = true) as Hk.
    { intros k Hkeeps. rewrite (bind_Ok_eq _ _ _ _ _ H).
      destruct (keeps_at (appends not_closing) (k (self', false)) s' s')
        as [d [Hd Hf]]; [reflexivity | exact Hkeeps |].
      exists d. rewrite Hd, Hc, <- app_assoc. auto. }
    destruct (Message.type (heap s (message self))); try discriminate;
      apply Hk; simpl; unfold build_add, build_remove; auto with keeps.
Qed.

(** ** The per-author aggregate *)

Lemma enrolled_tally (E : Env) (author : User.t) (meta : gmap Z Aggregate)
    (f : Z → nat) :
  (∀ a, tally meta a = shown (f a)) →
  ∀ a, tally (enrolled E author meta) a
       = shown (if decide (User.id author = a) then S (f a) else f a).
Proof.
  intros Hf a. unfold tally, enrolled in *.
  destruct (decide (User.id author = a)) as [<- | Hne].
  - specialize (Hf (User.id author)).
    destruct (meta !! User.id author) as [agg|] eqn:Hl; simpl in Hf;
      rewrite lookup_insert_eq; simpl.
    + destruct (f (User.id author)); [discriminate |].
      injection Hf as ->. f_equal. lia.
    + destruct (f (User.id author)); [reflexivity | discriminate].
  - destruct (meta !! User.id author); rewrite lookup_insert_ne by exact Hne;
      apply Hf.
Qed.

Lemma authored_cons h a l rest :
  authored h a (l :: rest)
  = (if is_audit (Message.type (h l)) then authored h a rest
     else if decide (User.id (Message.author (h l)) = a) then S (authored h a rest)
     else authored h a rest).
Proof.
  unfold authored. rewrite filter_cons.
  destruct (is_audit (Message.type (h l))) eqn:Ha.
  - rewrite decide_False; [reflexivity | intros [H _]; discriminate].
  - destruct (decide (User.id (Message.author (h l)) = a)) as [Hd|Hd].
    + rewrite decide_True; [reflexivity | auto].
    + rewrite decide_False; [reflexivity | intros [_ H]; exact (Hd H)].
Qed.

Lemma authored_frame s s' a messages :
  frame s s' → authored (heap s') a messages = authored (heap s) a messages.
Proof.
  intros Hf. induction messages as [|l rest IH]; [reflexivity |].
  rewrite !authored_cons, IH.
  destruct (Hf l) as (_ & -> & _ & _ & -> & _). reflexivity.
Qed.

Lemma gather_loop_tally (E : Env) tz mil dict messages :
  ∀ previous html meta s html' meta' s' (f : Z → nat),
    gather_loop E tz mil dict messages previous html meta s = (Ok (html', meta'), s') →
    (∀ a, tally meta a = shown (f a)) →
    ∀ a, tally meta' a = shown (f a + authored (heap s) a messages)%nat.
Proof.
  induction messages as [|l rest IH]; intros previous html meta s html' meta' s' f H Hf a.
  - injection H as _ <- _. rewrite Nat.add_0_r. apply Hf.
  - simpl in H.
    apply bind_Ok in H as (self & s1 & Hinit & H).
    apply bind_Ok in H as ([built meta1] & s2 & Hbuilt & H).
    apply MessageConstruct_init_fields in Hinit as (-> & Hl & _ & Hmeta & _).
    pose proof (construct_message_frame E self s) as Hframe.
    rewrite Hbuilt in Hframe. simpl in Hframe.
    apply construct_message_meta in Hbuilt. rewrite Hl, Hmeta in Hbuilt.
    rewrite authored_cons. simpl in H.
    destruct (is_audit (Message.type (heap s l))).
    + subst meta1. rewrite (IH _ _ _ _ _ _ _ f H Hf).
      rewrite (authored_frame _ _ _ _ Hframe). reflexivity.
    + subst meta1.
      rewrite (IH _ _ _ _ _ _ _ _ H (enrolled_tally E _ _ f Hf)).
      rewrite (authored_frame _ _ _ _ Hframe).
      destruct (decide _); f_equal; lia.
Qed.

Lemma anchor_thread_anchored (E : Env) messages s messages' s1 :
  anchor_thread E messages s = (Ok messages', s1) →
  messages' = anchored E (heap s) messages ∧ frame s s1.
Proof.
  intros H. split.
  2: { pose proof (anchor_thread_frame E messages s) as Hf. rewrite H in Hf. exact Hf. }
  revert H. unfold anchor_thread, anchored.
  destruct messages as [|first rest]; [discriminate |].
  unfold bind at 1, load.
  destruct (contains _ _ && truthy _); [| intros [= <- _]; reflexivity].
  unfold bind at 1, getattr_reference.
  destruct (Message.message_reference (heap s first)); try discriminate.
  unfold ret, bind at 1, fetch_channel, bind at 1, record, lift.
  destruct (guild_fetch_channel E _) as [channel|e]; [| discriminate].
  unfold bind at 1, fetch_message, bind at 1, record, lift. simpl.
  destruct (channel_fetch_message E _ _) as [parent|e]; [| discriminate].
  unfold bind, store. simpl. intros [= <- _]. reflexivity.
Qed.

(** C2 (as amended). When [gather_messages] returns, the dict it returns
    holds, for every author id, the number of entries of the processed list
    (the input, its head replaced by the parent message in the thread case)
    that this author wrote and that are rendered as ordinary messages: an entry
    with that message count when the number is positive, no entry when it is
    zero. Pin, thread-created, member-added and member-removed notices are not
    counted. *)
Theorem aggregate_counts_ordinary_messages (E : Env) (messages : list loc)
    (tz : string) (mil : bool) (s : State) (html : string)
    (meta : gmap Z Aggregate) :
  (gather_messages E messages tz mil s).1 = Ok (html, meta) →
  ∀ author_id,
    message_count <$> meta !! author_id
    = shown (authored (heap s) author_id (anchored E (heap s) messages)).
Proof.
  intros H a.
  destruct (gather_messages E messages tz mil s) as [r s'] eqn:Hrun.
  simpl in H. subst r. unfold gather_messages in Hrun.
  apply bind_Ok in Hrun as (dict & s0 & [= <- <-] & Hrun).
  apply bind_Ok in Hrun as (messages' & s1 & Hanchor & Hrun).
  apply bind_Ok in Hrun as ([html' meta'] & s2 & Hloop & [= _ <- _]).
  apply anchor_thread_anchored in Hanchor as (-> & Hframe).
  rewrite <- (authored_frame _ _ _ _ Hframe).
  exact (gather_loop_tally E _ _ _ _ _ _ _ _ _ _ _ (λ _, O) Hloop
           (λ a, eq_trans (f_equal (fmap message_count) (lookup_empty a)) eq_refl) a).
Qed.

(** The theorem at work on the example of the specification: A:2, B:1. *)
Lemma aggregate_counts_ordinary_messages_chat :
  ∃ html meta,
    (gather_messages Demo.quiet [0%nat; 1%nat; 2%nat] "UTC" true
       (mk_state Demo.chat [])).1 = Ok (html, meta)
    ∧ message_count <$> meta !! 100 = Some 2
    ∧ message_count <$> meta !! 200 = Some 1.
Proof.
  destruct (gather_messages Demo.quiet [0%nat; 1%nat; 2%nat] "UTC" true
              (mk_state Demo.chat [])).1 as [[html meta]|e] eqn:H.
  - exists html, meta. split; [reflexivity |].
    split.
    + exact (aggregate_counts_ordinary_messages _ _ _ _ _ _ _ H 100).
    + exact (aggregate_counts_ordinary_messages _ _ _ _ _ _ _ H 200).
  - vm_compute in H. discriminate H.
Defined.

(** C2 (as stated) fails: A's pin notice is an entry of the sequence that A
    wrote, and the dict returned has no entry for A. *)
Lemma pin_notice_is_not_counted :
  authored_any Demo.chat_pin 100 [0%nat] = 1%nat
  ∧ match (gather_messages Demo.quiet [0%nat] "UTC" true
             (mk_state Demo.chat_pin [])).1 with
    | Ok (_, meta) => meta !! 100 = None
    | Raise _ => False
    end.
Proof. split; vm_compute; reflexivity. Qed.

(** ** Colours *)

Lemma Role_lt_false a b : Role_lt b a = false ↔ below a b.
Proof.
  unfold Role_lt, below.
  rewrite orb_false_iff, andb_false_iff, !Z.ltb_ge, Z.eqb_neq. lia.
Qed.

Lemma Role_lt_true a b : Role_lt a b = true → below a b.
Proof.
  unfold Role_lt, below.
  rewrite orb_true_iff, andb_true_iff, !Z.ltb_lt, Z.eqb_eq. lia.
Qed.

Lemma below_trans a b c : below a b → below b c → below a c.
Proof. unfold below. lia. Qed.

Lemma below_refl a : below a a.
Proof. unfold below. lia. Qed.

Lemma insort_In x r l : In x (insort r l) ↔ x = r ∨ In x l.
Proof.
  induction l as [|y l IH]; simpl; [intuition |].
  destruct (Role_lt y r); simpl; rewrite ?IH; intuition.
Qed.

Lemma sorted_In x l : In x (sorted l) ↔ In x l.
Proof.
  induction l as [|y l IH]; simpl; [reflexivity |].
  rewrite insort_In, IH. intuition.
Qed.

Lemma insort_ascending r l : ascending l → ascending (insort r l).
Proof.
  induction l as [|x l IH]; simpl; [intuition |].
  intros [Hx Hl]. destruct (Role_lt x r) eqn:Hlt; simpl.
  - split; [| apply IH, Hl].
    intros y Hy. apply insort_In in Hy as [-> | Hy];
      [apply Role_lt_true, Hlt | apply Hx, Hy].
  - apply Role_lt_false in Hlt. split; [| split; assumption].
    intros y [<- | Hy]; [exact Hlt |].
    eapply below_trans; [exact Hlt | apply Hx, Hy].
Qed.

Lemma sorted_ascending l : ascending (sorted l).
Proof.
  induction l as [|x l IH]; simpl; [exact I | apply insort_ascending, IH].
Qed.

Lemma ascending_snoc l x :
  ascending (l ++ [x]) → ascending l ∧ ∀ y, In y l → below y x.
Proof.
  induction l as [|z l IH]; simpl; [intuition |].
  intros [Hz Hl]. destruct (IH Hl) as [Hl' Hx]. split.
  - split; [| exact Hl']. intros y Hy. apply Hz, in_or_app. left. exact Hy.
  - intros y [<- | Hy]; [| apply Hx, Hy].
    apply Hz, in_or_app. right. left. reflexivity.
Qed.

(** The first match from the top of an ascending list is the highest match. *)
Lemma find_reverse_ascending (p : Role.t → bool) l :
  ascending l →
  match List.find p (reverse l) with
  | Some top => In top l ∧ p top = true ∧ ∀ r, In r l → p r = true → below r top
  | None => ∀ r, In r l → p r = false
  end.
Proof.
  induction l as [|x l IH] using rev_ind; intros Hl; [intros r [] |].
  apply ascending_snoc in Hl as [Hl Hx]. specialize (IH Hl).
  rewrite reverse_snoc. simpl. destruct (p x) eqn:Hp.
  - split; [apply in_or_app; right; left; reflexivity |]. split; [exact Hp |].
    intros r Hr _. apply in_app_or in Hr as [Hr | [<- | []]];
      [apply Hx, Hr | apply below_refl].
  - destruct (List.find p (reverse l)) as [top|].
    + destruct IH as (Hin & Htop & Hmax). split; [apply in_or_app; left; exact Hin |].
      split; [exact Htop |].
      intros r Hr Hpr. apply in_app_or in Hr as [Hr | [<- | []]];
        [apply Hmax; assumption | congruence].
    + intros r Hr. apply in_app_or in Hr as [Hr | [<- | []]];
        [apply IH, Hr | exact Hp].
Qed.

Lemma hex_digit_zero d : 0 ≤ d < 16 → hex_digit d = "0"%char → d = 0.
Proof.
  intros Hd.
  assert (d = 0 ∨ d = 1 ∨ d = 2 ∨ d = 3 ∨ d = 4 ∨ d = 5 ∨ d = 6 ∨ d = 7
          ∨ d = 8 ∨ d = 9 ∨ d = 10 ∨ d = 11 ∨ d = 12 ∨ d = 13 ∨ d = 14 ∨ d = 15)
    as Hcases by lia.
  repeat (destruct Hcases as [-> | Hcases]); try subst d;
    first [reflexivity | vm_compute; discriminate].
Qed.

Lemma byte_zero b : 0 ≤ b < 256 → b / 16 = 0 → b mod 16 = 0 → b = 0.
Proof.
  intros Hb H1 H2. pose proof (Z.div_mod b 16 ltac:(lia)) as H. lia.
Qed.

Lemma hex2_zero b : 0 ≤ b < 256 → hex2 b = "00" → b = 0.
Proof.
  intros Hb H. cbv [hex2] in H. injection H as H1 H2.
  apply hex_digit_zero in H1, H2; try (apply Z.mod_pos_bound; lia).
  - apply byte_zero; assumption.
  - split; [apply Z.div_pos; lia | apply Z.div_lt_upper_bound; lia].
Qed.

Lemma Color_str_bytes v :
  Color_str v
  = "#" +:+ hex2 (v / 65536 mod 256) +:+ hex2 (v / 256 mod 256) +:+ hex2 (v mod 256).
Proof.
  unfold Color_str.
  rewrite (Z.land_ones _ 8 ltac:(lia) : Z.land v 255 = v mod 2 ^ 8).
  rewrite (Z.land_ones _ 8 ltac:(lia) : Z.land (Z.shiftr v 8) 255 = _ mod 2 ^ 8).
  rewrite (Z.land_ones _ 8 ltac:(lia) : Z.land (Z.shiftr v 16) 255 = _ mod 2 ^ 8).
  rewrite !Z.shiftr_div_pow2 by lia. reflexivity.
Qed.

Lemma hex_triple_black a b c :
  "#" +:+ hex2 a +:+ hex2 b +:+ hex2 c = "#000000" →
  hex2 a = "00" ∧ hex2 b = "00" ∧ hex2 c = "00".
Proof.
  cbv [hex2 String.append]. intros H. injection H as H1 H2 H3 H4 H5 H6.
  rewrite H1, H2, H3, H4, H5, H6. repeat split.
Qed.

Lemma bytes_zero v :
  0 ≤ v < 16777216 →
  v / 65536 mod 256 = 0 → v / 256 mod 256 = 0 → v mod 256 = 0 → v = 0.
Proof.
  intros Hv H2 H1 H0.
  assert (0 ≤ v / 65536 < 256) as R2
    by (split; [apply Z.div_pos; lia | apply Z.div_lt_upper_bound; lia]).
  rewrite Z.mod_small in H2 by exact R2.
  apply Z.div_small_iff in H2 as [H2 | H2]; [| lia | lia].
  assert (0 ≤ v / 256 < 256) as R1
    by (split; [apply Z.div_pos; lia | apply Z.div_lt_upper_bound; lia]).
  rewrite Z.mod_small in H1 by exact R1.
  apply Z.div_small_iff in H1 as [H1 | H1]; [| lia | lia].
  rewrite Z.mod_small in H0 by lia. exact H0.
Qed.

(** A 24-bit colour prints as black only when it is zero. *)
Lemma Color_str_black v : 0 ≤ v < 16777216 → Color_str v = "#000000" → v = 0.
Proof.
  intros Hv H. rewrite Color_str_bytes in H.
  apply hex_triple_black in H as (H2 & H1 & H0).
  apply hex2_zero in H2, H1, H0; try (apply Z.mod_pos_bound; lia).
  apply bytes_zero; assumption.
Qed.

Lemma filter_eligible (E : Env) (member : User.t) r :
  In r (sorted (filter (λ r, Role.id r ≠ guild_id E) (User.roles member)))
  ↔ eligible E member r.
Proof.
  rewrite sorted_In, <- list_elem_of_In, list_elem_of_filter, list_elem_of_In.
  unfold eligible. tauto.
Qed.

(** C9. [_gather_user_colour] asks the guild for the author's membership.
    When the guild answers with a member whose role colours are 24-bit
    values, the result is the colour of the member's highest role that is not
    the guild's default role and has a non-zero colour, where a role is higher
    than another when its rank is larger or, at equal rank, its id is larger;
    it is white when no such role exists. When the guild answers that the
    author is no member, the colour is white and [_gather_user_icon] gives no
    icon; neither raises. (An exception raised by the lookup itself is passed
    on.) *)
Theorem user_colour_is_highest_coloured_role (E : Env) (author : User.t) (s : State) :
  match guild_fetch_member E (User.id author) with
  | Ok (Some member) =>
      (∀ r, In r (User.roles member) → 0 ≤ Role.color r < 16777216) →
      (∃ top, top_coloured E member top
              ∧ (_gather_user_colour E (Some author) s).1
                = Ok ("color: " +:+ Color_str (Role.color top) +:+ ";"))
      ∨ ((∀ r, eligible E member r → Role.color r = 0)
         ∧ (_gather_user_colour E (Some author) s).1 = Ok "color: #FFFFFF;")
  | Ok None =>
      (_gather_user_colour E (Some author) s).1 = Ok "color: #FFFFFF;"
      ∧ (_gather_user_icon E (Some author) s).1 = Ok ""
  | Raise e =>
      (_gather_user_colour E (Some author) s).1 = Raise e
      ∧ (_gather_user_icon E (Some author) s).1 = Raise e
  end.
Proof.
  unfold _gather_user_colour, _gather_user_icon, _gather_member, fetch_member,
    bind, record, lift, ret.
  destruct (guild_fetch_member E (User.id author)) as [[member|]|e];
    cbn [fst snd]; [| split; reflexivity | split; reflexivity].
  intros Hrange. unfold user_colour_of.
  pose proof (find_reverse_ascending has_colour _
                (sorted_ascending (filter (λ r, Role.id r ≠ guild_id E)
                                     (User.roles member)))) as Hfind.
  destruct (List.find has_colour _) as [top|].
  - left. exists top. destruct Hfind as (Hin & Hc & Hmax).
    apply filter_eligible in Hin. unfold has_colour in Hc.
    apply negb_true_iff, Z.eqb_neq in Hc.
    split.
    + split; [exact Hin |]. split; [exact Hc |].
      intros r Hr Hcr. apply Hmax; [apply filter_eligible, Hr |].
      unfold has_colour. apply negb_true_iff, Z.eqb_neq, Hcr.
    + destruct (String.eqb (Color_str (Role.color top)) "#000000") eqn:Hblack.
      * exfalso. apply String.eqb_eq in Hblack.
        apply Hc, Color_str_black; [apply Hrange, Hin | exact Hblack].
      * rewrite bool_decide_eq_true_2 by eauto. reflexivity.
  - right. split.
    + intros r Hr. apply filter_eligible, Hfind in Hr. unfold has_colour in Hr.
      apply negb_false_iff, Z.eqb_eq in Hr. exact Hr.
    + rewrite bool_decide_eq_true_2 by eauto. reflexivity.
Qed.

(** The theorem at work: of two coloured roles of rank 2 the one with the
    larger id wins, and the colourless role of rank 3 does not count. *)
Lemma user_colour_is_highest_coloured_role_example :
  (∃ top, top_coloured Demo.coloured (Demo.member 100 "A" Demo.colours) top
          ∧ (_gather_user_colour Demo.coloured (Some Demo.alice)
               (mk_state Demo.chat [])).1
            = Ok ("color: " +:+ Color_str (Role.color top) +:+ ";"))
  ∨ ((∀ r, eligible Demo.coloured (Demo.member 100 "A" Demo.colours) r
           → Role.color r = 0)
     ∧ (_gather_user_colour Demo.coloured (Some Demo.alice)
          (mk_state Demo.chat [])).1 = Ok "color: #FFFFFF;").
Proof.
  refine (user_colour_is_highest_coloured_role Demo.coloured Demo.alice
            (mk_state Demo.chat []) _).
  intros r Hr. simpl in Hr.
  repeat (destruct Hr as [<- | Hr]; [simpl; lia |]). destruct Hr.
Defined.

(** ** Time zones *)



(** ** What construction does to the message objects *)

Global Instance same_references_preorder : PreOrder same_references.
Proof.
  split; [intros s l; reflexivity |].
  intros a b c Hab Hbc l. rewrite Hbc. apply Hab.
Qed.

Lemma keeps_store_references l f :
  (∀ m, Message.message_reference (f m) = Message.message_reference m) →
  keeps same_references (store l f).
Proof.
  intros H s l'. simpl. destruct (decide (l' = l)) as [->|]; [apply H | reflexivity].
Qed.

Lemma same_heap_references s s' : same_heap s s' → same_references s s'.
Proof. intros H l. rewrite H. reflexivity. Qed.

Global Hint Extern 4 (keeps same_references _) =>
  refine (untouched_keeps same_references _ _) : keeps.
Global Hint Extern 5 (keeps same_references _) =>
  refine (keeps_weaken same_heap same_references _ same_heap_references _) : keeps.
Global Hint Extern 3 (keeps same_references (store _ _)) =>
  refine (keeps_store_references _ _ _); intros ?; reflexivity : keeps.
Global Hint Resolve fill_out_same_heap fetch_member_same_heap
  _gather_user_colour_same_heap _gather_user_icon_same_heap
  generate_message_divider_same_heap build_message_template_same_heap
  build_pin_same_heap build_thread_same_heap build_thread_remove_same_heap
  build_thread_add_same_heap : keeps.

Lemma build_content_references (E : Env) self :
  keeps same_references (build_content E self).
Proof. unfold build_content. keeps_auto. Qed.

Lemma build_interaction_references (E : Env) self :
  keeps same_references (build_interaction E self).
Proof. unfold build_interaction. keeps_auto. Qed.

Lemma render_reference_leaves_string (E : Env) self message' :
  ensures (λ s', holds_string (Message.message_reference (heap s' (message self))))
    (render_reference E self message').
Proof.
  unfold render_reference. cbv zeta.
  repeat (refine (ensures_bind _ _ _ _); intros ?).
  apply ensures_store. intros s. simpl.
  rewrite decide_True by reflexivity. eexists. reflexivity.
Qed.

Lemma build_reference_leaves_string (E : Env) self s s' :
  build_reference E self s = (Ok tt, s') →
  holds_string (Message.message_reference (heap s' (message self))).
Proof.
  unfold build_reference. intros H.
  apply bind_Ok in H as (m & s0 & [= <- <-] & H).
  destruct (negb (truthy (Message.message_reference (heap s (message self))))).
  { injection H as <-. simpl. rewrite decide_True by reflexivity.
    eexists. reflexivity. }
  apply bind_Ok in H as (ref & s1 & Href & H).
  apply bind_Ok in H as (found & s2 & Hfound & H).
  destruct found as [message'|].
  { exact (render_reference_leaves_string E self message' _ _ _ H). }
  injection H as <-.
  destruct (message_dict self !! message_id ref); [discriminate |].
  revert Hfound. unfold try_except_HTTPException.
  destruct (bind (fetch_message E _ _) _ s1) as [[found|e] s3] eqn:Hfetch.
  { apply bind_Ok in Hfetch as (l & s4 & _ & [= <- _]). discriminate. }
  destruct (isinstance_HTTPException e); [| discriminate].
  unfold reference_not_fetched, bind, store, ret.
  destruct (isinstance_NotFound e); intros [= <-]; simpl;
    repeat rewrite decide_True by reflexivity; eexists; reflexivity.
Qed.

Lemma build_interaction_leaves_string (E : Env) self :
  ensures (λ s', holds_string (Message.interaction (heap s' (message self))))
    (build_interaction E self).
Proof.
  unfold build_interaction. refine (ensures_bind _ _ _ _). intros m.
  destruct (negb (truthy (Message.interaction m))).
  - apply ensures_store. intros s. simpl. rewrite decide_True by reflexivity.
    eexists. reflexivity.
  - cbv zeta. repeat (refine (ensures_bind _ _ _ _); intros ?).
    apply ensures_store. intros s. simpl. rewrite decide_True by reflexivity.
    eexists. reflexivity.
Qed.

Lemma build_message_renders (E : Env) self s self' s' :
  build_message E self s = (Ok self', s') →
  holds_string (Message.message_reference (heap s' (message self)))
  ∧ holds_string (Message.interaction (heap s' (message self))).
Proof.
  unfold build_message. intros H.
  apply bind_Ok in H as (self1 & s1 & H1 & H).
  apply bind_Ok in H as ([] & s2 & H2 & H).
  apply bind_Ok in H as ([] & s3 & H3 & H).
  apply bind_Ok in H as (self2 & s4 & H4 & H).
  apply bind_Ok in H as (self3 & s5 & H5 & H6).
  destruct (build_content_request E _ _ _ _ H1) as (Hm & _).
  pose proof (build_reference_leaves_string E _ _ _ H2) as Href.
  pose proof (build_interaction_leaves_string E _ _ _ _ H3) as Hint.
  pose proof (build_interaction_references E self1 s2) as R3. rewrite H3 in R3.
  pose proof (build_assets_untouched E self1 s3) as F4. rewrite H4 in F4.
  pose proof (build_message_template_same_heap E self2 s4) as F5. rewrite H5 in F5.
  pose proof (build_meta_data_untouched E self3 s5) as F6. rewrite H6 in F6.
  simpl in *. unfold untouched in *. subst s4 s'. rewrite F5, <- Hm.
  split; [rewrite R3; exact Href | exact Hint].
Qed.

(** C8 (as amended). No construction changes the id, author, timestamps,
    type, assets, webhook id, mention ids or channel of any message object,
    and neither does a whole run of [gather_messages]. The construction of a
    pin, thread-created, member-removed or member-added message changes no
    message object at all. The construction of any other message, when it
    returns, has overwritten the message's own reply-reference and
    interaction with strings (the rendered banner or the empty string); its
    content, and the content of the message it replies to, may be overwritten
    too. *)
Theorem construction_rewrites_rendered_fields_only (E : Env)
    (self : MessageConstruct) (s : State) :
  (∀ l, same_identity (heap s l) (heap (construct_message E self s).2 l))
  ∧ (∀ messages tz mil l,
       same_identity (heap s l) (heap (gather_messages E messages tz mil s).2 l))
  ∧ (if is_audit (Message.type (heap s (message self)))
     then ∀ l, heap (construct_message E self s).2 l = heap s l
     else match construct_message E self s with
          | (Ok _, s') =>
              holds_string (Message.message_reference (heap s' (message self)))
              ∧ holds_string (Message.interaction (heap s' (message self)))
          | (Raise _, _) => True
          end).
Proof.
  split; [exact (construct_message_frame E self s) |].
  split; [intros messages tz mil; exact (gather_messages_frame E messages tz mil s) |].
  destruct (is_audit (Message.type (heap s (message self)))) eqn:Haudit.
  - unfold construct_message, bind at 1, load. rewrite bind_ret_state.
    destruct (Message.type (heap s (message self))); try discriminate.
    + exact (build_thread_add_same_heap E self s).
    + exact (build_thread_remove_same_heap E self s).
    + exact (build_pin_same_heap E self s).
    + exact (build_thread_same_heap E self s).
  - destruct (construct_message E self s) as [[built|e] s'] eqn:H; [| exact I].
    unfold construct_message in H.
    apply bind_Ok in H as (m & s0 & [= <- <-] & H).
    apply bind_Ok in H as (self' & s1 & H & [= _ <-]).
    destruct (Message.type (heap s (message self))); try discriminate;
      exact (build_message_renders E _ _ _ _ H).
Qed.

(** C8 (as stated) fails: after the construction of the first message of the
    example, which has no reply-reference, no interaction and the text "hi",
    the object's reply-reference and interaction are the empty string instead
    of [None], and its content is the rendered markup. *)
Lemma construction_overwrites_its_input :
  let before := Demo.chat 0%nat in
  let after :=
    heap (construct_message Demo.quiet (Demo.fresh 0%nat None)
            (mk_state Demo.chat [])).2 0%nat in
  Message.message_reference before = PyNone
  ∧ Message.message_reference after = PyStr ""
  ∧ Message.interaction before = PyNone
  ∧ Message.interaction after = PyStr ""
  ∧ Message.content before = "hi"
  ∧ Message.content after = "[content|hi|]".
Proof. repeat split; vm_compute; reflexivity. Qed.

(** ** The loop of the assembler *)

Lemma construct_message_grows (E : Env) self :
  keeps (appends any_call) (construct_message E self).
Proof.
  unfold construct_message, build_pin, build_thread, build_thread_remove,
    build_thread_add, build_remove, build_add, build_message, build_reference,
    reference_not_fetched.
  keeps_auto.
Qed.

Lemma append_assoc (a b c : string) : (a +:+ b) +:+ c = a +:+ (b +:+ c).
Proof.
  induction a as [|x a IH]; [reflexivity |].
  cbv [String.append] in *. fold String.append in *. f_equal. exact IH.
Qed.

Lemma gather_loop_runs (E : Env) tz mil dict messages :
  ∀ previous html meta s html' meta' s',
    gather_loop E tz mil dict messages previous html meta s = (Ok (html', meta'), s') →
    ∃ steps,
      runs E tz mil dict messages previous meta s steps meta' s'
      ∧ List.length steps = List.length messages
      ∧ html' = html +:+ join (map fst steps).
Proof.
  induction messages as [|l rest IH]; intros previous html meta s html' meta' s' H.
  - injection H as <- <- <-. exists []. split; [constructor |].
    split; [reflexivity |]. simpl. clear.
    induction html as [|x html IH]; [reflexivity |].
    cbv [String.append] in *. fold String.append in *. f_equal. exact IH.
  - simpl in H.
    apply bind_Ok in H as (self & s1 & Hinit & H).
    apply bind_Ok in H as ([built meta1] & s2 & Hbuilt & H).
    destruct (construct_message_grows E self s1) as [d [Hd _]].
    rewrite Hbuilt in Hd. simpl in Hd, H.
    apply IH in H as (steps & Hruns & Hlen & ->).
    exists ((built, d) :: steps). split; [econstructor; eassumption |].
    split; [simpl; f_equal; exact Hlen |].
    simpl. apply append_assoc.
Qed.

Lemma anchored_length (E : Env) h messages :
  List.length (anchored E h messages) = List.length messages.
Proof.
  unfold anchored. destruct messages as [|first rest]; [reflexivity |].
  destruct (contains _ _ && truthy _); [| reflexivity].
  destruct (Message.message_reference (h first)); try reflexivity.
  destruct (guild_fetch_channel E _); [| reflexivity].
  destruct (channel_fetch_message E _ _); reflexivity.
Qed.

(** C10. On an empty list [gather_messages] raises [IndexError] and leaves
    the store as it was. When it returns on a non-empty list, it has
    constructed every message of the processed list once, in order, each with
    its predecessor as previous message, and the markup it returns is the
    markup of these constructions, in order, followed by exactly one
    [</div>]. *)
Theorem gather_messages_needs_a_message (E : Env) (tz : string) (mil : bool)
    (s : State) :
  gather_messages E [] tz mil s = (Raise IndexError, s)
  ∧ ∀ first rest html meta s',
      gather_messages E (first :: rest) tz mil s = (Ok (html, meta), s') →
      ∃ dict s1 steps,
        runs E tz mil dict (anchored E (heap s) (first :: rest)) None ∅ s1
          steps meta s'
        ∧ List.length steps = List.length (first :: rest)
        ∧ html = join (map fst steps) +:+ "</div>".
Proof.
  split; [reflexivity |].
  intros first rest html meta s' H. unfold gather_messages in H.
  apply bind_Ok in H as (dict & s0 & [= <- <-] & H).
  apply bind_Ok in H as (messages' & s1 & Hanchor & H).
  apply bind_Ok in H as ([html' meta'] & s2 & Hloop & [= <- <- <-]).
  apply anchor_thread_anchored in Hanchor as (-> & _).
  apply gather_loop_runs in Hloop as (steps & Hruns & Hlen & ->).
  eexists _, s1, steps. split; [exact Hruns |].
  split; [rewrite Hlen; apply anchored_length | reflexivity].
Qed.

(** The theorem at work on the example of the specification. *)
Lemma gather_messages_needs_a_message_chat :
  ∃ html, (∃ meta s', gather_messages Demo.quiet [0%nat; 1%nat; 2%nat] "UTC" true
                        (mk_state Demo.chat []) = (Ok (html, meta), s'))
          ∧ ∃ steps : list (string * list Call), List.length steps = 3%nat
                     ∧ html = join (map fst steps) +:+ "</div>".
Proof.
  destruct (gather_messages Demo.quiet [0%nat; 1%nat; 2%nat] "UTC" true
              (mk_state Demo.chat [])) as [[[html meta]|e] s'] eqn:H.
  - exists html. split; [exists meta, s'; reflexivity |].
    destruct (proj2 (gather_messages_needs_a_message Demo.quiet "UTC" true
                       (mk_state Demo.chat [])) _ _ _ _ _ H)
      as (dict & s1 & steps & _ & Hlen & Hhtml).
    exists steps. split; assumption.
  - exfalso. revert H. vm_compute. discriminate.
Defined.

(** * Further properties *)

(** ** Tools *)

Lemma keeps_run (R : State → State → Prop) {A} (c : M A) s r s' :
  keeps R c → c s = (r, s') → R s s'.
Proof. intros H Heq. specialize (H s). rewrite Heq in H. exact H. Qed.

Lemma append_empty_r (a : string) : a +:+ "" = a.
Proof.
  induction a as [|x a IH]; [reflexivity |].
  cbv [String.append] in *. fold String.append in *. f_equal. exact IH.
Qed.

Lemma append_empty (a b : string) : a +:+ b = "" ↔ a = "" ∧ b = "".
Proof.
  split.
  - destruct a; [intros H; split; [reflexivity | exact H] | discriminate].
  - intros [-> ->]. reflexivity.
Qed.

Lemma eqb_empty (a : string) : String.eqb a "" = true ↔ a = "".
Proof. apply String.eqb_eq. Qed.

(** ** The message index *)

Lemma index_lookup (h : loc → Message.t) (messages : list loc) (k : Z) :
  foldl (λ d l, <[Message.id (h l) := l]> d) (∅ : gmap Z loc) messages !! k
  = last (filter (λ l, Message.id (h l) = k) messages).
Proof.
  induction messages as [|x l IH] using rev_ind.
  - reflexivity.
  - rewrite foldl_app, filter_app. simpl.
    rewrite filter_cons, filter_nil.
    destruct (decide (Message.id (h x) = k)) as [<-|Hne].
    + rewrite lookup_insert_eq, last_snoc. reflexivity.
    + rewrite lookup_insert_ne by exact Hne. rewrite app_nil_r. exact IH.
Qed.

(** X1. [gather_messages] indexes its input by message id before it does
    anything else: the index holds, at every id, the last entry of the input
    that carries this id, and nothing at an id that no entry carries. Building
    the index neither raises nor touches the store. *)
Theorem index_messages_finds_last (messages : list loc) (s : State) :
  ∃ d, index_messages messages s = (Ok d, s)
       ∧ ∀ k, d !! k = last (filter (λ l, Message.id (heap s l) = k) messages).
Proof.
  eexists. split; [reflexivity |]. intros k. apply index_lookup.
Qed.

(** ** Creating a builder *)

Lemma to_local_time_str_run (E : Env) (self : MessageConstruct) (t : datetime)
    (s : State) :
  to_local_time_str E self t s
  = (match tzinfo (Message.created_at (heap s (message self))), tzinfo t with
     | None, Some _ => Raise ValueError
     | created, _ =>
         match timezone E (pytz_timezone self) with
         | None => Raise UnknownTimeZoneError
         | Some z =>
             Ok (strftime E (time_format self)
                   (astimezone (system_utcoffset E) z
                      (match created with
                       | None => {| wall := wall t; tzinfo := Some 0 |}
                       | Some _ => t
                       end)))
         end
     end, s).
Proof.
  cbv [to_local_time_str lookup_timezone bind load lift ret raise localize_UTC].
  destruct (tzinfo (Message.created_at (heap s (message self)))) as [o|];
    [rewrite bool_decide_eq_false_2 by discriminate
    | rewrite bool_decide_eq_true_2 by reflexivity];
    destruct (tzinfo t); destruct (timezone E (pytz_timezone self));
    destruct (military_time self); reflexivity.
Qed.

Ltac crack :=
  repeat match goal with
    | H : _ ∧ _ |- _ => destruct H
    | H : ∃ _, _ |- _ => destruct H
    | H : Some _ = Some _ |- _ => injection H as H; subst
    end.

(** X2. What [__init__] does is decided by two facts: whether the display
    time zone is known, and whether the message was created naive and edited
    aware. A naive creation time with an aware edit time raises [ValueError]
    when the zone is known; an unknown zone raises [UnknownTimeZoneError]; in
    every other case a builder is returned. The store is never touched. *)
Theorem builder_creation_outcomes (E : Env) (l : loc) (previous : option loc)
    (tz : string) (mil : bool) (meta : gmap Z Aggregate) (dict : gmap Z loc)
    (s : State) :
  let out := MessageConstruct_init E l previous tz mil meta dict s in
  out.2 = s
  ∧ (out.1 = Raise UnknownTimeZoneError ↔ timezone E tz = None)
  ∧ (out.1 = Raise ValueError ↔ timezone E tz ≠ None ∧ mixed_zones (heap s l))
  ∧ ((∃ self, out.1 = Ok self) ↔ timezone E tz ≠ None ∧ ¬ mixed_zones (heap s l)).
Proof.
  unfold mixed_zones.
  cbv [MessageConstruct_init set_time bind load ret default].
  rewrite to_local_time_str_run. cbn [message pytz_timezone].
  destruct (tzinfo (Message.created_at (heap s l))) as [o|] eqn:Hc;
    destruct (timezone E tz) as [z|] eqn:Hz;
    destruct (Message.edited_timestamp (heap s l)) as [t|] eqn:He;
    rewrite ?to_local_time_str_run; cbn [message pytz_timezone];
    rewrite ?Hc, ?Hz; try destruct (tzinfo t) as [o'|] eqn:Ht;
    cbn [fst snd]; (split; [reflexivity |]).
  all: repeat split; intros; crack; try congruence; eauto.
  all: try (intros ?; crack; congruence).
  all: try (eexists; split; [reflexivity | congruence]).
  all: try (exfalso;
            match goal with H : ¬ _ |- _ => apply H end;
            split; [reflexivity |]; eexists; split; [reflexivity | congruence]).
Qed.

(** X3. When the message was created with a zone, a timestamp that carries a
    zone is rendered by the moment it denotes: two aware timestamps for the
    same instant, whatever their own zones, give the same text. *)
Theorem aware_timestamps_render_by_instant (E : Env) (self : MessageConstruct)
    (s : State) (t1 t2 : datetime) :
  tzinfo (Message.created_at (heap s (message self))) ≠ None →
  tzinfo t1 ≠ None →
  tzinfo t2 ≠ None →
  instant t1 = instant t2 →
  to_local_time_str E self t1 s = to_local_time_str E self t2 s.
Proof.
  intros Hc H1 H2 Hi. rewrite !to_local_time_str_run.
  destruct (tzinfo (Message.created_at (heap s (message self)))); [| congruence].
  unfold astimezone, instant in *.
  destruct (tzinfo t1); [| congruence]. destruct (tzinfo t2); [| congruence].
  simpl in *. rewrite Hi. reflexivity.
Qed.

Lemma aware_timestamps_render_by_instant_example :
  to_local_time_str Demo.quiet (Demo.fresh 0%nat None) (Demo.utc 60)
    (mk_state Demo.chat [])
  = to_local_time_str Demo.quiet (Demo.fresh 0%nat None)
      (mk_datetime 3660000000 (Some 3600000000)) (mk_state Demo.chat []).
Proof.
  apply (aware_timestamps_render_by_instant Demo.quiet (Demo.fresh 0%nat None)
           (mk_state Demo.chat []) (Demo.utc 60)
           (mk_datetime 3660000000 (Some 3600000000)));
    [discriminate | discriminate | discriminate | reflexivity].
Defined.

(** ** Role icons *)

(** X4. For an author the guild knows as a member, [_gather_user_icon] asks
    the guild once and answers with the icon of the highest of the member's
    roles, the guild's default role apart, that carry an icon: an [img] tag
    with the icon's address. It answers with the empty string when no such
    role carries an icon. *)
Theorem user_icon_is_highest_role_icon (E : Env) (author member : User.t)
    (s : State) :
  guild_fetch_member E (User.id author) = Ok (Some member) →
  let out := _gather_user_icon E (Some author) s in
  calls out.2 = (calls s ++ [CallFetchMember (User.id author)])%list
  ∧ ((∃ top i, top_iconed E member top i ∧ out.1 = Ok (role_icon_tag i))
     ∨ ((∀ r, eligible E member r → Role.icon r = None) ∧ out.1 = Ok "")).
Proof.
  intros Hm.
  cbv [_gather_user_icon _gather_member fetch_member bind record lift ret].
  rewrite Hm. cbv beta iota.
  pose proof (find_reverse_ascending has_icon _
                (sorted_ascending
                   (filter (λ r, Role.id r ≠ guild_id E) (User.roles member))))
    as Hfind.
  destruct (List.find has_icon _) as [top|].
  - destruct Hfind as (Hin & Hicon & Hmax).
    apply filter_eligible in Hin.
    unfold has_icon in Hicon. apply bool_decide_eq_true in Hicon as [i Hi].
    cbn [mbind option_bind]. rewrite Hi. cbn [fst snd calls].
    split; [reflexivity |]. left. exists top, i. split.
    + split; [exact Hin |]. split; [exact Hi |].
      intros r Hr Hri. apply Hmax; [apply filter_eligible; exact Hr |].
      unfold has_icon. apply bool_decide_eq_true.
      destruct (Role.icon r); [eauto | congruence].
    + destruct i; reflexivity.
  - cbn [mbind option_bind fst snd calls]. split; [reflexivity |]. right.
    split; [| reflexivity].
    intros r Hr. apply filter_eligible in Hr. apply Hfind in Hr.
    unfold has_icon in Hr. apply bool_decide_eq_false in Hr.
    destruct (Role.icon r); [exfalso; apply Hr; eauto | reflexivity].
Qed.

Lemma user_icon_is_highest_role_icon_example :
  ∃ top i,
    top_iconed Demo.coloured (Demo.member 100 "A" Demo.colours) top i
    ∧ (_gather_user_icon Demo.coloured (Some Demo.alice) (mk_state Demo.chat [])).1
      = Ok (role_icon_tag i).
Proof.
  destruct (user_icon_is_highest_role_icon Demo.coloured Demo.alice
              (Demo.member 100 "A" Demo.colours) (mk_state Demo.chat []) eq_refl)
    as [_ [(top & i & H) | (_ & H)]].
  - exists top, i. exact H.
  - exfalso. revert H. vm_compute. discriminate.
Defined.

(** ** Assets *)

Lemma flow_all_run (flow : Asset → Result string) (l : list Asset) :
  ∀ acc s,
    match fragments_of flow l with
    | Some ts => flow_all flow acc l s = (Ok (acc +:+ join ts), s)
    | None => ∃ e, flow_all flow acc l s = (Raise e, s)
    end.
Proof.
  induction l as [|a l IH]; intros acc s; simpl.
  - unfold ret. rewrite append_empty_r. reflexivity.
  - unfold bind, lift. destruct (flow a) as [t|e]; [| eauto].
    specialize (IH (acc +:+ t) s).
    destruct (fragments_of flow l) as [ts|].
    + rewrite IH. simpl. rewrite append_assoc. reflexivity.
    + exact IH.
Qed.

Lemma join_empty (l : list string) : join l = "" ↔ ∀ x, In x l → x = "".
Proof.
  induction l as [|a l IH]; simpl.
  - split; [intros _ x [] | reflexivity].
  - rewrite append_empty, IH. split.
    + intros [-> H] x [<- | Hx]; [reflexivity | exact (H x Hx)].
    + intros H. split; [apply H; left; reflexivity | intros x Hx; apply H; right; exact Hx].
Qed.

Lemma iterate_flow_all_run (flow : Asset → Result string) (v : option (list Asset))
    {A} (k : string → M A) acc s :
  bind (iterate v) (λ l, bind (flow_all flow acc l) k) s
  = match v with
    | None => (Raise TypeError, s)
    | Some l =>
        match fragments flow v with
        | Some ts => k (acc +:+ join ts) s
        | None => (bind (flow_all flow acc l) k s)
        end
    end
  ∧ (fragments flow v = None →
     ∃ e, bind (iterate v) (λ l, bind (flow_all flow acc l) k) s = (Raise e, s)).
Proof.
  destruct v as [l|]; [| split; [reflexivity | eauto]].
  unfold fragments. cbn [mbind option_bind]. unfold bind at 1. unfold iterate, ret.
  pose proof (flow_all_run flow l acc s) as Hrun.
  destruct (fragments_of flow l) as [ts|].
  - split; [| discriminate]. unfold bind. rewrite Hrun. reflexivity.
  - split; [reflexivity |]. intros _. destruct Hrun as [e He].
    exists e. unfold bind. rewrite He. reflexivity.
Qed.

Ltac settle_assets :=
  repeat split; intros;
  repeat match goal with
    | H : is_Some None |- _ => destruct H as [? H]; discriminate H
    end;
  try reflexivity; try discriminate; try congruence; eauto.

(** X5. [build_assets] returns exactly when each of the four asset
    attributes of the message is a list and its renderer returns for every
    item. It then appends the fragments to the builder's attributes in the
    order the message lists them, and leaves the reactions attribute empty if
    and only if it was empty and every reaction fragment is empty; otherwise
    the reactions are wrapped in their container. An attribute that is
    [None] makes it raise [TypeError] once the attributes before it are
    rendered, in the order embeds, attachments, components, reactions. No
    message object is touched in any case. *)
Theorem build_assets_outcomes (E : Env) (self : MessageConstruct) (s : State) :
  let m := heap s (message self) in
  let out := build_assets E self s in
  let es := fragments (Embed_flow E) (Message.embeds m) in
  let ats := fragments (Attachment_flow E) (Message.attachments m) in
  let cs := fragments (Component_flow E) (Message.components m) in
  let rs := fragments (Reaction_flow E) (Message.reactions m) in
  out.2 = s
  ∧ match es, ats, cs, rs with
    | Some es, Some ats, Some cs, Some rs =>
        ∃ self',
          out.1 = Ok self'
          ∧ embeds self' = embeds self +:+ join es
          ∧ attachments self' = attachments self +:+ join ats
          ∧ components self' = components self +:+ join cs
          ∧ (reactions self' = "" ↔ reactions self = "" ∧ ∀ t, In t rs → t = "")
          ∧ (reactions self' ≠ "" →
             reactions self' = reactions_container (reactions self +:+ join rs))
          ∧ message_html self' = message_html self
          ∧ same_request self self'
    | _, _, _, _ => ∃ e, out.1 = Raise e
    end
  ∧ (Message.embeds m = None → out.1 = Raise TypeError)
  ∧ (is_Some es → Message.attachments m = None → out.1 = Raise TypeError)
  ∧ (is_Some es → is_Some ats → Message.components m = None →
     out.1 = Raise TypeError)
  ∧ (is_Some es → is_Some ats → is_Some cs → Message.reactions m = None →
     out.1 = Raise TypeError).
Proof.
  cbv zeta.
  split; [exact (build_assets_untouched E self s) |].
  remember (build_assets E self s) as out eqn:Hout.
  unfold build_assets in Hout. unfold bind at 1 in Hout. unfold load at 1 in Hout.
  set (m := heap s (message self)) in *.
  match type of Hout with
  | context [bind (iterate ?v) (λ l, bind (flow_all ?f ?acc l) ?k) s] =>
      destruct (iterate_flow_all_run f v k acc s) as [H1 F1]
  end.
  destruct (Message.embeds m) as [l1|] eqn:He.
  2: { rewrite H1 in Hout. subst out. cbn [fragments mbind option_bind fst].
       settle_assets. }
  destruct (fragments (Embed_flow E) (Some l1)) as [es|].
  2: { destruct (F1 eq_refl) as [e He']. rewrite He' in Hout. subst out. cbn [fst].
       settle_assets. }
  rewrite H1 in Hout. clear H1 F1.
  match type of Hout with
  | context [bind (iterate ?v) (λ l, bind (flow_all ?f ?acc l) ?k) s] =>
      destruct (iterate_flow_all_run f v k acc s) as [H2 F2]
  end.
  destruct (Message.attachments m) as [l2|] eqn:Ha.
  2: { rewrite H2 in Hout. subst out. cbn [fragments mbind option_bind fst].
       settle_assets. }
  destruct (fragments (Attachment_flow E) (Some l2)) as [ats|].
  2: { destruct (F2 eq_refl) as [e He']. rewrite He' in Hout. subst out. cbn [fst].
       settle_assets. }
  rewrite H2 in Hout. clear H2 F2.
  match type of Hout with
  | context [bind (iterate ?v) (λ l, bind (flow_all ?f ?acc l) ?k) s] =>
      destruct (iterate_flow_all_run f v k acc s) as [H3 F3]
  end.
  destruct (Message.components m) as [l3|] eqn:Hc.
  2: { rewrite H3 in Hout. subst out. cbn [fragments mbind option_bind fst].
       settle_assets. }
  destruct (fragments (Component_flow E) (Some l3)) as [cs|].
  2: { destruct (F3 eq_refl) as [e He']. rewrite He' in Hout. subst out. cbn [fst].
       settle_assets. }
  rewrite H3 in Hout. clear H3 F3.
  match type of Hout with
  | context [bind (iterate ?v) (λ l, bind (flow_all ?f ?acc l) ?k) s] =>
      destruct (iterate_flow_all_run f v k acc s) as [H4 F4]
  end.
  destruct (Message.reactions m) as [l4|] eqn:Hr.
  2: { rewrite H4 in Hout. subst out. cbn [fragments mbind option_bind fst].
       settle_assets. }
  destruct (fragments (Reaction_flow E) (Some l4)) as [rs|].
  2: { destruct (F4 eq_refl) as [e He']. rewrite He' in Hout. subst out. cbn [fst].
       settle_assets. }
  rewrite H4 in Hout. clear H4 F4. unfold ret in Hout. subst out. cbn [fst].
  split; [| settle_assets].
  eexists. split; [reflexivity |].
  cbn [embeds attachments components reactions message_html set_assets].
  do 3 (split; [reflexivity |]).
  set (inner := reactions self +:+ join rs).
  assert (inner = "" ↔ reactions self = "" ∧ ∀ t, In t rs → t = "") as Hinner.
  { unfold inner. rewrite append_empty, join_empty. reflexivity. }
  destruct (String.eqb inner "") eqn:Heq; cbn [negb].
  - apply eqb_empty in Heq. split; [| split; [congruence | repeat split]].
    rewrite <- Hinner. split; intros _; assumption.
  - assert (inner ≠ "") as Hne.
    { intros H. apply eqb_empty in H. congruence. }
    split; [| split; [reflexivity | repeat split]].
    rewrite <- Hinner. split; [discriminate | intros H; contradiction].
Qed.

(** A message whose components the library left unset cannot be built. *)
Lemma build_assets_outcomes_bare :
  (build_assets Demo.quiet (Demo.fresh 0%nat None) (mk_state Demo.chat_bare [])).1
  = Raise TypeError.
Proof.
  refine (proj1 (proj2 (proj2 (proj2 (proj2
            (build_assets_outcomes Demo.quiet (Demo.fresh 0%nat None)
               (mk_state Demo.chat_bare [])))))) _ _ eq_refl);
    eexists; reflexivity.
Defined.

(** ** Interactions *)



(** ** Pin notices *)

(** X7. A pin notice whose reply-reference is not a reference object (a
    pin notice that names no pinned message) cannot be constructed:
    [construct_message] closes the previous block, asks the guild for the
    author and then raises, the error of that lookup if it raised and
    [AttributeError] otherwise. No object has changed. *)
Theorem pin_notice_needs_its_reference (E : Env) (self : MessageConstruct)
    (s : State) :
  Message.type (heap s (message self)) = CHANNEL_PINNED_MESSAGE →
  (∀ r, Message.message_reference (heap s (message self)) ≠ PyReference r) →
  let author := Message.author (heap s (message self)) in
  let out := construct_message E self s in
  out.1 = Raise match guild_fetch_member E (User.id author) with
                | Raise e => e
                | Ok _ => AttributeError
                end
  ∧ calls out.2
    = (calls s ++ closing_calls self ++ [CallFetchMember (User.id author)])%list
  ∧ heap out.2 = heap s.
Proof.
  intros Htype Href.
  destruct (generate_message_divider_audit E self s)
    as (self' & s' & Hdiv & Hcalls & Hheap & Hm & _).
  cbv zeta.
  assert (construct_message E self s
          = (Raise match guild_fetch_member E
                           (User.id (Message.author (heap s (message self)))) with
                   | Raise e => e
                   | Ok _ => AttributeError
                   end,
             {| heap := heap s;
                calls := calls s ++ closing_calls self
                         ++ [CallFetchMember
                               (User.id (Message.author (heap s (message self))))] |}))
    as ->; [| auto].
  unfold construct_message. unfold bind at 1. unfold load. rewrite Htype.
  unfold bind at 1. unfold build_pin. rewrite (bind_Ok_eq _ _ _ _ _ Hdiv).
  cbv [build_pin_template bind load _gather_user_colour _gather_member fetch_member
       record lift ret fst snd].
  rewrite Hheap, Hm, Hcalls, <- app_assoc.
  destruct (guild_fetch_member E _) as [member|e]; cbn [fst snd heap calls];
    [| reflexivity].
  cbv [getattr_reference raise ret].
  destruct (Message.message_reference (heap s (message self))) as [| |r|] eqn:Hr;
    try (exfalso; exact (Href r eq_refl)); reflexivity.
Qed.

Lemma pin_notice_needs_its_reference_example :
  (construct_message Demo.quiet (Demo.fresh 0%nat None)
     (mk_state Demo.chat_pin_bare [])).1 = Raise AttributeError.
Proof.
  exact (proj1 (pin_notice_needs_its_reference Demo.quiet (Demo.fresh 0%nat None)
                  (mk_state Demo.chat_pin_bare []) eq_refl
                  (λ r H, eq_ind PyNone
                            (λ v, match v with PyNone => True | _ => False end)
                            I _ H))).
Defined.

(** ** Replies *)

Lemma render_reference_content (E : Env) (self : MessageConstruct) (target : loc)
    (s s' : State) :
  render_reference E self target s = (Ok tt, s') →
  ∀ l, Message.content (heap s' l)
       = if decide (l = target) then placeholder (heap s target)
         else Message.content (heap s l).
Proof.
  unfold render_reference. unfold bind at 1. unfold load at 1. intros H.
  apply bind_Ok in H as (colour & s1 & Hcolour & H).
  apply bind_Ok in H as ([] & s2 & Hstore & H).
  unfold bind at 1, load at 1 in H.
  apply bind_Ok in H as (times & s3 & Htimes & H).
  unfold bind at 1, load at 1 in H.
  apply bind_Ok in H as (ref & s4 & Href & H).
  apply bind_Ok in H as (banner & s5 & Hfill & H).
  apply (keeps_run same_heap) in Hcolour; [| auto with keeps].
  apply (keeps_run untouched) in Htimes; [| auto with keeps].
  apply (keeps_run untouched) in Href; [| auto with keeps].
  apply (keeps_run same_heap) in Hfill; [| auto with keeps].
  unfold untouched in *. subst s3 s4.
  injection H as <-. intros l. cbn [heap].
  assert (Message.content (heap s2 l)
          = if decide (l = target) then placeholder (heap s target)
            else Message.content (heap s l)) as <-.
  { unfold placeholder.
    destruct (String.eqb (Message.content (heap s target)) "") eqn:Hc;
      destruct (truthy (Message.interaction (heap s target)));
      cbn [negb andb] in Hstore; injection Hstore as <-; cbn [heap];
      destruct (decide (l = target)) as [->|]; cbn [Message.content Message.set_content];
      rewrite ?Hcolour; reflexivity. }
  destruct (decide (l = message self)) as [->|]; rewrite Hfill; reflexivity.
Qed.

(** X8. A construction writes into the message it replies to. When
    [build_reference] returns for a message that carries a reply-reference, the
    message the reference resolves to (the one [message_dict] holds at that
    id, or else the one the channel returns) is left with a placeholder for
    content if it had none: "Click to see command" when it carries an
    interaction, "Click to see attachment" otherwise. The content of every
    other message, and of the referenced message when it had one, is what it
    was; nothing is written when the reference does not resolve. *)
Theorem reference_rendering_fills_empty_content (E : Env) (self : MessageConstruct)
    (s : State) (r : MessageReference) (s' : State) :
  Message.message_reference (heap s (message self)) = PyReference r →
  build_reference E self s = (Ok tt, s') →
  ∀ l, Message.content (heap s' l)
       = if decide (reference_target E self (heap s (message self)) r = Some l)
         then placeholder (heap s l)
         else Message.content (heap s l).
Proof.
  intros Hr. unfold build_reference, reference_target.
  unfold bind at 1. unfold load at 1. rewrite Hr.
  cbn [truthy negb getattr_reference]. unfold bind at 1. unfold ret at 1.
  destruct (message_dict self !! message_id r) as [target|].
  - unfold bind at 1. unfold ret at 1. intros H l.
    rewrite (render_reference_content _ _ _ _ _ H l).
    destruct (decide (l = target)) as [->|Hne].
    + rewrite decide_True by reflexivity. reflexivity.
    + rewrite decide_False by congruence. reflexivity.
  - unfold bind at 1, try_except_HTTPException, bind at 1, fetch_message, bind at 1,
      record, lift.
    destruct (channel_fetch_message E _ _) as [target|e].
    + unfold ret at 1. intros H l.
      rewrite (render_reference_content _ _ _ _ _ H l). cbn [heap].
      destruct (decide (l = target)) as [->|Hne].
      * rewrite decide_True by reflexivity. reflexivity.
      * rewrite decide_False by congruence. reflexivity.
    + destruct (isinstance_HTTPException e); [| discriminate].
      unfold reference_not_fetched, bind, store, ret.
      destruct (isinstance_NotFound e); cbv beta iota zeta;
        intros [= <-] l;
        rewrite (decide_False (P := None = Some l)) by (intro; discriminate);
        cbn [heap];
        repeat (case_decide; cbn [heap]);
        cbn [Message.content Message.set_message_reference]; congruence.
Qed.

(** The reply of the example: the message replied to had no content, and has
    the placeholder afterwards. *)
Lemma reference_rendering_fills_empty_content_answer :
  Message.content (heap (build_reference Demo.found (Demo.fresh 1%nat (Some 0%nat))
                           (mk_state Demo.chat_answer [])).2 0%nat)
  = "Click to see attachment".
Proof.
  destruct (build_reference Demo.found (Demo.fresh 1%nat (Some 0%nat))
              (mk_state Demo.chat_answer [])) as [[[]|e] s'] eqn:H.
  - exact (reference_rendering_fills_empty_content Demo.found
             (Demo.fresh 1%nat (Some 0%nat)) (mk_state Demo.chat_answer [])
             (mk_reference 1 10) s' eq_refl H 0%nat).
  - exfalso. revert H. vm_compute. discriminate.
Defined.

(** ** Building a message twice *)

Lemma build_content_run (E : Env) (self : MessageConstruct) (s : State) :
  ∃ self1 s1,
    build_content E self s = (Ok self1, s1)
    ∧ message self1 = message self
    ∧ (∀ l, Message.message_reference (heap s1 l) = Message.message_reference (heap s l))
    ∧ (∀ l, Message.interaction (heap s1 l) = Message.interaction (heap s l))
    ∧ (calls s1 = calls s
       ∨ calls s1 = (calls s ++ [CallFillOut html_generator.message_content])%list).
Proof.
  cbv [build_content bind load store fill_out record ret].
  destruct (String.eqb (Message.content (heap s (message self))) "");
    [| destruct (negb (String.eqb (message_edited_at self) ""));
       cbn [message set_times] ];
    (eexists _, _; split; [reflexivity |]); cbn [heap calls];
    (split; [reflexivity |]);
    (split; [| split; [| auto] ]);
    intros l; repeat (case_decide; cbn [heap]);
    cbn [Message.message_reference Message.interaction Message.set_content];
    congruence.
Qed.

Lemma truthy_markup (v : PyValue) : holds_markup v → truthy v = true.
Proof.
  intros (text & -> & Hne). simpl. apply negb_true_iff.
  destruct (String.eqb text "") eqn:H; [| reflexivity].
  apply eqb_empty in H. contradiction.
Qed.

(** X9. Building is not repeatable. A message whose reply-reference field
    already holds a non-empty banner, or whose reply-reference is empty or
    absent and whose interaction field already holds a non-empty banner (the
    state in which a construction leaves a reply or a command), cannot be
    built as an ordinary message again: [construct_message] raises
    [AttributeError], having filled at most the content template. *)
Theorem rendered_message_cannot_be_built_again (E : Env) (self : MessageConstruct)
    (s : State) :
  let m := heap s (message self) in
  is_audit (Message.type m) = false →
  holds_markup (Message.message_reference m)
  ∨ (truthy (Message.message_reference m) = false
     ∧ holds_markup (Message.interaction m)) →
  let out := construct_message E self s in
  out.1 = Raise AttributeError
  ∧ (calls out.2 = calls s
     ∨ calls out.2 = (calls s ++ [CallFillOut html_generator.message_content])%list).
Proof.
  intros m Haudit Hheld. subst m. cbv zeta.
  destruct (build_content_run E self s)
    as (self1 & s1 & Hcontent & Hm & Hrefs & Hints & Hcalls).
  assert (∃ s2, build_message E self s = (Raise AttributeError, s2)
                ∧ calls s2 = calls s1) as (s2 & Hrun & Hs2).
  { unfold build_message. rewrite (bind_Ok_eq _ _ _ _ _ Hcontent).
    destruct Hheld as [Hheld | [Hfalse Hheld]].
    - pose proof (truthy_markup _ Hheld) as Htrue.
      destruct Hheld as (text & Htext & _).
      eexists. split; [| reflexivity].
      cbv [bind build_reference load]. rewrite Hm, Hrefs, Htrue, Htext. reflexivity.
    - pose proof (truthy_markup _ Hheld) as Htrue.
      destruct Hheld as (text & Htext & _).
      eexists. split.
      + unfold bind at 1. cbv [build_reference bind load store].
        rewrite Hm, Hrefs, Hfalse. cbn [negb heap].
        cbv [build_interaction bind load]. cbn [heap]. rewrite ?Hm.
        rewrite decide_True by reflexivity. cbn [Message.interaction Message.set_message_reference].
        rewrite Hints, Htrue, Htext. reflexivity.
      + reflexivity. }
  assert (construct_message E self s = (Raise AttributeError, s2)) as ->.
  { unfold construct_message. unfold bind at 1. unfold load.
    unfold bind.
    destruct (Message.type (heap s (message self))); try discriminate;
      rewrite Hrun; reflexivity. }
  split; [reflexivity |]. cbn [snd]. rewrite Hs2. exact Hcalls.
Qed.

Lemma rendered_message_cannot_be_built_again_example :
  (construct_message Demo.quiet (Demo.fresh 0%nat None)
     (mk_state Demo.chat_rendered [])).1 = Raise AttributeError.
Proof.
  refine (proj1 (rendered_message_cannot_be_built_again Demo.quiet
                   (Demo.fresh 0%nat None) (mk_state Demo.chat_rendered [])
                   eq_refl (or_introl _))).
  exists "[reference]". split; [reflexivity | discriminate].
Defined.

(** ** What a transcript asks of the platform *)

Lemma keeps_bind_at (R : State → State → Prop) `{!PreOrder R} {A B}
    (c : M A) (k : A → M B) s0 s :
  R s0 (c s).2 → (∀ a, keeps R (k a)) → R s0 (bind c k s).2.
Proof.
  intros Hc Hk. unfold bind. destruct (c s) as [[a|e] s1]; simpl in *; [| exact Hc].
  etransitivity; [exact Hc | apply Hk].
Qed.

Lemma fetch_channel_appends (E : Env) (P : Call → bool) c :
  P (CallFetchChannel c) = true → keeps (appends P) (fetch_channel E c).
Proof. intros H. unfold fetch_channel. keeps_auto. Qed.

Section traces.
Context (E : Env) (P : Call → bool).
Hypothesis member_calls : ∀ u, P (CallFetchMember u) = true.
Hypothesis message_calls : ∀ c m, P (CallFetchMessage c m) = true.
Hypothesis fill_calls : ∀ t, P (CallFillOut t) = true.

Lemma construct_message_appends self :
  keeps (appends P) (construct_message E self).
Proof.
  unfold construct_message, build_pin, build_thread, build_thread_remove,
    build_thread_add, build_remove, build_add, build_message, build_reference,
    reference_not_fetched.
  keeps_auto.
Qed.

Lemma gather_loop_appends tz mil dict messages :
  ∀ previous html meta,
    keeps (appends P) (gather_loop E tz mil dict messages previous html meta).
Proof.
  induction messages as [|l rest IH]; intros previous html meta; simpl.
  - keeps_auto.
  - refine (keeps_bind _ _ _ _ _); [auto with keeps | intros self].
    refine (keeps_bind _ _ _ _ _); [apply construct_message_appends | intros built].
    apply IH.
Qed.

End traces.

(** ** Replies inside the transcript *)

Global Instance local_replies_preorder dict : PreOrder (local_replies dict).
Proof.
  split.
  - intros s l H. exact H.
  - intros a b c Hab Hbc l H. apply Hbc, Hab, H.
Qed.

Lemma same_heap_local_replies dict s s' : same_heap s s' → local_replies dict s s'.
Proof. intros H l. rewrite (H l). auto. Qed.

Lemma keeps_store_local_replies dict l f :
  (∀ m, resolves_locally dict m → resolves_locally dict (f m)) →
  keeps (local_replies dict) (store l f).
Proof.
  intros Hf s l'. simpl. destruct (decide (l' = l)) as [->|]; auto.
Qed.

Global Hint Extern 4 (keeps (local_replies _) _) =>
  refine (untouched_keeps (local_replies _) _ _) : keeps.
Global Hint Extern 5 (keeps (local_replies _) _) =>
  refine (keeps_weaken same_heap (local_replies _) _ (same_heap_local_replies _) _)
  : keeps.
Global Hint Extern 3 (keeps (local_replies _) (store _ _)) =>
  refine (keeps_store_local_replies _ _ _ _); intros ? ?; solve [assumption | exact I]
  : keeps.

Global Hint Resolve fetch_message_same_heap fetch_channel_same_heap : keeps.

Lemma assign_message_reference_local_replies dict l v :
  keeps (local_replies dict) (assign_message_reference l v).
Proof. unfold assign_message_reference. keeps_auto. Qed.

Global Hint Resolve assign_message_reference_local_replies : keeps.

Lemma construct_message_local_replies (E : Env) dict self :
  keeps (local_replies dict) (construct_message E self).
Proof.
  unfold construct_message, build_message, build_content, build_reference,
    reference_not_fetched, render_reference, build_interaction.
  keeps_auto.
Qed.

Lemma build_reference_local (E : Env) self s :
  resolves_locally (message_dict self) (heap s (message self)) →
  appends not_message_fetch s (build_reference E self s).2.
Proof.
  unfold resolves_locally, build_reference. intros Hlocal.
  unfold bind at 1. unfold load at 1.
  destruct (negb (truthy (Message.message_reference (heap s (message self))))).
  { apply (keeps_at _ _ s s); [reflexivity | keeps_auto]. }
  destruct (Message.message_reference (heap s (message self))) as [| |r|];
    try (exists []; rewrite app_nil_r; split; reflexivity).
  destruct Hlocal as [target Htarget].
  unfold getattr_reference. unfold bind at 1. unfold ret at 1. rewrite Htarget.
  unfold bind at 1. unfold ret at 1.
  apply (keeps_at _ _ s s); [reflexivity |].
  apply render_reference_appends; reflexivity.
Qed.

Lemma construct_message_local (E : Env) self s :
  resolves_locally (message_dict self) (heap s (message self)) →
  appends not_message_fetch s (construct_message E self s).2.
Proof.
  intros Hlocal. unfold construct_message, bind at 1, load. rewrite bind_ret_state.
  assert (∀ k : MessageConstruct → M MessageConstruct,
            (∀ self', keeps (appends not_message_fetch) (k self')) →
            appends not_message_fetch s
              (bind (generate_message_divider E self true) (λ started, k started.1) s).2)
    as Haudit.
  { intros k Hk. apply (keeps_at _ _ s s); [reflexivity |]. keeps_auto. }
  assert (appends not_message_fetch s (build_message E self s).2) as Hnormal.
  { unfold build_message, bind at 1.
    pose proof (build_content_appends E not_message_fetch self eq_refl s) as A1.
    destruct (build_content_run E self s) as (self1 & s1 & H1 & Hm & Hrefs & _).
    pose proof (build_content_request E _ _ _ _ H1) as (_ & _ & Hdict & _).
    rewrite H1 in *. simpl in A1.
    refine (keeps_bind_at _ _ _ _ _ _ _).
    - etransitivity; [exact A1 |]. apply build_reference_local.
      unfold resolves_locally in *. rewrite Hm, Hrefs, Hdict. exact Hlocal.
    - intros _. keeps_auto. }
  destruct (Message.type (heap s (message self))); try exact Hnormal.
  - apply (Haudit (build_add E)). intros. unfold build_add. auto with keeps.
  - apply (Haudit (build_remove E)). intros. unfold build_remove. auto with keeps.
  - apply (Haudit (build_pin_template E)). intros. auto with keeps.
  - apply (Haudit (build_thread_template E)). intros. auto with keeps.
Qed.

Lemma gather_loop_local (E : Env) tz mil dict messages :
  ∀ previous html meta s,
    (∀ l, In l messages → resolves_locally dict (heap s l)) →
    appends not_message_fetch s
      (gather_loop E tz mil dict messages previous html meta s).2.
Proof.
  induction messages as [|l rest IH]; intros previous html meta s Hlocal; simpl.
  - reflexivity.
  - unfold bind at 1.
    destruct (MessageConstruct_init E l previous tz mil meta dict s)
      as [[self|e] s1] eqn:Hinit.
    2: { apply (keeps_run untouched) in Hinit; [| auto with keeps].
         rewrite Hinit. reflexivity. }
    apply MessageConstruct_init_fields in Hinit as (-> & Hl & _ & _ & Hdict & _).
    unfold bind at 1.
    pose proof (construct_message_local E self s) as Hstep.
    pose proof (construct_message_local_replies E dict self s) as Hkeep.
    rewrite Hl, Hdict in Hstep.
    destruct (construct_message E self s) as [[built|e] s2]; simpl in Hstep, Hkeep.
    + etransitivity; [apply Hstep, Hlocal; left; reflexivity |].
      apply IH. intros l' Hl'. apply Hkeep, Hlocal. right. exact Hl'.
    + apply Hstep, Hlocal. left. reflexivity.
Qed.

(** X12. A transcript whose replies all point inside the exported list
    fetches no message. When the first message is not a reply in a thread and
    every reply-reference in the list names the id of a message of the list,
    no call of [gather_messages] fetches a message, whether the run returns or
    raises: every reply is resolved through the index built from the list. *)
Theorem replies_within_the_list_fetch_nothing (E : Env) (messages : list loc)
    (tz : string) (mil : bool) (s : State) :
  (∀ first, head messages = Some first → thread_reply (heap s first) = false) →
  (∀ l r, In l messages →
          Message.message_reference (heap s l) = PyReference r →
          ∃ l', In l' messages ∧ Message.id (heap s l') = message_id r) →
  ∃ d, calls (gather_messages E messages tz mil s).2 = (calls s ++ d)%list
       ∧ forallb not_message_fetch d = true.
Proof.
  intros Hfirst Hinside.
  change (appends not_message_fetch s (gather_messages E messages tz mil s).2).
  unfold gather_messages. unfold bind at 1. unfold index_messages.
  destruct messages as [|first rest]; [reflexivity |].
  assert (anchor_thread E (first :: rest) s = (Ok (first :: rest), s)) as Hanchor.
  { unfold anchor_thread, bind, load. specialize (Hfirst first eq_refl).
    unfold thread_reply in Hfirst. rewrite Hfirst. reflexivity. }
  rewrite (bind_Ok_eq _ _ _ _ _ Hanchor).
  refine (keeps_bind_at _ _ _ _ _ _ _); [| intros result; keeps_auto].
  apply gather_loop_local. intros l Hl. unfold resolves_locally.
  destruct (Message.message_reference (heap s l)) as [| |r|] eqn:Hr; try exact I.
  destruct (Hinside l r Hl Hr) as (l' & Hl' & Hid).
  rewrite index_lookup.
  destruct (last _) as [x|] eqn:Hlast; [eauto |].
  apply last_None in Hlast.
  assert (l' ∈ filter (λ l0, Message.id (heap s l0) = message_id r) (first :: rest))
    as Helem.
  { apply list_elem_of_filter. split; [exact Hid |]. apply list_elem_of_In, Hl'. }
  rewrite Hlast in Helem. inversion Helem.
Qed.

Lemma replies_within_the_list_fetch_nothing_answer :
  ∃ d, calls (gather_messages Demo.quiet [0%nat; 1%nat] "UTC" true
                (mk_state Demo.chat_answer [])).2 = d
       ∧ forallb not_message_fetch d = true.
Proof.
  refine (replies_within_the_list_fetch_nothing Demo.quiet [0%nat; 1%nat] "UTC" true
            (mk_state Demo.chat_answer []) _ _).
  - intros first [= <-]. reflexivity.
  - intros l r [<- | [<- | []]] Hr.
    + discriminate Hr.
    + injection Hr as <-. exists 0%nat. split; [left; reflexivity | reflexivity].
Defined.

(** ** Blocks *)

Lemma _gather_user_colour_run (E : Env) (a : User.t) (s : State) :
  ∃ r, _gather_user_colour E (Some a) s
       = (r, {| heap := heap s; calls := calls s ++ [CallFetchMember (User.id a)] |}).
Proof.
  cbv [_gather_user_colour _gather_member fetch_member bind record lift ret].
  destruct (guild_fetch_member E (User.id a)); eexists; reflexivity.
Qed.

Lemma _gather_user_icon_run (E : Env) (a : User.t) (s : State) :
  ∃ r, _gather_user_icon E (Some a) s
       = (r, {| heap := heap s; calls := calls s ++ [CallFetchMember (User.id a)] |}).
Proof.
  cbv [_gather_user_icon _gather_member fetch_member bind record lift ret].
  destruct (guild_fetch_member E (User.id a)) as [[member|]|e];
    try (eexists; reflexivity).
  destruct (List.find has_icon _ ≫= Role.icon); eexists; reflexivity.
Qed.

Lemma fill_out_run (E : Env) t subs s :
  fill_out E t subs s
  = (Ok (html_fill_out E t subs),
     {| heap := heap s; calls := calls s ++ [CallFillOut t] |}).
Proof. reflexivity. Qed.

Lemma divider_header_trace (E : Env) self s r s' :
  divider_header E self s = (Ok r, s') →
  calls s' = (calls s ++ header_calls (User.id (Message.author (heap s (message self)))))%list
  ∧ r.2 = true.
Proof.
  unfold divider_header. unfold bind at 1. unfold load at 1. intros H.
  apply bind_Ok in H as (time & s1 & Htime & H).
  apply (keeps_run untouched) in Htime; [| keeps_auto]. unfold untouched in Htime.
  subst s1.
  apply bind_Ok in H as (tz & s2 & Htz & H).
  apply (keeps_run untouched) in Htz; [| auto with keeps]. unfold untouched in Htz.
  subst s2.
  apply bind_Ok in H as (colour & s3 & Hcolour & H).
  destruct (_gather_user_colour_run E (Message.author (heap s (message self))) s)
    as [rc Hrc].
  rewrite Hrc in Hcolour. injection Hcolour as _ <-.
  apply bind_Ok in H as (icon & s4 & Hicon & H).
  match type of Hicon with
  | _gather_user_icon _ (Some ?a) ?st = _ =>
      destruct (_gather_user_icon_run E a st) as [ri Hri]
  end.
  rewrite Hri in Hicon. injection Hicon as _ <-.
  apply bind_Ok in H as (opening & s5 & Hfill & H).
  rewrite fill_out_run in Hfill. injection Hfill as _ <-.
  injection H as <- <-. cbn [calls heap snd]. split; [| reflexivity].
  unfold header_calls. rewrite <- !app_assoc. reflexivity.
Qed.

Lemma generate_message_divider_trace (E : Env) self s self' started s' :
  generate_message_divider E self false s = (Ok (self', started), s') →
  (previous_message self = None → started = true)
  ∧ calls s'
    = (calls s ++ if started
                  then closing_calls self
                       ++ header_calls (User.id (Message.author (heap s (message self))))
                  else [])%list.
Proof.
  unfold generate_message_divider. intros H.
  apply bind_Ok in H as (check & s1 & Hcheck & H).
  pose proof (keeps_run untouched _ _ _ _
                (_generate_message_divider_check_untouched self) Hcheck) as Hs1.
  unfold untouched in Hs1. subst s1.
  assert (previous_message self = None → check = true) as Hfirst.
  { intros Hp. revert Hcheck. unfold _generate_message_divider_check, bind, load.
    rewrite Hp. intros [= <-]. reflexivity. }
  destruct check.
  - apply bind_Ok in H as (self1 & s1 & Hclose & H).
    assert (calls s1 = (calls s ++ closing_calls self)%list
            ∧ heap s1 = heap s ∧ message self1 = message self) as (Hc1 & Hh1 & Hm1).
    { unfold closing_calls. destruct (previous_message self).
      - revert Hclose. unfold bind. rewrite fill_out_run. intros [= <- <-].
        repeat split.
      - injection Hclose as <- <-. rewrite app_nil_r. repeat split. }
    apply divider_header_trace in H as (Hcalls & Hstarted). simpl in Hstarted.
    subst started. split; [reflexivity |].
    rewrite Hcalls, Hc1, Hh1, Hm1, <- app_assoc. reflexivity.
  - injection H as <- <- <-. split; [exact Hfirst |]. rewrite app_nil_r. reflexivity.
Qed.

Lemma build_message_template_trace (E : Env) self s self' s' :
  build_message_template E self s = (Ok self', s') →
  calls s'
  = (calls s ++ closing_calls self
       ++ header_calls (User.id (Message.author (heap s (message self)))))%list
  ∨ (previous_message self ≠ None
     ∧ calls s' = (calls s ++ [CallFillOut html_generator.message_body])%list).
Proof.
  unfold build_message_template. intros H.
  apply bind_Ok in H as ([self1 started] & s1 & Hdiv & H).
  apply generate_message_divider_trace in Hdiv as (Hfirst & Hcalls).
  cbn [fst snd] in H. destruct started.
  - injection H as _ <-. left. exact Hcalls.
  - right. split; [intros Hp; specialize (Hfirst Hp); discriminate |].
    rewrite app_nil_r in Hcalls.
    unfold bind at 1, load at 1 in H.
    apply bind_Ok in H as (time & s2 & Htime & H).
    apply (keeps_run untouched) in Htime; [| keeps_auto]. unfold untouched in Htime.
    subst s2.
    apply bind_Ok in H as (body & s3 & Hfill & H).
    rewrite fill_out_run in Hfill. injection Hfill as _ <-.
    injection H as _ <-. cbn [calls]. rewrite Hcalls. reflexivity.
Qed.

Global Hint Resolve fetch_channel_appends : keeps.

Lemma same_identity_author m m' : same_identity m m' → Message.author m' = Message.author m.
Proof. intros H. apply H. Qed.

Lemma same_identity_type m m' : same_identity m m' → Message.type m' = Message.type m.
Proof. intros H. apply H. Qed.

Lemma build_message_trace (E : Env) self s self' s' :
  build_message E self s = (Ok self', s') →
  ∃ pre,
    forallb no_block_call pre = true
    ∧ (calls s'
       = (calls s ++ pre ++ closing_calls self
            ++ header_calls (User.id (Message.author (heap s (message self)))))%list
       ∨ (previous_message self ≠ None
          ∧ calls s'
            = (calls s ++ pre ++ [CallFillOut html_generator.message_body])%list)).
Proof.
  unfold build_message. intros H.
  apply bind_Ok in H as (self1 & s1 & H1 & H).
  apply bind_Ok in H as ([] & s2 & H2 & H).
  apply bind_Ok in H as ([] & s3 & H3 & H).
  apply bind_Ok in H as (self4 & s4 & H4 & H).
  apply bind_Ok in H as (self5 & s5 & H5 & H).
  pose proof (keeps_run _ _ _ _ _
                (build_content_appends E no_block_call self eq_refl) H1)
    as (d1 & Hd1 & Hf1).
  pose proof (keeps_run _ _ _ _ _ (build_content_frame E self) H1) as F1.
  pose proof (build_content_request E _ _ _ _ H1) as (Hm1 & Hp1 & _).
  pose proof (keeps_run _ _ _ _ _
                (build_reference_appends E no_block_call self1
                   (λ _, eq_refl) (λ _ _, eq_refl) eq_refl) H2)
    as (d2 & Hd2 & Hf2).
  pose proof (keeps_run _ _ _ _ _ (build_reference_frame E self1) H2) as F2.
  pose proof (keeps_run _ _ _ _ _
                (build_interaction_appends E no_block_call (λ _, eq_refl) self1 eq_refl)
                H3)
    as (d3 & Hd3 & Hf3).
  pose proof (keeps_run _ _ _ _ _ (build_interaction_frame E self1) H3) as F3.
  pose proof (keeps_run _ _ _ _ _ (build_assets_untouched E self1) H4) as U4.
  pose proof (build_assets_request E _ _ _ _ H4) as (Hm4 & Hp4 & _).
  pose proof (keeps_run _ _ _ _ _ (build_meta_data_untouched E self5) H) as U6.
  unfold untouched in U4, U6. subst s4 s'.
  assert (Message.author (heap s3 (message self4))
          = Message.author (heap s (message self))) as Hauthor.
  { rewrite Hm4, Hm1.
    rewrite (same_identity_author _ _ (F3 _)), (same_identity_author _ _ (F2 _)),
      (same_identity_author _ _ (F1 _)). reflexivity. }
  assert (closing_calls self4 = closing_calls self) as Hclosing.
  { unfold closing_calls. rewrite Hp4, Hp1. reflexivity. }
  exists (d1 ++ d2 ++ d3)%list. split.
  { rewrite !forallb_app, Hf1, Hf2, Hf3. reflexivity. }
  apply build_message_template_trace in H5 as [H5 | [Hprev H5]].
  - left. rewrite H5, Hauthor, Hclosing, Hd3, Hd2, Hd1, <- !app_assoc. reflexivity.
  - right. split; [rewrite <- Hp1, <- Hp4; exact Hprev |].
    rewrite H5, Hd3, Hd2, Hd1, <- !app_assoc. reflexivity.
Qed.

Lemma construct_message_ordinary (E : Env) self s built s' :
  is_audit (Message.type (heap s (message self))) = false →
  construct_message E self s = (Ok built, s') →
  ∃ self', build_message E self s = (Ok self', s').
Proof.
  intros Haudit. unfold construct_message. unfold bind at 1. unfold load at 1.
  intros H. apply bind_Ok in H as (self' & s1 & Hbuild & [= _ <-]).
  exists self'.
  destruct (Message.type (heap s (message self))); try discriminate Haudit;
    exact Hbuild.
Qed.

Lemma construct_message_audit_trace (E : Env) self s built s' :
  is_audit (Message.type (heap s (message self))) = true →
  construct_message E self s = (Ok built, s') →
  ∃ d, calls s' = (calls s ++ closing_calls self ++ d)%list
       ∧ forallb no_block_call d = true.
Proof.
  intros Haudit. unfold construct_message. unfold bind at 1. unfold load at 1.
  intros H. apply bind_Ok in H as (self' & s1 & Hbuild & [= _ <-]).
  destruct (generate_message_divider_audit E self s)
    as (self0 & s0 & Hdiv & Hcalls & _).
  assert (∀ k : MessageConstruct → M MessageConstruct,
            (∀ self1, keeps (appends no_block_call) (k self1)) →
            bind (generate_message_divider E self true) (λ started, k started.1) s
            = (Ok self', s1) →
            ∃ d, calls s1 = (calls s ++ closing_calls self ++ d)%list
                 ∧ forallb no_block_call d = true) as Hshape.
  { intros k Hk Hrun. rewrite (bind_Ok_eq _ _ _ _ _ Hdiv) in Hrun.
    destruct (keeps_run _ _ _ _ _ (Hk _) Hrun) as (d & Hd & Hf).
    exists d. split; [| exact Hf]. rewrite Hd, Hcalls, <- app_assoc. reflexivity. }
  destruct (Message.type (heap s (message self))); try discriminate Haudit.
  - apply (Hshape (build_add E)); [| exact Hbuild].
    intros. unfold build_add. auto with keeps.
  - apply (Hshape (build_remove E)); [| exact Hbuild].
    intros. unfold build_remove. auto with keeps.
  - apply (Hshape (build_pin_template E)); [| exact Hbuild]. intros. auto with keeps.
  - apply (Hshape (build_thread_template E)); [| exact Hbuild]. intros. auto with keeps.
Qed.

(** X13. An ordinary message is rendered by exactly one of the two content
    templates, after everything else about it. When [construct_message]
    returns for a message that is not a channel audit event, its calls are:
    first calls that fill none of the block templates (content, reply banner,
    interaction banner); then either the closing of the previous block, if
    there is a previous message, followed by two lookups of the author and
    the block header, or else the continuation template alone. The second
    form occurs only when there is a previous message. *)
Theorem ordinary_message_is_rendered_once (E : Env) (self : MessageConstruct)
    (s : State) (built : string * gmap Z Aggregate) (s' : State) :
  is_audit (Message.type (heap s (message self))) = false →
  construct_message E self s = (Ok built, s') →
  ∃ pre,
    forallb no_block_call pre = true
    ∧ (calls s'
       = (calls s ++ pre ++ closing_calls self
            ++ header_calls (User.id (Message.author (heap s (message self)))))%list
       ∨ (previous_message self ≠ None
          ∧ calls s'
            = (calls s ++ pre ++ [CallFillOut html_generator.message_body])%list)).
Proof.
  intros Haudit H.
  destruct (construct_message_ordinary E self s built s' Haudit H) as [self' Hbuild].
  exact (build_message_trace E self s self' s' Hbuild).
Qed.

Lemma ordinary_message_is_rendered_once_chat :
  ∃ pre,
    forallb no_block_call pre = true
    ∧ (calls (construct_message Demo.quiet (Demo.fresh 1%nat (Some 0%nat))
                (mk_state Demo.chat [])).2
       = (pre ++ [CallFillOut html_generator.end_message] ++ header_calls 100)%list
       ∨ calls (construct_message Demo.quiet (Demo.fresh 1%nat (Some 0%nat))
                  (mk_state Demo.chat [])).2
         = (pre ++ [CallFillOut html_generator.message_body])%list).
Proof.
  destruct (construct_message Demo.quiet (Demo.fresh 1%nat (Some 0%nat))
              (mk_state Demo.chat [])) as [[built|e] s'] eqn:H.
  - destruct (ordinary_message_is_rendered_once Demo.quiet
                (Demo.fresh 1%nat (Some 0%nat)) (mk_state Demo.chat []) built s'
                eq_refl H) as (pre & Hpre & [Hcalls | [_ Hcalls]]).
    + exists pre. split; [exact Hpre |]. left. exact Hcalls.
    + exists pre. split; [exact Hpre |]. right. exact Hcalls.
  - exfalso. revert H. vm_compute. discriminate.
Defined.

(** ** Thread transcripts *)

Lemma library_thread_is_no_thread (as_number : bool) (t : ThreadType) :
  contains "thread" (ChannelType_str as_number t) = false.
Proof. destruct as_number, t; vm_compute; reflexivity. Qed.

Lemma render_reference_trace (E : Env) self target s s' :
  render_reference E self target s = (Ok tt, s') →
  ∃ d, calls s'
       = (calls s ++ d ++ [CallFillOut html_generator.message_reference])%list.
Proof.
  unfold render_reference. unfold bind at 1. unfold load at 1. intros H.
  apply bind_Ok in H as (colour & s1 & Hcolour & H).
  apply bind_Ok in H as ([] & s2 & Hstore & H).
  unfold bind at 1, load at 1 in H.
  apply bind_Ok in H as (times & s3 & Htimes & H).
  unfold bind at 1, load at 1 in H.
  apply bind_Ok in H as (ref & s4 & Href & H).
  apply bind_Ok in H as (banner & s5 & Hfill & H).
  apply (keeps_run (appends any_call)) in Hcolour as (d1 & Hd1 & _);
    [| apply _gather_user_colour_appends; reflexivity].
  apply (keeps_run (appends any_call)) in Hstore as (d2 & Hd2 & _); [| keeps_auto].
  apply (keeps_run untouched) in Htimes; [| auto with keeps].
  apply (keeps_run untouched) in Href; [| auto with keeps].
  unfold untouched in *. subst s3 s4.
  rewrite fill_out_run in Hfill. injection Hfill as _ <-.
  injection H as <-. cbn [calls].
  exists (d1 ++ d2)%list. rewrite Hd2, Hd1, <- !app_assoc. reflexivity.
Qed.

Lemma reference_not_fetched_none (E : Env) self e s found s' :
  reference_not_fetched E self e s = (Ok found, s') → found = None.
Proof.
  assert (returns (λ found, found = None) (reference_not_fetched E self e)) as H.
  { unfold reference_not_fetched. returns_auto. }
  apply H.
Qed.

Lemma build_reference_resolves (E : Env) self s r s' :
  Message.message_reference (heap s (message self)) = PyReference r →
  build_reference E self s = (Ok tt, s') →
  ∃ d, calls s' = (calls s ++ d)%list ∧ existsb resolves_reply d = true.
Proof.
  intros Hr. unfold build_reference.
  unfold bind at 1. unfold load at 1. rewrite Hr.
  cbn [truthy negb getattr_reference]. unfold bind at 1. unfold ret at 1.
  destruct (message_dict self !! message_id r) as [target|].
  - unfold bind at 1. unfold ret at 1. intros H.
    apply render_reference_trace in H as (d & Hd).
    eexists. split; [exact Hd |].
    rewrite existsb_app. cbn. apply orb_true_r.
  - unfold bind at 1, try_except_HTTPException, bind at 1, fetch_message, bind at 1,
      record, lift.
    destruct (channel_fetch_message E _ _) as [target|e].
    + unfold ret at 1. intros H.
      apply (keeps_run (appends any_call)) in H as (d & Hd & _);
        [| apply render_reference_appends; reflexivity].
      cbn [calls] in Hd. eexists. split; [rewrite Hd, <- app_assoc; reflexivity |].
      reflexivity.
    + destruct (isinstance_HTTPException e); [| discriminate].
      destruct (reference_not_fetched E self e _) as [[found|e'] s2] eqn:Hnot;
        [| discriminate].
      pose proof (reference_not_fetched_none E _ _ _ _ _ Hnot) as ->.
      apply (keeps_run (appends any_call)) in Hnot as (d & Hd & _);
        [| unfold reference_not_fetched; keeps_auto].
      cbn [calls] in Hd. unfold ret.
      intros [= <-]. eexists. split; [rewrite Hd, <- app_assoc; reflexivity |].
      reflexivity.
Qed.

Lemma construct_message_resolves (E : Env) self s r built s' :
  is_audit (Message.type (heap s (message self))) = false →
  Message.message_reference (heap s (message self)) = PyReference r →
  construct_message E self s = (Ok built, s') →
  ∃ d, calls s' = (calls s ++ d)%list ∧ existsb resolves_reply d = true.
Proof.
  intros Haudit Hr H.
  destruct (construct_message_ordinary E self s built s' Haudit H) as [self' Hbuild].
  clear H. unfold build_message in Hbuild.
  destruct (build_content_run E self s)
    as (self1 & s1 & H1 & Hm & Hrefs & _ & _).
  pose proof (keeps_run _ _ _ _ _
                (build_content_appends E any_call self eq_refl) H1)
    as (d1 & Hd1 & _).
  rewrite (bind_Ok_eq _ _ _ _ _ H1) in Hbuild.
  apply bind_Ok in Hbuild as ([] & s2 & H2 & Hrest).
  apply (build_reference_resolves E self1 s1 r) in H2 as (d2 & Hd2 & Hf2);
    [| rewrite Hm, Hrefs; exact Hr].
  apply (keeps_run (appends any_call)) in Hrest as (d3 & Hd3 & _); [| keeps_auto].
  exists (d1 ++ d2 ++ d3)%list. split.
  - rewrite Hd3, Hd2, Hd1, <- !app_assoc. reflexivity.
  - rewrite !existsb_app, Hf2. rewrite orb_true_r. reflexivity.
Qed.

(** C4. The code departs from the claim: a transcript of a thread is not
    anchored at the parent message. [gather_messages] looks for the lower-case
    word [thread] in [str(channel.type)]; the library's thread types print as
    [ChannelType.GUILD_PUBLIC_THREAD] and the like, or as their number, so the
    test fails for every one of them. When the first message lies in such a
    channel and carries a reply-reference, the statements before the loop
    change nothing: no channel is fetched, in the whole run, and the list is
    the input. When the run returns, the loop has constructed the first
    message itself first, and, if it is an ordinary message, has resolved its
    reply as that of any other message, by fetching the referenced message or
    filling the reply banner; the messages follow in input order, each with
    its predecessor as previous message. *)
Theorem thread_transcript_is_not_anchored (E : Env) (first : loc) (rest : list loc)
    (tz : string) (mil : bool) (s : State) (as_number : bool) (t : ThreadType)
    (r : MessageReference) :
  Channel_type_str (Message.channel (heap s first)) = ChannelType_str as_number t →
  Message.message_reference (heap s first) = PyReference r →
  anchor_thread E (first :: rest) s = (Ok (first :: rest), s)
  ∧ (∃ d, calls (gather_messages E (first :: rest) tz mil s).2 = (calls s ++ d)%list
          ∧ forallb not_channel_fetch d = true)
  ∧ ∀ html meta s',
      gather_messages E (first :: rest) tz mil s = (Ok (html, meta), s') →
      ∃ dict step steps,
        runs E tz mil dict (first :: rest) None ∅ s (step :: steps) meta s'
        ∧ (is_audit (Message.type (heap s first)) = false →
           existsb resolves_reply step.2 = true)
        ∧ html = join (map fst (step :: steps)) +:+ "</div>".
Proof.
  intros Hchannel Hr.
  assert (anchor_thread E (first :: rest) s = (Ok (first :: rest), s)) as Hanchor.
  { unfold anchor_thread, bind, load.
    rewrite Hchannel, library_thread_is_no_thread. reflexivity. }
  split; [exact Hanchor |]. split.
  - change (appends not_channel_fetch s
              (gather_messages E (first :: rest) tz mil s).2).
    unfold gather_messages. unfold bind at 1. unfold index_messages at 1.
    rewrite (bind_Ok_eq _ _ _ _ _ Hanchor).
    apply (keeps_at _ _ s s); [reflexivity |].
    refine (keeps_bind _ _ _ _ _); [| intros result; keeps_auto].
    apply gather_loop_appends; reflexivity.
  - intros html meta s' H. unfold gather_messages in H.
    apply bind_Ok in H as (dict & s0 & [= <- <-] & H).
    rewrite (bind_Ok_eq _ _ _ _ _ Hanchor) in H.
    apply bind_Ok in H as ([html' meta'] & s2 & Hloop & [= <- <- <-]).
    apply gather_loop_runs in Hloop as (steps & Hruns & Hlen & Hhtml).
    destruct steps as [|step steps]; [discriminate Hlen |].
    eexists _, step, steps. split; [exact Hruns |].
    split; [| rewrite Hhtml; reflexivity].
    intros Haudit. inversion Hruns as [| ? ? ? ? ? self s1 html0 meta1 s3 d ? ? ?
                                         Hinit Hconstruct Hcalls Hrest]; subst.
    apply MessageConstruct_init_fields in Hinit as (-> & Hl & _).
    rewrite <- Hl in Haudit, Hr.
    destruct (construct_message_resolves E self s r _ _ Haudit Hr Hconstruct)
      as (d' & Hd' & Hf).
    rewrite Hcalls in Hd'. apply app_inv_head in Hd'. subst d'. exact Hf.
Qed.

(** The theorem at work: a two-message thread of the library's type
    [GUILD_PUBLIC_THREAD] whose first message replies to its parent. The
    first message stays where it is and its reply is resolved. *)
Lemma thread_transcript_is_not_anchored_example :
  anchor_thread Demo.threads [0%nat; 1%nat] (mk_state Demo.chat_thread [])
  = (Ok [0%nat; 1%nat], mk_state Demo.chat_thread [])
  ∧ ∃ html meta s',
      gather_messages Demo.threads [0%nat; 1%nat] "UTC" true
        (mk_state Demo.chat_thread []) = (Ok (html, meta), s')
      ∧ ∃ step steps,
          existsb resolves_reply (step : string * list Call).2 = true
          ∧ html = join (map fst (step :: steps)) +:+ "</div>".
Proof.
  pose proof (thread_transcript_is_not_anchored Demo.threads 0%nat [1%nat] "UTC" true
                (mk_state Demo.chat_thread []) false GUILD_PUBLIC_THREAD
                (mk_reference 4 10) eq_refl eq_refl) as (Hanchor & _ & Hrun).
  split; [exact Hanchor |].
  destruct (gather_messages Demo.threads [0%nat; 1%nat] "UTC" true
              (mk_state Demo.chat_thread [])) as [[[html meta]|e] s'] eqn:H.
  - exists html, meta, s'. split; [reflexivity |].
    destruct (Hrun html meta s' H) as (dict & step & steps & _ & Hf & Hhtml).
    exists step, steps. split; [exact (Hf eq_refl) | exact Hhtml].
  - exfalso. revert H. vm_compute. discriminate.
Defined.

(** ** The closing fragment in the markup *)

Lemma divider_header_markup (E : Env) self s self' started s' :
  divider_header E self s = (Ok (self', started), s') →
  started = true
  ∧ previous_message self' = previous_message self
  ∧ ∃ subs, message_html self'
            = message_html self +:+ html_fill_out E html_generator.start_message subs.
Proof.
  unfold divider_header. unfold bind at 1. unfold load at 1. intros H.
  apply bind_Ok in H as (time & s1 & _ & H).
  apply bind_Ok in H as (tz & s2 & _ & H).
  apply bind_Ok in H as (colour & s3 & _ & H).
  apply bind_Ok in H as (icon & s4 & _ & H).
  apply bind_Ok in H as (opening & s5 & Hfill & H).
  rewrite fill_out_run in Hfill. injection Hfill as <- _.
  injection H as <- <- _. split; [reflexivity |]. split; [reflexivity |].
  eexists. reflexivity.
Qed.

Lemma generate_message_divider_markup (E : Env) self channel_audit s self' started s' :
  generate_message_divider E self channel_audit s = (Ok (self', started), s') →
  let boundary :=
    channel_audit
    || match (_generate_message_divider_check self s).1 with
       | Ok true => true
       | _ => false
       end in
  previous_message self' = previous_message self
  ∧ ∃ header,
      message_html self'
      = message_html self +:+ (if boundary then closing_markup E self else "")
        +:+ header
      ∧ if started
        then ∃ subs, header = html_fill_out E html_generator.start_message subs
        else header = "".
Proof.
  unfold generate_message_divider. intros H. cbv zeta.
  apply bind_Ok in H as (check & s1 & Hcheck & H).
  assert (s1 = s
          ∧ channel_audit
            || match (_generate_message_divider_check self s).1 with
               | Ok true => true
               | _ => false
               end = check) as [-> Hboundary].
  { destruct channel_audit.
    - injection Hcheck as <- <-. auto.
    - pose proof (keeps_run untouched _ _ _ _
                    (_generate_message_divider_check_untouched self) Hcheck) as Hs1.
      unfold untouched in Hs1. subst s1. rewrite Hcheck.
      destruct check; auto. }
  rewrite Hboundary. clear Hboundary Hcheck.
  destruct check.
  - apply bind_Ok in H as (self1 & s1 & Hclose & H).
    assert (message_html self1 = message_html self +:+ closing_markup E self
            ∧ previous_message self1 = previous_message self) as [Hhtml Hprev].
    { unfold closing_markup. destruct (previous_message self) eqn:Hp.
      - revert Hclose. unfold bind. rewrite fill_out_run. intros [= <- _].
        split; [reflexivity | exact Hp].
      - injection Hclose as <- _. rewrite append_empty_r. auto. }
    destruct channel_audit.
    + injection H as <- <- _. split; [exact Hprev |].
      exists "". rewrite append_empty_r. split; [exact Hhtml | reflexivity].
    + apply divider_header_markup in H as (-> & Hprev' & subs & Hheader).
      split; [congruence |].
      eexists. split; [| exists subs; reflexivity].
      rewrite Hheader, Hhtml. apply append_assoc.
  - injection H as <- <- _. split; [reflexivity |].
    exists "". split; [| reflexivity]. cbn. rewrite append_empty_r. reflexivity.
Qed.

Lemma build_pin_template_markup (E : Env) self s self' s' :
  build_pin_template E self s = (Ok self', s') →
  ∃ subs, message_html self'
          = message_html self +:+ html_fill_out E html_generator.message_pin subs.
Proof.
  unfold build_pin_template. unfold bind at 1. unfold load at 1. intros H.
  apply bind_Ok in H as (colour & s1 & _ & H).
  apply bind_Ok in H as (ref & s2 & _ & H).
  apply bind_Ok in H as (pin & s3 & Hfill & H).
  rewrite fill_out_run in Hfill. injection Hfill as <- _.
  injection H as <- _. eexists. reflexivity.
Qed.

Lemma build_thread_template_markup (E : Env) self s self' s' :
  build_thread_template E self s = (Ok self', s') →
  ∃ subs, message_html self'
          = message_html self +:+ html_fill_out E html_generator.message_thread subs.
Proof.
  unfold build_thread_template. unfold bind at 1. unfold load at 1. intros H.
  apply bind_Ok in H as (colour & s1 & _ & H).
  apply bind_Ok in H as (thread & s2 & Hfill & H).
  rewrite fill_out_run in Hfill. injection Hfill as <- _.
  injection H as <- _. eexists. reflexivity.
Qed.

Lemma build_recipient_markup (E : Env) template url self s self' s' :
  build_recipient E template url self s = (Ok self', s') →
  ∃ subs, message_html self' = message_html self +:+ html_fill_out E template subs.
Proof.
  unfold build_recipient. unfold bind at 1. unfold load at 1. intros H.
  apply bind_Ok in H as (target & s1 & _ & H).
  apply bind_Ok in H as (member & s2 & _ & H).
  apply bind_Ok in H as (colour & s3 & _ & H).
  apply bind_Ok in H as (colour' & s4 & _ & H).
  apply bind_Ok in H as (recipient & s5 & _ & H).
  apply bind_Ok in H as (notice & s6 & Hfill & H).
  rewrite fill_out_run in Hfill. injection Hfill as <- _.
  injection H as <- _. eexists. reflexivity.
Qed.

Lemma build_content_markup (E : Env) self :
  returns (λ self', message_html self' = message_html self) (build_content E self).
Proof. unfold build_content. returns_auto. Qed.

Lemma build_assets_markup (E : Env) self :
  returns (λ self', message_html self' = message_html self) (build_assets E self).
Proof. unfold build_assets. returns_auto. Qed.

Lemma build_meta_data_markup (E : Env) self :
  returns (λ self', message_html self' = message_html self) (build_meta_data E self).
Proof. unfold build_meta_data. returns_auto. Qed.

(** The markup of a channel audit event: the closing of the previous block,
    then the notice. *)
Lemma construct_message_audit_markup (E : Env) self s html meta s' :
  is_audit (Message.type (heap s (message self))) = true →
  construct_message E self s = (Ok (html, meta), s') →
  ∃ template subs,
    template ≠ html_generator.end_message
    ∧ html = message_html self +:+ closing_markup E self
             +:+ html_fill_out E template subs.
Proof.
  intros Haudit. unfold construct_message. unfold bind at 1. unfold load at 1.
  intros H. apply bind_Ok in H as (self' & s1 & Hbuild & [= <- _ _]).
  assert (∀ (k : MessageConstruct → M MessageConstruct) template,
            template ≠ html_generator.end_message →
            (∀ self0 s0 self1 s2,
               k self0 s0 = (Ok self1, s2) →
               ∃ subs, message_html self1
                       = message_html self0 +:+ html_fill_out E template subs) →
            bind (generate_message_divider E self true) (λ started, k started.1) s
            = (Ok self', s1) →
            ∃ template subs,
              template ≠ html_generator.end_message
              ∧ message_html self'
                = message_html self +:+ closing_markup E self
                  +:+ html_fill_out E template subs) as Hshape.
  { intros k template Hne Hk Hrun.
    destruct (generate_message_divider_audit E self s)
      as (self0 & s0 & Hdiv & _).
    rewrite (bind_Ok_eq _ _ _ _ _ Hdiv) in Hrun. cbn [fst] in Hrun.
    apply generate_message_divider_markup in Hdiv as (_ & header & Hhtml & ->).
    cbn [orb] in Hhtml. rewrite append_empty_r in Hhtml.
    destruct (Hk _ _ _ _ Hrun) as (subs & Hnotice).
    exists template, subs. split; [exact Hne |].
    rewrite Hnotice, Hhtml. apply append_assoc. }
  destruct (Message.type (heap s (message self))); try discriminate Haudit.
  - apply (Hshape (build_add E) html_generator.message_thread_add);
      [discriminate | | exact Hbuild].
    intros. eapply build_recipient_markup. eassumption.
  - apply (Hshape (build_remove E) html_generator.message_thread_remove);
      [discriminate | | exact Hbuild].
    intros. eapply build_recipient_markup. eassumption.
  - apply (Hshape (build_pin_template E) html_generator.message_pin);
      [discriminate | | exact Hbuild].
    intros. eapply build_pin_template_markup. eassumption.
  - apply (Hshape (build_thread_template E) html_generator.message_thread);
      [discriminate | | exact Hbuild].
    intros. eapply build_thread_template_markup. eassumption.
Qed.

(** The markup of the first message of a transcript: what was there, then
    one fragment that is not the closing one. *)
Lemma build_message_first_markup (E : Env) self s self' s' :
  previous_message self = None →
  build_message E self s = (Ok self', s') →
  ∃ template subs,
    template ≠ html_generator.end_message
    ∧ message_html self' = message_html self +:+ html_fill_out E template subs.
Proof.
  intros Hp. unfold build_message. intros H.
  apply bind_Ok in H as (self1 & s1 & H1 & H).
  apply bind_Ok in H as ([] & s2 & _ & H).
  apply bind_Ok in H as ([] & s3 & _ & H).
  apply bind_Ok in H as (self4 & s4 & H4 & H).
  apply bind_Ok in H as (self5 & s5 & H5 & H).
  pose proof (build_content_markup E _ _ _ _ H1) as M1.
  pose proof (build_content_request E _ _ _ _ H1) as (_ & P1 & _).
  pose proof (build_assets_markup E _ _ _ _ H4) as M4.
  pose proof (build_assets_request E _ _ _ _ H4) as (_ & P4 & _).
  pose proof (build_meta_data_markup E _ _ _ _ H) as M6.
  cbv beta in M1, M4, M6.
  assert (closing_markup E self4 = "") as Hclosing.
  { unfold closing_markup. rewrite P4, P1, Hp. reflexivity. }
  unfold build_message_template in H5.
  apply bind_Ok in H5 as ([self6 started] & s6 & Hdiv & H5).
  apply generate_message_divider_markup in Hdiv as (_ & header & Hhtml & Hheader).
  rewrite Hclosing in Hhtml.
  assert (message_html self6 = message_html self +:+ header) as Hhtml'.
  { rewrite Hhtml, M4, M1. destruct (_ || _); reflexivity. }
  cbn [fst snd] in H5. destruct started.
  - injection H5 as <- _. destruct Hheader as [subs ->].
    exists html_generator.start_message, subs. split; [discriminate |].
    rewrite M6. exact Hhtml'.
  - subst header. rewrite append_empty_r in Hhtml'.
    unfold bind at 1, load at 1 in H5.
    apply bind_Ok in H5 as (time & s7 & _ & H5).
    apply bind_Ok in H5 as (body & s8 & Hfill & H5).
    rewrite fill_out_run in Hfill. injection Hfill as <- _.
    injection H5 as <- _.
    eexists html_generator.message_body, _. split; [discriminate |].
    rewrite M6. cbn [message_html set_message_html]. rewrite Hhtml'. reflexivity.
Qed.

Lemma construct_message_first_markup (E : Env) self s html meta s' :
  previous_message self = None →
  construct_message E self s = (Ok (html, meta), s') →
  ∃ template subs,
    template ≠ html_generator.end_message
    ∧ html = message_html self +:+ html_fill_out E template subs.
Proof.
  intros Hp H.
  destruct (is_audit (Message.type (heap s (message self)))) eqn:Haudit.
  - destruct (construct_message_audit_markup E self s html meta s' Haudit H)
      as (template & subs & Hne & Hhtml).
    exists template, subs. split; [exact Hne |].
    rewrite Hhtml. unfold closing_markup. rewrite Hp. reflexivity.
  - revert H. unfold construct_message. unfold bind at 1. unfold load at 1.
    intros H. apply bind_Ok in H as (self' & s1 & Hbuild & [= <- _ _]).
    apply (build_message_first_markup E self s self' s1 Hp).
    destruct (Message.type (heap s (message self))); try discriminate Haudit;
      exact Hbuild.
Qed.

(** C6. The block-closing fragment reaches the markup exactly once at a
    block boundary that follows a previous message, before anything else the
    divider emits, and never otherwise. [generate_message_divider] fills the
    closing template once, first, when the message is at a boundary (a channel
    audit event, or a message for which the block-start check answers [True])
    and a previous message exists, and not at all otherwise; when it returns,
    the builder's markup is what it was, followed by that fragment at such a
    boundary, followed by the block header if one was started. With
    [channel_audit] set it does not consult the check and emits nothing else.
    Accordingly the markup that the construction of a pin, thread-created,
    member-removed or member-added message returns is the closing fragment,
    if and only if a previous message exists, followed by the notice; and the
    markup returned for a message of any kind that has no previous message is
    one fragment of another template, with no closing fragment before it. *)
Theorem divider_closes_previous_block_once (E : Env) (self : MessageConstruct)
    (s : State) :
  (∀ channel_audit,
     let boundary :=
       channel_audit
       || match (_generate_message_divider_check self s).1 with
          | Ok true => true
          | _ => false
          end in
     (∃ d, calls (generate_message_divider E self channel_audit s).2
           = (calls s ++ (if boundary then closing_calls self else []) ++ d)%list
           ∧ forallb not_closing d = true
           ∧ (channel_audit = true → d = []))
     ∧ ∀ self' started s',
         generate_message_divider E self channel_audit s = (Ok (self', started), s') →
         ∃ header,
           message_html self'
           = message_html self +:+ (if boundary then closing_markup E self else "")
             +:+ header
           ∧ if started
             then ∃ subs, header = html_fill_out E html_generator.start_message subs
             else header = "")
  ∧ (is_audit (Message.type (heap s (message self))) = true →
     (∃ d, calls (construct_message E self s).2
           = (calls s ++ closing_calls self ++ d)%list
           ∧ forallb not_closing d = true)
     ∧ ∀ html meta s',
         construct_message E self s = (Ok (html, meta), s') →
         ∃ template subs,
           template ≠ html_generator.end_message
           ∧ html = message_html self +:+ closing_markup E self
                    +:+ html_fill_out E template subs)
  ∧ (previous_message self = None →
     (∃ d, calls (construct_message E self s).2 = (calls s ++ d)%list
           ∧ forallb not_closing d = true)
     ∧ ∀ html meta s',
         construct_message E self s = (Ok (html, meta), s') →
         ∃ template subs,
           template ≠ html_generator.end_message
           ∧ html = message_html self +:+ html_fill_out E template subs).
Proof.
  destruct (divider_closing_calls E self s) as (Hdivider & Haudit & Hfirst).
  split; [| split].
  - intros channel_audit. cbv zeta. split; [exact (Hdivider channel_audit) |].
    intros self' started s' H.
    exact (proj2 (generate_message_divider_markup E _ _ _ _ _ _ H)).
  - intros Ha. split; [exact (Haudit Ha) |].
    intros html meta s'. exact (construct_message_audit_markup E self s html meta s' Ha).
  - intros Hp. split; [exact (Hfirst Hp) |].
    intros html meta s'. exact (construct_message_first_markup E self s html meta s' Hp).
Qed.

(** The theorem at work: a pin notice that follows another message. Its
    markup starts with the closing fragment. *)
Lemma divider_closes_previous_block_once_pin :
  ∃ html meta,
    (construct_message Demo.quiet (Demo.fresh 1%nat (Some 0%nat))
       (mk_state Demo.chat_pin [])).1 = Ok (html, meta)
    ∧ ∃ template subs,
        template ≠ html_generator.end_message
        ∧ html = "[end]" +:+ Demo.fill template subs.
Proof.
  destruct (construct_message Demo.quiet (Demo.fresh 1%nat (Some 0%nat))
              (mk_state Demo.chat_pin [])) as [[[html meta]|e] s'] eqn:H.
  - exists html, meta. split; [reflexivity |].
    exact (proj2 (proj1 (proj2 (divider_closes_previous_block_once Demo.quiet
                                  (Demo.fresh 1%nat (Some 0%nat))
                                  (mk_state Demo.chat_pin [])))
                    eq_refl) html meta s' H).
  - exfalso. revert H. vm_compute. discriminate.
Defined.

(** ** Counting blocks over a transcript *)

Lemma count_calls_app P a b :
  count_calls P (a ++ b) = (count_calls P a + count_calls P b)%nat.
Proof. unfold count_calls. rewrite List.filter_app, List.length_app. reflexivity. Qed.

Lemma count_calls_none (P : Call → bool) d :
  (∀ c, no_block_call c = true → P c = false) →
  forallb no_block_call d = true →
  count_calls P d = 0%nat.
Proof.
  intros HP. unfold count_calls. induction d as [|c d IH]; [reflexivity |].
  simpl. intros H. apply andb_prop in H as [Hc Hd].
  rewrite (HP c Hc). apply IH, Hd.
Qed.

Lemma no_block_call_rendering c : no_block_call c = true → is_rendering c = false.
Proof. destruct c as [| | |[]]; cbv; congruence. Qed.

Lemma no_block_call_opening c : no_block_call c = true → is_opening c = false.
Proof. destruct c as [| | |[]]; cbv; congruence. Qed.

Lemma no_block_call_closing c : no_block_call c = true → is_closing c = false.
Proof. destruct c as [| | |[]]; cbv; congruence. Qed.

Lemma ordinary_frame s s' l : frame s s' → ordinary (heap s') l = ordinary (heap s) l.
Proof.
  intros H. unfold ordinary. rewrite (same_identity_type _ _ (H l)). reflexivity.
Qed.

Lemma ordinary_count_frame s s' messages :
  frame s s' → ordinary_count (heap s') messages = ordinary_count (heap s) messages.
Proof.
  intros H. unfold ordinary_count. f_equal.
  apply List.filter_ext. intros l. apply ordinary_frame, H.
Qed.

Lemma forallb_ordinary_frame s s' messages :
  frame s s' →
  forallb (ordinary (heap s')) messages = forallb (ordinary (heap s)) messages.
Proof.
  intros H. induction messages as [|l rest IH]; [reflexivity |].
  simpl. rewrite IH, (ordinary_frame _ _ _ H). reflexivity.
Qed.

(** The calls of one construction, counted. *)
Lemma construct_message_counts (E : Env) self s built s' :
  construct_message E self s = (Ok built, s') →
  ∃ d, calls s' = (calls s ++ d)%list
       ∧ count_calls is_rendering d
         = (if ordinary (heap s) (message self) then 1 else 0)%nat
       ∧ (ordinary (heap s) (message self) = true →
          count_calls is_opening d
          = (count_calls is_closing d
             + match previous_message self with None => 1 | Some _ => 0 end)%nat).
Proof.
  intros H. unfold ordinary.
  destruct (is_audit (Message.type (heap s (message self)))) eqn:Haudit; cbn [negb].
  - destruct (construct_message_audit_trace E self s built s' Haudit H)
      as (d & Hd & Hf).
    exists (closing_calls self ++ d)%list. split; [exact Hd |].
    split; [| discriminate].
    rewrite count_calls_app, (count_calls_none _ d no_block_call_rendering Hf).
    unfold closing_calls. destruct (previous_message self); reflexivity.
  - destruct (construct_message_ordinary E self s built s' Haudit H) as [self' Hbuild].
    destruct (build_message_trace E self s self' s' Hbuild)
      as (pre & Hpre & [Hcalls | [Hprev Hcalls]]).
    + eexists. split; [exact Hcalls |].
      rewrite !count_calls_app.
      rewrite (count_calls_none _ pre no_block_call_rendering Hpre),
        (count_calls_none _ pre no_block_call_opening Hpre),
        (count_calls_none _ pre no_block_call_closing Hpre).
      unfold closing_calls. destruct (previous_message self); split; reflexivity.
    + eexists. split; [exact Hcalls |].
      rewrite !count_calls_app.
      rewrite (count_calls_none _ pre no_block_call_rendering Hpre),
        (count_calls_none _ pre no_block_call_opening Hpre),
        (count_calls_none _ pre no_block_call_closing Hpre).
      destruct (previous_message self); [split; reflexivity | contradiction].
Qed.

Lemma gather_loop_counts (E : Env) tz mil dict messages :
  ∀ previous html meta s result s',
    gather_loop E tz mil dict messages previous html meta s = (Ok result, s') →
    ∃ d, calls s' = (calls s ++ d)%list
         ∧ count_calls is_rendering d = ordinary_count (heap s) messages
         ∧ (forallb (ordinary (heap s)) messages = true →
            count_calls is_opening d
            = (count_calls is_closing d
               + match previous, messages with
                 | None, _ :: _ => 1
                 | _, _ => 0
                 end)%nat).
Proof.
  induction messages as [|l rest IH]; intros previous html meta s result s' H.
  - injection H as _ <-. exists []. rewrite app_nil_r.
    repeat split. destruct previous; reflexivity.
  - simpl in H.
    apply bind_Ok in H as (self & s1 & Hinit & H).
    apply bind_Ok in H as (built & s2 & Hbuilt & H).
    apply MessageConstruct_init_fields in Hinit as (-> & Hl & Hp & _).
    pose proof (keeps_run _ _ _ _ _ (construct_message_frame E self) Hbuilt) as Hframe.
    apply construct_message_counts in Hbuilt as (d1 & Hd1 & Hr1 & Ho1).
    apply IH in H as (d2 & Hd2 & Hr2 & Ho2).
    rewrite Hl, Hp in *.
    rewrite (ordinary_count_frame _ _ _ Hframe) in Hr2.
    rewrite (forallb_ordinary_frame _ _ _ Hframe) in Ho2.
    exists (d1 ++ d2)%list. split; [rewrite Hd2, Hd1, <- app_assoc; reflexivity |].
    rewrite !count_calls_app. split.
    + rewrite Hr1, Hr2. unfold ordinary_count. simpl.
      destruct (ordinary (heap s) l); reflexivity.
    + simpl. intros Hall. apply andb_prop in Hall as [Hl1 Hrest].
      rewrite (Ho1 Hl1), (Ho2 Hrest).
      destruct previous, rest; lia.
Qed.

Lemma anchor_thread_no_block_call (E : Env) messages :
  keeps (appends no_block_call) (anchor_thread E messages).
Proof. unfold anchor_thread. keeps_auto. Qed.

Lemma gather_messages_counts (E : Env) messages tz mil s result s' :
  gather_messages E messages tz mil s = (Ok result, s') →
  ∃ d, calls s' = (calls s ++ d)%list
       ∧ count_calls is_rendering d
         = ordinary_count (heap s) (anchored E (heap s) messages)
       ∧ (forallb (ordinary (heap s)) (anchored E (heap s) messages) = true →
          count_calls is_opening d = S (count_calls is_closing d)).
Proof.
  unfold gather_messages. intros H.
  apply bind_Ok in H as (dict & s0 & [= <- <-] & H).
  apply bind_Ok in H as (messages' & s1 & Hanchor & H).
  apply bind_Ok in H as (looped & s2 & Hloop & [= _ <-]).
  pose proof (keeps_run _ _ _ _ _ (anchor_thread_no_block_call E messages) Hanchor)
    as (d0 & Hd0 & Hf0).
  assert (messages ≠ []) as Hne.
  { intros ->. discriminate Hanchor. }
  apply anchor_thread_anchored in Hanchor as (-> & Hframe).
  apply gather_loop_counts in Hloop as (d & Hd & Hr & Ho).
  rewrite (ordinary_count_frame _ _ _ Hframe) in Hr.
  rewrite (forallb_ordinary_frame _ _ _ Hframe) in Ho.
  exists (d0 ++ d)%list. split; [rewrite Hd, Hd0, <- app_assoc; reflexivity |].
  rewrite !count_calls_app,
    (count_calls_none _ d0 no_block_call_rendering Hf0),
    (count_calls_none _ d0 no_block_call_opening Hf0),
    (count_calls_none _ d0 no_block_call_closing Hf0).
  split; [exact Hr |].
  intros Hall. rewrite (Ho Hall).
  pose proof (anchored_length E (heap s) messages) as Hlen.
  destruct (anchored E (heap s) messages), messages; try contradiction;
    try discriminate Hlen; lia.
Qed.

(** X14. Every ordinary message of a transcript is rendered exactly once.
    When [gather_messages] returns, the number of times it filled a content
    template (the block header or the continuation) equals the number of
    entries of the processed list that are not channel audit events; pin,
    thread-created and member notices fill neither. *)
Theorem transcript_renders_each_ordinary_message_once (E : Env) (messages : list loc)
    (tz : string) (mil : bool) (s : State) (result : string * gmap Z Aggregate)
    (s' : State) :
  gather_messages E messages tz mil s = (Ok result, s') →
  ∃ d, calls s' = (calls s ++ d)%list
       ∧ count_calls is_rendering d
         = ordinary_count (heap s) (anchored E (heap s) messages).
Proof.
  intros H. destruct (gather_messages_counts E _ _ _ _ _ _ H) as (d & Hd & Hr & _).
  exists d. split; assumption.
Qed.

Lemma transcript_renders_each_ordinary_message_once_chat :
  ∃ d, calls (gather_messages Demo.quiet [0%nat; 1%nat; 2%nat] "UTC" true
                (mk_state Demo.chat [])).2 = d
       ∧ count_calls is_rendering d = 3%nat.
Proof.
  destruct (gather_messages Demo.quiet [0%nat; 1%nat; 2%nat] "UTC" true
              (mk_state Demo.chat [])) as [[result|e] s'] eqn:H.
  - exact (transcript_renders_each_ordinary_message_once Demo.quiet _ _ _ _ _ _ H).
  - exfalso. revert H. vm_compute. discriminate.
Defined.

(** X15. A transcript of ordinary messages opens one block more than it
    closes through the closing template. When [gather_messages] returns and
    no entry of the processed list is a channel audit event, the block header
    was filled exactly once more than the block closing: every block but the
    last is closed before the next one opens, and the last one is left to the
    [</div>] that ends the markup. *)
Theorem ordinary_transcript_leaves_one_block_open (E : Env) (messages : list loc)
    (tz : string) (mil : bool) (s : State) (result : string * gmap Z Aggregate)
    (s' : State) :
  gather_messages E messages tz mil s = (Ok result, s') →
  forallb (ordinary (heap s)) (anchored E (heap s) messages) = true →
  ∃ d, calls s' = (calls s ++ d)%list
       ∧ count_calls is_opening d = S (count_calls is_closing d).
Proof.
  intros H Hall.
  destruct (gather_messages_counts E _ _ _ _ _ _ H) as (d & Hd & _ & Ho).
  exists d. split; [exact Hd | exact (Ho Hall)].
Qed.

Lemma ordinary_transcript_leaves_one_block_open_chat :
  ∃ d, calls (gather_messages Demo.quiet [0%nat; 1%nat; 2%nat] "UTC" true
                (mk_state Demo.chat [])).2 = d
       ∧ count_calls is_opening d = S (count_calls is_closing d).
Proof.
  destruct (gather_messages Demo.quiet [0%nat; 1%nat; 2%nat] "UTC" true
              (mk_state Demo.chat [])) as [[result|e] s'] eqn:H.
  - exact (ordinary_transcript_leaves_one_block_open Demo.quiet _ _ _ _ _ _ H eq_refl).
  - exfalso. revert H. vm_compute. discriminate.
Defined.

(** ** The roster of authors *)

Lemma enrol_frame (E : Env) s s' meta l :
  frame s s' → enrol E (heap s') meta l = enrol E (heap s) meta l.
Proof.
  intros H. unfold enrol.
  rewrite (same_identity_type _ _ (H l)), (same_identity_author _ _ (H l)).
  reflexivity.
Qed.

Lemma roster_frame (E : Env) s s' messages :
  frame s s' →
  ∀ meta, roster E (heap s') meta messages = roster E (heap s) meta messages.
Proof.
  intros H. unfold roster. induction messages as [|l rest IH]; intros meta;
    [reflexivity |].
  simpl. rewrite (enrol_frame E _ _ _ _ H). apply IH.
Qed.

Lemma gather_loop_roster (E : Env) tz mil dict messages :
  ∀ previous html meta s html' meta' s',
    gather_loop E tz mil dict messages previous html meta s = (Ok (html', meta'), s') →
    meta' = roster E (heap s) meta messages.
Proof.
  induction messages as [|l rest IH]; intros previous html meta s html' meta' s' H.
  - injection H as _ <- _. reflexivity.
  - simpl in H.
    apply bind_Ok in H as (self & s1 & Hinit & H).
    apply bind_Ok in H as ([built meta1] & s2 & Hbuilt & H).
    apply MessageConstruct_init_fields in Hinit as (-> & Hl & _ & Hmeta & _).
    pose proof (keeps_run _ _ _ _ _ (construct_message_frame E self) Hbuilt) as Hframe.
    apply construct_message_meta in Hbuilt. rewrite Hl, Hmeta in Hbuilt.
    apply IH in H. rewrite (roster_frame E _ _ _ Hframe) in H.
    subst meta' meta1. reflexivity.
Qed.

Lemma counted_same a : counted (message_count a) a = a.
Proof. destruct a. reflexivity. Qed.

Lemma roster_lookup (E : Env) (h : loc → Message.t) (author_id : Z) messages :
  ∀ meta,
    roster E h meta messages !! author_id
    = match meta !! author_id with
      | Some a =>
          Some (counted (message_count a + Z.of_nat (authored h author_id messages)) a)
      | None =>
          (λ l, counted (Z.of_nat (authored h author_id messages))
                  (first_aggregate E (Message.author (h l))))
          <$> first_ordinary h author_id messages
      end.
Proof.
  unfold roster, first_ordinary.
  induction messages as [|l rest IH]; intros meta.
  - simpl. destruct (meta !! author_id) as [a|]; [| reflexivity].
    unfold authored. simpl. rewrite Z.add_0_r, counted_same. reflexivity.
  - simpl. rewrite IH, authored_cons. unfold enrol, ordinary.
    destruct (is_audit (Message.type (h l))); [reflexivity |].
    cbn [negb andb]. unfold enrolled.
    destruct (decide (User.id (Message.author (h l)) = author_id)) as [<-|Hne].
    + rewrite Z.eqb_refl.
      destruct (meta !! User.id (Message.author (h l))) as [a|];
        rewrite lookup_insert_eq; cbn [fmap option_fmap option_map]; f_equal.
      * destruct a. unfold counted, increment. cbn. f_equal. lia.
      * unfold counted, first_aggregate. cbn. f_equal. lia.
    + apply Z.eqb_neq in Hne as Hb. rewrite Hb.
      destruct (meta !! User.id (Message.author (h l))) as [a|];
        rewrite lookup_insert_ne by exact Hne; reflexivity.
Qed.

(** X16. The dict [gather_messages] returns is determined by the authors
    of the processed list (the input, its head replaced by the parent message
    in the thread case). An author has an entry exactly when the list holds
    an ordinary message of theirs, and the entry is the list that
    [build_meta_data] makes from the author of the first such message (tag,
    creation date, bot badge, avatar, join date, display name) with the
    number of their ordinary messages as message count: later messages only
    increment the count, and the guild's answers to member lookups have no
    part in it. *)
Theorem meta_data_is_made_from_first_messages (E : Env) (messages : list loc)
    (tz : string) (mil : bool) (s : State) (html : string)
    (meta : gmap Z Aggregate) (s' : State) :
  gather_messages E messages tz mil s = (Ok (html, meta), s') →
  let h := heap s in
  let processed := anchored E h messages in
  ∀ author_id,
    meta !! author_id
    = (λ l, counted (Z.of_nat (authored h author_id processed))
              (first_aggregate E (Message.author (h l))))
      <$> first_ordinary h author_id processed.
Proof.
  intros H. cbv zeta. intros author_id. unfold gather_messages in H.
  apply bind_Ok in H as (dict & s0 & [= <- <-] & H).
  apply bind_Ok in H as (messages' & s1 & Hanchor & H).
  apply bind_Ok in H as ([html' meta'] & s2 & Hloop & [= _ <- _]).
  apply anchor_thread_anchored in Hanchor as (-> & Hframe).
  apply gather_loop_roster in Hloop.
  rewrite (roster_frame E _ _ _ Hframe) in Hloop. subst meta'.
  rewrite roster_lookup, lookup_empty. reflexivity.
Qed.

Lemma meta_data_is_made_from_first_messages_chat :
  ∃ html meta,
    (gather_messages Demo.quiet [0%nat; 1%nat; 2%nat] "UTC" true
       (mk_state Demo.chat [])).1 = Ok (html, meta)
    ∧ meta !! 100 = Some (counted 2 (first_aggregate Demo.quiet Demo.alice))
    ∧ meta !! 300 = None.
Proof.
  destruct (gather_messages Demo.quiet [0%nat; 1%nat; 2%nat] "UTC" true
              (mk_state Demo.chat [])) as [[[html meta]|e] s'] eqn:H.
  - exists html, meta. split; [reflexivity |]. split.
    + exact (meta_data_is_made_from_first_messages Demo.quiet _ _ _ _ _ _ _ H 100).
    + exact (meta_data_is_made_from_first_messages Demo.quiet _ _ _ _ _ _ _ H 300).
  - exfalso. revert H. vm_compute. discriminate.
Defined.

(** ** Notices that need only their author *)

(** X17. A thread-created notice, and a pin notice that names the pinned
    message, are rendered whether or not their author is still a member of
    the guild. [construct_message] closes the previous block, asks the guild
    for the author once and, unless that lookup raises, fills the notice's
    template and returns, with the dict of authors and every message object
    left as they were; the error of a lookup that raises is passed on. *)
Theorem author_notice_outcomes (E : Env) (self : MessageConstruct) (s : State)
    (template : Template) :
  author_notice (heap s (message self)) = Some template →
  let author := Message.author (heap s (message self)) in
  let out := construct_message E self s in
  match guild_fetch_member E (User.id author) with
  | Ok _ =>
      (∃ html, out.1 = Ok (html, meta_data self))
      ∧ calls out.2
        = (calls s ++ closing_calls self
             ++ [CallFetchMember (User.id author); CallFillOut template])%list
      ∧ heap out.2 = heap s
  | Raise e => out.1 = Raise e
  end.
Proof.
  intros Hnotice. cbv zeta.
  destruct (generate_message_divider_audit E self s)
    as (self' & s' & Hdiv & Hcalls & Hheap & Hm & _ & Hmeta).
  assert (∃ r, construct_message E self s
               = (r, {| heap := heap s;
                        calls := match guild_fetch_member E
                                         (User.id (Message.author
                                                     (heap s (message self)))) with
                                 | Ok _ =>
                                     calls s ++ closing_calls self
                                     ++ [CallFetchMember
                                           (User.id (Message.author
                                                       (heap s (message self))));
                                         CallFillOut template]
                                 | Raise _ =>
                                     calls s ++ closing_calls self
                                     ++ [CallFetchMember
                                           (User.id (Message.author
                                                       (heap s (message self))))]
                                 end |})
               ∧ match guild_fetch_member E
                         (User.id (Message.author (heap s (message self)))) with
                 | Ok _ => ∃ html, r = Ok (html, meta_data self)
                 | Raise e => r = Raise e
                 end) as (r & -> & Hr).
  { unfold author_notice in Hnotice.
    unfold construct_message. unfold bind at 1. unfold load at 1. unfold bind at 1.
    destruct (Message.type (heap s (message self))); try discriminate Hnotice.
    - destruct (Message.message_reference (heap s (message self))) as [| |ref|] eqn:Href;
        try discriminate Hnotice.
      injection Hnotice as <-.
      unfold build_pin. rewrite (bind_Ok_eq _ _ _ _ _ Hdiv).
      cbv [build_pin_template bind load _gather_user_colour _gather_member
           fetch_member record lift ret fst snd getattr_reference fill_out].
      rewrite Hheap, Hm, Hcalls, <- !app_assoc.
      destruct (guild_fetch_member E _) as [member|e]; cbn [fst snd heap calls].
      + rewrite Href. cbn [fst snd heap calls message_html meta_data set_message_html].
        rewrite <- !app_assoc.
        eexists. split; [reflexivity |]. eexists. rewrite Hmeta. reflexivity.
      + eexists. split; reflexivity.
    - injection Hnotice as <-.
      unfold build_thread. rewrite (bind_Ok_eq _ _ _ _ _ Hdiv).
      cbv [build_thread_template bind load _gather_user_colour _gather_member
           fetch_member record lift ret fst snd fill_out].
      rewrite Hheap, Hm, Hcalls, <- !app_assoc.
      destruct (guild_fetch_member E _) as [member|e]; cbn [fst snd heap calls].
      + cbn [fst snd heap calls message_html meta_data set_message_html].
        rewrite <- !app_assoc.
        eexists. split; [reflexivity |]. eexists. rewrite Hmeta. reflexivity.
      + eexists. split; reflexivity. }
  destruct (guild_fetch_member E _); cbn [fst snd heap calls]; auto.
Qed.

Lemma author_notice_outcomes_thread :
  calls (construct_message Demo.quiet (Demo.fresh 0%nat None)
           (mk_state Demo.chat_thread_created [])).2
  = [CallFetchMember 100; CallFillOut html_generator.message_thread].
Proof.
  exact (proj1 (proj2 (author_notice_outcomes Demo.quiet (Demo.fresh 0%nat None)
                         (mk_state Demo.chat_thread_created [])
                         html_generator.message_thread eq_refl))).
Defined.

(** ** The link helpers *)

(** X18. [quick_link] posts the link that [link] returns. For a message
    with an attachment, [link] returns the viewer's address followed by the
    address of the first attachment, unescaped, and [quick_link] sends one
    embed whose description wraps exactly that link and returns what the
    channel answers; the other attachments play no part. For a message
    without attachments both raise [IndexError], for one whose attachments
    are [None] both raise [TypeError], and [quick_link] sends nothing. *)
Theorem quick_link_posts_the_link (attachment_url : Asset → string)
    (channel_send : Embed → Result loc) (m : Message.t) :
  match link attachment_url m with
  | Ok address =>
      (∃ first rest, Message.attachments m = Some (first :: rest)
                     ∧ address = "https://mahto.id/chat-exporter?url="
                                 +:+ attachment_url first)
      ∧ ∃ embed,
          quick_link attachment_url channel_send m = (channel_send embed, [embed])
          ∧ embed_description embed
            = "[Click here to view the transcript](" +:+ address +:+ ")"
  | Raise e =>
      (e = IndexError ∧ Message.attachments m = Some []
       ∨ e = TypeError ∧ Message.attachments m = None)
      ∧ quick_link attachment_url channel_send m = (Raise e, [])
  end.
Proof.
  unfold link, quick_link.
  destruct (Message.attachments m) as [[|first rest]|]; [auto | | auto].
  split; [exists first, rest; split; reflexivity |].
  eexists. split; [reflexivity |].
  cbn [embed_description]. rewrite append_assoc. reflexivity.
Qed.
